(** * SUPERCOLD 1.3.0: the combat simulation, embedded and verified

    The definitions follow [Supercold.Game] and the sprites, weapons and
    groups it drives.  JavaScript numbers are read as exact rationals
    ([Q]); integer counters are [Z].  Objects that the source shares by
    reference (the bots' weapons, the pooled bullets, the trails) live in
    the game state and are named by references, so that aliasing is kept.

    What belongs to the Phaser engine (the random data generator, the
    trigonometric functions, the physics contact dispatch) is not part of
    the game's source.  The generator and the trigonometry are taken as
    parameters; the few sprite primitives the game relies on ([kill],
    [reset], [revive], the group look-ups) are written out next to their
    callers. *)

From Stdlib Require Import QArith ZArith Lia Lqa Qround Bool Sorted.
From Stdlib Require Import DecimalString DecimalZ DecimalPos.
From stdpp Require Import base list gmap strings.

Open Scope Q_scope.

(** ** Numbers *)

Definition Qleb (a b : Q) : bool := Qle_bool a b.
Definition Qltb (a b : Q) : bool := negb (Qle_bool b a).
Definition Qeqb (a b : Q) : bool := Qeq_bool a b.

Definition Math_max (a b : Q) : Q := if Qltb a b then b else a.
Definition Math_min (a b : Q) : Q := if Qltb b a then b else a.
Definition Math_round (a : Q) : Q := inject_Z (Qfloor (a + (1 # 2))).
Definition Math_floor (a : Q) : Q := inject_Z (Qfloor a).

(** [Math.PI], the rational that the double denotes. *)
Definition Math_PI : Q := 884279719003555 # 281474976710656.

(** ** The engine's services, as parameters *)

(** [game.rnd]: a generator with state [R]; every draw returns the value
    and the next state. *)
Class RandomDataGenerator (R : Type) := {
  frac : R -> Q * R;
  realInRange : Q -> Q -> R -> Q * R;
  between : Q -> Q -> R -> Q * R;
  sign : R -> Q * R
}.

(** What the generator's documentation promises about the real draws. *)
Class RandomRanges (R : Type) `{RandomDataGenerator R} := {
  frac_range : forall r, 0 <= fst (frac r) /\ fst (frac r) < 1;
  realInRange_range : forall lo hi r,
    lo <= hi -> lo <= fst (realInRange lo hi r) /\ fst (realInRange lo hi r) <= hi;
  between_range : forall lo hi r,
    lo <= hi -> lo <= fst (between lo hi r) /\ fst (between lo hi r) <= hi
}.

(** [Math.cos], [Math.sin], [Math.atan2], [Math.sqrt] and the two angle
    helpers of [game.math]. *)
Class Trigonometry := {
  Math_cos : Q -> Q;
  Math_sin : Q -> Q;
  Math_atan2 : Q -> Q -> Q;
  Math_sqrt : Q -> Q;
  reverseAngle : Q -> Q;
  normalizeAngle : Q -> Q
}.

(** ** Constants of the [Supercold] namespace *)

Definition NATIVE_WIDTH : Q := 1366.
Definition NATIVE_HEIGHT : Q := 768.
Definition PADDING_width : Q := Math_round (NATIVE_WIDTH / 2).
Definition PADDING_height : Q := Math_round (NATIVE_HEIGHT / 2).
Definition CELLDIM : Q := 40.
Definition FACTOR_SLOW : Q := 16.
Definition FACTOR_SLOWER : Q := 42.
Definition FACTOR_SLOWEST : Q := 192.
Definition PLAYER_SPEED : Q := 300.
Definition BOT_SPEED_NORMAL : Q := PLAYER_SPEED.
Definition BULLET_SPEED_NORMAL : Q := PLAYER_SPEED * 5.

Definition world_width : Q := CELLDIM * 56.
Definition world_height : Q := CELLDIM * 42.
(** [world.bounds], as [_setWorldBounds] sets them: a rectangle of the
    padded size with the origin in its centre. *)
Definition bounds_width : Q := world_width + 2 * PADDING_width.
Definition bounds_height : Q := world_height + 2 * PADDING_height.
Definition bounds_left : Q := - Math_round (bounds_width / 2).
Definition bounds_top : Q := - Math_round (bounds_height / 2).
Definition bounds_right : Q := bounds_left + bounds_width.
Definition bounds_bottom : Q := bounds_top + bounds_height.

Record Speeds := {
  normal : Q;
  slow : Q;
  slower : Q;
  slowest : Q
}.

Definition speeds_player : Q := PLAYER_SPEED.
Definition speeds_dodge : Q := PLAYER_SPEED * 2.
Definition speeds_bot : Speeds := {|
  normal := PLAYER_SPEED;
  slow := Math_round (BOT_SPEED_NORMAL / FACTOR_SLOW);
  slower := Math_round (BOT_SPEED_NORMAL / FACTOR_SLOWER);
  slowest := Math_round (BOT_SPEED_NORMAL / FACTOR_SLOWEST)
|}.
Definition speeds_bullet : Speeds := {|
  normal := BULLET_SPEED_NORMAL;
  slow := Math_round (BULLET_SPEED_NORMAL / FACTOR_SLOW);
  slower := Math_round (BULLET_SPEED_NORMAL / FACTOR_SLOWER);
  slowest := Math_round (BULLET_SPEED_NORMAL / FACTOR_SLOWEST)
|}.

Definition player_radius : Q := 25.
Definition bullet_width : Q := 16.
Definition baseFireRate : Q := 1 / 2.
Definition fastFireFactor : Q := 1 / 2.
Definition initFireDelay : Q := 1 / 8.
Definition hotswitchTimeout : Q := 5 / 2.
Definition superhotswitchTimeout : Q := 1 / 2.
Definition bigheadScale : Q := 3 / 2.
Definition chibiScale : Q := 667 / 1000.

Definition ANGLE_1DEG : Q := 1 * Math_PI / 180.

(** ** Mutators *)

Record Mutators := {
  freelook : bool;
  fasttime : bool;
  freezetime : bool;
  fastgun : bool;
  bighead : bool;
  chibi : bool;
  dodge : bool;
  lmtdbull : bool;
  superhotswitch : bool;
  secondchance : bool;
  godmode : bool
}.

Definition set_secondchance (v : bool) (m : Mutators) : Mutators :=
  {| freelook := freelook m; fasttime := fasttime m; freezetime := freezetime m;
     fastgun := fastgun m; bighead := bighead m; chibi := chibi m;
     dodge := dodge m; lmtdbull := lmtdbull m;
     superhotswitch := superhotswitch m; secondchance := v;
     godmode := godmode m |}.

(** ** Sprites *)

(** Object identity of the live sprites: the player, or the child of the
    bot group at an index. *)
Inductive EntityRef :=
| PlayerRef
| BotRef (i : nat).

Inductive WeaponKind :=
| Pistol | Burst | Burst3 | Blunderbuss | Shotgun | DbShotgun | Rifle.

(** A sprite's [weapon] field points either to the weapon made for the
    player or to one of the weapons that all bots share. *)
Inductive WeaponRef :=
| PlayerWeapon
| BotWeapon (k : WeaponKind).

Inductive BulletGroupRef :=
| PlayerBullets
| BotBullets.

(** The P2 body of a sprite: position, rotation, velocity. *)
Record Body := {
  body_x : Q;
  body_y : Q;
  rotation : Q;
  velocity_x : Q;
  velocity_y : Q
}.

Definition set_body_pos (px py : Q) (b : Body) : Body :=
  {| body_x := px; body_y := py; rotation := rotation b;
     velocity_x := velocity_x b; velocity_y := velocity_y b |}.
Definition set_rotation (r : Q) (b : Body) : Body :=
  {| body_x := body_x b; body_y := body_y b; rotation := r;
     velocity_x := velocity_x b; velocity_y := velocity_y b |}.
Definition set_velocity (vx vy : Q) (b : Body) : Body :=
  {| body_x := body_x b; body_y := body_y b; rotation := rotation b;
     velocity_x := vx; velocity_y := vy |}.

(** [LiveSprite]: the state shared by the player and the bots.  Phaser
    keeps [alive], [exists] and [visible] in step in [kill], [reset] and
    [revive], the only writers here; one flag stands for the three. *)
Record LiveSprite := {
  x : Q;
  y : Q;
  body : Body;
  alive : bool;
  radius : Q;
  remainingTime : Q;
  weapon : option WeaponRef;
  dodging : bool;
  _direction : Q;
  _duration : Q
}.

Definition set_xy (px py : Q) (s : LiveSprite) : LiveSprite :=
  {| x := px; y := py; body := body s; alive := alive s; radius := radius s;
     remainingTime := remainingTime s; weapon := weapon s;
     dodging := dodging s; _direction := _direction s; _duration := _duration s |}.
Definition set_body (b : Body) (s : LiveSprite) : LiveSprite :=
  {| x := x s; y := y s; body := b; alive := alive s; radius := radius s;
     remainingTime := remainingTime s; weapon := weapon s;
     dodging := dodging s; _direction := _direction s; _duration := _duration s |}.
Definition set_alive (a : bool) (s : LiveSprite) : LiveSprite :=
  {| x := x s; y := y s; body := body s; alive := a; radius := radius s;
     remainingTime := remainingTime s; weapon := weapon s;
     dodging := dodging s; _direction := _direction s; _duration := _duration s |}.
Definition set_remainingTime (t : Q) (s : LiveSprite) : LiveSprite :=
  {| x := x s; y := y s; body := body s; alive := alive s; radius := radius s;
     remainingTime := t; weapon := weapon s;
     dodging := dodging s; _direction := _direction s; _duration := _duration s |}.
Definition set_weapon (w : option WeaponRef) (s : LiveSprite) : LiveSprite :=
  {| x := x s; y := y s; body := body s; alive := alive s; radius := radius s;
     remainingTime := remainingTime s; weapon := w;
     dodging := dodging s; _direction := _direction s; _duration := _duration s |}.
Definition set_dodging (d : bool) (s : LiveSprite) : LiveSprite :=
  {| x := x s; y := y s; body := body s; alive := alive s; radius := radius s;
     remainingTime := remainingTime s; weapon := weapon s;
     dodging := d; _direction := _direction s; _duration := _duration s |}.
Definition set_direction (d : Q) (s : LiveSprite) : LiveSprite :=
  {| x := x s; y := y s; body := body s; alive := alive s; radius := radius s;
     remainingTime := remainingTime s; weapon := weapon s;
     dodging := dodging s; _direction := d; _duration := _duration s |}.
Definition set_duration (d : Q) (s : LiveSprite) : LiveSprite :=
  {| x := x s; y := y s; body := body s; alive := alive s; radius := radius s;
     remainingTime := remainingTime s; weapon := weapon s;
     dodging := dodging s; _direction := _direction s; _duration := d |}.

(** [Sprite.prototype.moveForward] *)
Definition moveForward `{Trigonometry} (rot speed : Q) (s : LiveSprite) : LiveSprite :=
  set_body (set_velocity (speed * Math_cos rot) (speed * Math_sin rot) (body s)) s.

(** [body.setZeroVelocity] *)
Definition setZeroVelocity (s : LiveSprite) : LiveSprite :=
  set_body (set_velocity 0 0 (body s)) s.

(** Phaser's [Sprite.reset(x, y)]: the sprite and its body are placed at
    the point, the body comes to rest, the sprite lives. *)
Definition Sprite_reset (px py : Q) (s : LiveSprite) : LiveSprite :=
  set_alive true
    (set_body (set_velocity 0 0 (set_body_pos px py (body s))) (set_xy px py s)).

(** [LiveSprite.prototype.reset] *)
Definition LiveSprite_reset (px py : Q) (s : LiveSprite) : LiveSprite :=
  set_duration 0 (set_direction 0 (set_dodging false
    (set_weapon None (set_remainingTime 0 (Sprite_reset px py s))))).

(** [Player]: a live sprite with a dodge reload timer. *)
Record Player := {
  player_sprite : LiveSprite;
  _dodgeRemainingTime : Q
}.

Definition DODGE_RELOAD_TIME : Q := 75 / 1000.

(** The movement closures a bot can be given. *)
Inductive Mover :=
| ForwardMover
| DistantMover (distance : Q)
| StrafingMover (distance direction : Q)
| StrafingDistantMover (distance direction : Q).

Record Bot := {
  bot_sprite : LiveSprite;
  move : Mover
}.

Definition VIEW_ANGLE : Q := Math_PI / (225 / 100).

(** [Bot.prototype.reset] *)
Definition Bot_reset (px py : Q) (b : Bot) : Bot :=
  {| bot_sprite := set_remainingTime initFireDelay (LiveSprite_reset px py (bot_sprite b));
     move := move b |}.

(** ** Weapons *)

(** [fireFactor] and [_bulletCount] are the Rifle's own fields; the other
    weapons leave them alone. *)
Record Weapon := {
  kind : WeaponKind;
  fireRate : Q;
  fireFactor : Q;
  _bulletCount : Z
}.

Definition Rifle_BULLET_COUNT : Z := 10.
Definition Rifle_FIRE_RATE : Q := baseFireRate / 4.
Definition Rifle_OFFSET : Q := 16.
Definition Burst_OFFSET : Q := 16.
Definition Burst3_OFFSET : Q := 16.
Definition Blunderbuss_ANGLE : Q := 13 * ANGLE_1DEG.
Definition Blunderbuss_ANGLE_DIFF : Q := 2 * ANGLE_1DEG.
Definition Blunderbuss_OFFSET : Q := 5.
Definition Shotgun_ANGLE : Q := 20 * ANGLE_1DEG.
Definition Shotgun_ANGLE_DIFF : Q := 2 * ANGLE_1DEG.
Definition DbShotgun_ANGLE : Q := 10 * ANGLE_1DEG.
Definition DbShotgun_ANGLE_DIFF : Q := 2 * ANGLE_1DEG.
Definition DbShotgun_OFFSET : Q := 6.

(** The constructors [Pistol], [Burst], ..., [Rifle]. *)
Definition new_Weapon (k : WeaponKind) (factor : Q) : Weapon :=
  match k with
  | Pistol | Burst | DbShotgun =>
      {| kind := k; fireRate := baseFireRate * factor;
         fireFactor := factor; _bulletCount := 0 |}
  | Burst3 | Shotgun =>
      {| kind := k; fireRate := baseFireRate * factor * (1111 / 1000);
         fireFactor := factor; _bulletCount := 0 |}
  | Blunderbuss =>
      {| kind := k; fireRate := baseFireRate * factor * (12 / 10);
         fireFactor := factor; _bulletCount := 0 |}
  | Rifle =>
      {| kind := Rifle; fireRate := Rifle_FIRE_RATE * factor;
         fireFactor := factor; _bulletCount := Rifle_BULLET_COUNT |}
  end.

(** The weapons all bots share ([this._weapons]). *)
Record Weapons := {
  pistol : Weapon;
  burst : Weapon;
  burst3 : Weapon;
  blunderbuss : Weapon;
  shotgun : Weapon;
  dbshotgun : Weapon;
  rifle : Weapon
}.

Definition get_bot_weapon (k : WeaponKind) (ws : Weapons) : Weapon :=
  match k with
  | Pistol => pistol ws | Burst => burst ws | Burst3 => burst3 ws
  | Blunderbuss => blunderbuss ws | Shotgun => shotgun ws
  | DbShotgun => dbshotgun ws | Rifle => rifle ws
  end.

Definition set_bot_weapon (k : WeaponKind) (w : Weapon) (ws : Weapons) : Weapons :=
  {| pistol := match k with Pistol => w | _ => pistol ws end;
     burst := match k with Burst => w | _ => burst ws end;
     burst3 := match k with Burst3 => w | _ => burst3 ws end;
     blunderbuss := match k with Blunderbuss => w | _ => blunderbuss ws end;
     shotgun := match k with Shotgun => w | _ => shotgun ws end;
     dbshotgun := match k with DbShotgun => w | _ => dbshotgun ws end;
     rifle := match k with Rifle => w | _ => rifle ws end |}.

(** ** Bullets and trails *)

Record Bullet := {
  bullet_name : nat;
  bullet_x : Q;
  bullet_y : Q;
  bullet_rotation : Q;
  bullet_vx : Q;
  bullet_vy : Q;
  owner : option EntityRef;
  bullet_alive : bool
}.

(** A bullet is named by its group and its index among the children. *)
Definition BulletRef : Type := BulletGroupRef * nat.

Record BulletTrail := {
  trail_alive : bool;
  trail_bullet : option BulletRef;
  refX : Q;
  refY : Q
}.

(** [BulletTrailPainter]: the pool of trails and the dictionary from a
    bullet's name to its live trail (an index in the pool). *)
Record BulletTrailPainter := {
  trails : list BulletTrail;
  _liveTrails : gmap nat nat
}.

(** ** The game state *)

(** The two halves of the hotswitch animation: while fading out the
    [swap] callback is pending, while fading in [endHotswitch] is. *)
Inductive TweenStage :=
| FadeOut
| FadeIn.

(** How often the sequences that only concern presentation, storage and
    timers have been started.  Nothing in the game reads these counters. *)
Record Calls := {
  superhot_calls : nat;
  lose_calls : nat;
  swap_calls : nat;
  shake_calls : nat
}.

Section Simulation.

Context {R : Type} `{RandomDataGenerator R} `{Trigonometry}.

(** What a sprite or a weapon can reach through [this.game] and
    [this.weapon]: the generator, the two bullet groups with the painter
    that listens to their signals, the weapon objects and the counter
    behind the bullets' names.  [player_weapon] is the object that
    [player.weapon] points to; [thrown] records that the source would have
    raised a [TypeError]. *)
Record Arena := MkArena {
  rnd : R;
  _groups_playerBullets : list Bullet;
  _groups_botBullets : list Bullet;
  player_weapon : Weapon;
  _weapons : Weapons;
  _bulletTrailPainter : BulletTrailPainter;
  Bullet_count : nat;
  thrown : bool
}.

Definition set_rnd (v : R) (g : Arena) : Arena :=
  MkArena v (_groups_playerBullets g) (_groups_botBullets g) (player_weapon g)
    (_weapons g) (_bulletTrailPainter g) (Bullet_count g) (thrown g).

Definition set__groups_playerBullets (v : list Bullet) (g : Arena) : Arena :=
  MkArena (rnd g) v (_groups_botBullets g) (player_weapon g) (_weapons g)
    (_bulletTrailPainter g) (Bullet_count g) (thrown g).

Definition set__groups_botBullets (v : list Bullet) (g : Arena) : Arena :=
  MkArena (rnd g) (_groups_playerBullets g) v (player_weapon g) (_weapons g)
    (_bulletTrailPainter g) (Bullet_count g) (thrown g).

Definition set_player_weapon (v : Weapon) (g : Arena) : Arena :=
  MkArena (rnd g) (_groups_playerBullets g) (_groups_botBullets g) v
    (_weapons g) (_bulletTrailPainter g) (Bullet_count g) (thrown g).

Definition set__weapons (v : Weapons) (g : Arena) : Arena :=
  MkArena (rnd g) (_groups_playerBullets g) (_groups_botBullets g)
    (player_weapon g) v (_bulletTrailPainter g) (Bullet_count g) (thrown g).

Definition set__bulletTrailPainter (v : BulletTrailPainter) (g : Arena) : Arena :=
  MkArena (rnd g) (_groups_playerBullets g) (_groups_botBullets g)
    (player_weapon g) (_weapons g) v (Bullet_count g) (thrown g).

Definition set_Bullet_count (v : nat) (g : Arena) : Arena :=
  MkArena (rnd g) (_groups_playerBullets g) (_groups_botBullets g)
    (player_weapon g) (_weapons g) (_bulletTrailPainter g) v (thrown g).

Definition set_thrown (v : bool) (g : Arena) : Arena :=
  MkArena (rnd g) (_groups_playerBullets g) (_groups_botBullets g)
    (player_weapon g) (_weapons g) (_bulletTrailPainter g) (Bullet_count g) v.

(** [Supercold.Game], with the objects it owns.  [onChildInputDown] tells
    whether the hotswitch listener is attached to the bot group;
    [player_collides] lists the bullet groups whose contacts with the
    player call [_lose]; [hotswitch_tween] is the pending half of the
    hotswitch animation and the bot it was started on; [storage_level] is
    the level kept by the storage manager. *)
Record Game := MkGame {
  level : Z;
  _mutators : Mutators;
  _counts_bots : Z;
  _counts_bullets : Z;
  _next_botTime : Q;
  _next_hotSwitch : Q;
  _elapsedTime : Q;
  _hotswitching : bool;
  _sprites_player : Player;
  _groups_bots : list Bot;
  arena : Arena;
  onChildInputDown : bool;
  player_collides : list BulletGroupRef;
  hotswitch_tween : option (TweenStage * nat);
  storage_level : Z;
  calls : Calls
}.

Definition set__mutators (v : Mutators) (g : Game) : Game :=
  MkGame (level g) v (_counts_bots g) (_counts_bullets g) (_next_botTime g)
    (_next_hotSwitch g) (_elapsedTime g) (_hotswitching g) (_sprites_player g)
    (_groups_bots g) (arena g) (onChildInputDown g) (player_collides g)
    (hotswitch_tween g) (storage_level g) (calls g).

Definition set__counts_bots (v : Z) (g : Game) : Game :=
  MkGame (level g) (_mutators g) v (_counts_bullets g) (_next_botTime g)
    (_next_hotSwitch g) (_elapsedTime g) (_hotswitching g) (_sprites_player g)
    (_groups_bots g) (arena g) (onChildInputDown g) (player_collides g)
    (hotswitch_tween g) (storage_level g) (calls g).

Definition set__counts_bullets (v : Z) (g : Game) : Game :=
  MkGame (level g) (_mutators g) (_counts_bots g) v (_next_botTime g)
    (_next_hotSwitch g) (_elapsedTime g) (_hotswitching g) (_sprites_player g)
    (_groups_bots g) (arena g) (onChildInputDown g) (player_collides g)
    (hotswitch_tween g) (storage_level g) (calls g).

Definition set__next_botTime (v : Q) (g : Game) : Game :=
  MkGame (level g) (_mutators g) (_counts_bots g) (_counts_bullets g) v
    (_next_hotSwitch g) (_elapsedTime g) (_hotswitching g) (_sprites_player g)
    (_groups_bots g) (arena g) (onChildInputDown g) (player_collides g)
    (hotswitch_tween g) (storage_level g) (calls g).

Definition set__next_hotSwitch (v : Q) (g : Game) : Game :=
  MkGame (level g) (_mutators g) (_counts_bots g) (_counts_bullets g)
    (_next_botTime g) v (_elapsedTime g) (_hotswitching g) (_sprites_player g)
    (_groups_bots g) (arena g) (onChildInputDown g) (player_collides g)
    (hotswitch_tween g) (storage_level g) (calls g).

Definition set__elapsedTime (v : Q) (g : Game) : Game :=
  MkGame (level g) (_mutators g) (_counts_bots g) (_counts_bullets g)
    (_next_botTime g) (_next_hotSwitch g) v (_hotswitching g)
    (_sprites_player g) (_groups_bots g) (arena g) (onChildInputDown g)
    (player_collides g) (hotswitch_tween g) (storage_level g) (calls g).

Definition set__hotswitching (v : bool) (g : Game) : Game :=
  MkGame (level g) (_mutators g) (_counts_bots g) (_counts_bullets g)
    (_next_botTime g) (_next_hotSwitch g) (_elapsedTime g) v
    (_sprites_player g) (_groups_bots g) (arena g) (onChildInputDown g)
    (player_collides g) (hotswitch_tween g) (storage_level g) (calls g).

Definition set__sprites_player (v : Player) (g : Game) : Game :=
  MkGame (level g) (_mutators g) (_counts_bots g) (_counts_bullets g)
    (_next_botTime g) (_next_hotSwitch g) (_elapsedTime g) (_hotswitching g) v
    (_groups_bots g) (arena g) (onChildInputDown g) (player_collides g)
    (hotswitch_tween g) (storage_level g) (calls g).

Definition set__groups_bots (v : list Bot) (g : Game) : Game :=
  MkGame (level g) (_mutators g) (_counts_bots g) (_counts_bullets g)
    (_next_botTime g) (_next_hotSwitch g) (_elapsedTime g) (_hotswitching g)
    (_sprites_player g) v (arena g) (onChildInputDown g) (player_collides g)
    (hotswitch_tween g) (storage_level g) (calls g).

Definition set_arena (v : Arena) (g : Game) : Game :=
  MkGame (level g) (_mutators g) (_counts_bots g) (_counts_bullets g)
    (_next_botTime g) (_next_hotSwitch g) (_elapsedTime g) (_hotswitching g)
    (_sprites_player g) (_groups_bots g) v (onChildInputDown g)
    (player_collides g) (hotswitch_tween g) (storage_level g) (calls g).

Definition set_onChildInputDown (v : bool) (g : Game) : Game :=
  MkGame (level g) (_mutators g) (_counts_bots g) (_counts_bullets g)
    (_next_botTime g) (_next_hotSwitch g) (_elapsedTime g) (_hotswitching g)
    (_sprites_player g) (_groups_bots g) (arena g) v (player_collides g)
    (hotswitch_tween g) (storage_level g) (calls g).

Definition set_player_collides (v : list BulletGroupRef) (g : Game) : Game :=
  MkGame (level g) (_mutators g) (_counts_bots g) (_counts_bullets g)
    (_next_botTime g) (_next_hotSwitch g) (_elapsedTime g) (_hotswitching g)
    (_sprites_player g) (_groups_bots g) (arena g) (onChildInputDown g) v
    (hotswitch_tween g) (storage_level g) (calls g).

Definition set_hotswitch_tween (v : option (TweenStage * nat)) (g : Game) : Game :=
  MkGame (level g) (_mutators g) (_counts_bots g) (_counts_bullets g)
    (_next_botTime g) (_next_hotSwitch g) (_elapsedTime g) (_hotswitching g)
    (_sprites_player g) (_groups_bots g) (arena g) (onChildInputDown g)
    (player_collides g) v (storage_level g) (calls g).

Definition set_storage_level (v : Z) (g : Game) : Game :=
  MkGame (level g) (_mutators g) (_counts_bots g) (_counts_bullets g)
    (_next_botTime g) (_next_hotSwitch g) (_elapsedTime g) (_hotswitching g)
    (_sprites_player g) (_groups_bots g) (arena g) (onChildInputDown g)
    (player_collides g) (hotswitch_tween g) v (calls g).

Definition set_calls (v : Calls) (g : Game) : Game :=
  MkGame (level g) (_mutators g) (_counts_bots g) (_counts_bullets g)
    (_next_botTime g) (_next_hotSwitch g) (_elapsedTime g) (_hotswitching g)
    (_sprites_player g) (_groups_bots g) (arena g) (onChildInputDown g)
    (player_collides g) (hotswitch_tween g) (storage_level g) v.

(** ** Groups, bullets and trails *)

#[global] Instance BulletGroupRef_eq_dec : EqDecision BulletGroupRef.
Proof. solve_decision. Defined.

Definition get_bullets (grp : BulletGroupRef) (g : Arena) : list Bullet :=
  match grp with
  | PlayerBullets => _groups_playerBullets g
  | BotBullets => _groups_botBullets g
  end.

Definition set_bullets (grp : BulletGroupRef) (l : list Bullet) (g : Arena) : Arena :=
  match grp with
  | PlayerBullets => set__groups_playerBullets l g
  | BotBullets => set__groups_botBullets l g
  end.

(** The [Bullet] constructor, called by [BulletGroup.prototype.create]
    with [exists = false]: the new bullet is dead and has no owner. *)
Definition new_Bullet (name : nat) : Bullet :=
  {| bullet_name := name; bullet_x := 0; bullet_y := 0; bullet_rotation := 0;
     bullet_vx := 0; bullet_vy := 0; owner := None; bullet_alive := false |}.

(** [BulletGroup.prototype.create]: the new child goes on top of the group;
    its name takes the next value of [Bullet.count]. *)
Definition BulletGroup_create (grp : BulletGroupRef) (g : Arena) : nat * Arena :=
  (length (get_bullets grp g),
   set_Bullet_count (S (Bullet_count g))
     (set_bullets grp (get_bullets grp g ++ [new_Bullet (Bullet_count g)]) g)).

(** [bullets.getFirstExists(!EXISTS, CREATE_IF_NULL)]: the first child
    that does not exist or, when all do, a new one. *)
Definition getFirstExists (grp : BulletGroupRef) (g : Arena) : nat * Arena :=
  match list_find (fun b => bullet_alive b = false) (get_bullets grp g) with
  | Some (i, _) => (i, g)
  | None => BulletGroup_create grp g
  end.

(** [Bullet.prototype.reset]: Phaser's reset, then the owner is dropped. *)
Definition Bullet_reset (px py : Q) (b : Bullet) : Bullet :=
  {| bullet_name := bullet_name b; bullet_x := px; bullet_y := py;
     bullet_rotation := bullet_rotation b; bullet_vx := 0; bullet_vy := 0;
     owner := None; bullet_alive := true |}.

Definition set_owner (o : option EntityRef) (b : Bullet) : Bullet :=
  {| bullet_name := bullet_name b; bullet_x := bullet_x b; bullet_y := bullet_y b;
     bullet_rotation := bullet_rotation b; bullet_vx := bullet_vx b;
     bullet_vy := bullet_vy b; owner := o; bullet_alive := bullet_alive b |}.
Definition set_bullet_rotation (r : Q) (b : Bullet) : Bullet :=
  {| bullet_name := bullet_name b; bullet_x := bullet_x b; bullet_y := bullet_y b;
     bullet_rotation := r; bullet_vx := bullet_vx b;
     bullet_vy := bullet_vy b; owner := owner b; bullet_alive := bullet_alive b |}.
Definition set_bullet_alive (a : bool) (b : Bullet) : Bullet :=
  {| bullet_name := bullet_name b; bullet_x := bullet_x b; bullet_y := bullet_y b;
     bullet_rotation := bullet_rotation b; bullet_vx := bullet_vx b;
     bullet_vy := bullet_vy b; owner := owner b; bullet_alive := a |}.
Definition set_bullet_pos (px py : Q) (b : Bullet) : Bullet :=
  {| bullet_name := bullet_name b; bullet_x := px; bullet_y := py;
     bullet_rotation := bullet_rotation b; bullet_vx := bullet_vx b;
     bullet_vy := bullet_vy b; owner := owner b; bullet_alive := bullet_alive b |}.

(** [Bullet.prototype.move] *)
Definition Bullet_move (speed : Q) (b : Bullet) : Bullet :=
  {| bullet_name := bullet_name b; bullet_x := bullet_x b; bullet_y := bullet_y b;
     bullet_rotation := bullet_rotation b;
     bullet_vx := speed * Math_cos (bullet_rotation b);
     bullet_vy := speed * Math_sin (bullet_rotation b);
     owner := owner b; bullet_alive := bullet_alive b |}.

(** [BulletTrailPainter.prototype.startTrail]: a dead trail of the pool is
    reset, or a new one is made; [trail.start] binds it to the bullet. *)
Definition startTrail (ref : BulletRef) (b : Bullet) (p : BulletTrailPainter)
  : BulletTrailPainter :=
  let started := {| trail_alive := true; trail_bullet := Some ref;
                    refX := bullet_x b; refY := bullet_y b |} in
  match list_find (fun t => trail_alive t = false) (trails p) with
  | Some (i, _) =>
      {| trails := <[i := started]> (trails p);
         _liveTrails := <[bullet_name b := i]> (_liveTrails p) |}
  | None =>
      {| trails := trails p ++ [started];
         _liveTrails := <[bullet_name b := length (trails p)]> (_liveTrails p) |}
  end.

(** [BulletTrail.prototype.stop] *)
Definition BulletTrail_stop (b : Bullet) (t : BulletTrail) : BulletTrail :=
  {| trail_alive := trail_alive t; trail_bullet := None;
     refX := bullet_x b; refY := bullet_y b |}.

(** [BulletTrailPainter.prototype.stopTrail]: nothing happens when the
    bullet has no live trail. *)
Definition stopTrail (b : Bullet) (p : BulletTrailPainter) : BulletTrailPainter :=
  match _liveTrails p !! bullet_name b with
  | Some i =>
      {| trails := alter (BulletTrail_stop b) i (trails p);
         _liveTrails := delete (bullet_name b) (_liveTrails p) |}
  | None => p
  end.

(** [bullet.kill()]: Phaser clears the flags and dispatches [onKilled],
    to which [customizeBullet] has added [stopTrail]. *)
Definition Bullet_kill (ref : BulletRef) (g : Arena) : Arena :=
  match get_bullets ref.1 g !! ref.2 with
  | Some b =>
      set__bulletTrailPainter (stopTrail b (_bulletTrailPainter g))
        (set_bullets ref.1 (<[ref.2 := set_bullet_alive false b]> (get_bullets ref.1 g)) g)
  | None => g
  end.

(** [Bullet.prototype.fire]: the bullet is reset in front of the entity,
    takes the entity as owner, and is revived, which dispatches
    [onRevived] and so [startTrail]. *)
Definition fired_Bullet (e : EntityRef) (s : LiveSprite) (rot : Q) (b : Bullet) : Bullet :=
  let offset := radius s + Math_round (3 / 4 * bullet_width) in
  set_bullet_alive true
    (set_bullet_rotation rot
       (set_owner (Some e)
          (Bullet_reset (x s + offset * Math_cos rot) (y s + offset * Math_sin rot) b))).

Definition Bullet_fire (ref : BulletRef) (e : EntityRef) (s : LiveSprite) (rot : Q)
    (g : Arena) : Arena :=
  match get_bullets ref.1 g !! ref.2 with
  | Some b =>
      let b' := fired_Bullet e s rot b in
      set__bulletTrailPainter (startTrail ref b' (_bulletTrailPainter g))
        (set_bullets ref.1 (<[ref.2 := b']> (get_bullets ref.1 g)) g)
  | None => g
  end.

(** [this.bullets.getFirstExists(!EXISTS, CREATE_IF_NULL).fire(entity, rot)] *)
Definition shoot (grp : BulletGroupRef) (e : EntityRef) (s : LiveSprite) (rot : Q)
    (g : Arena) : Arena :=
  let '(i, g1) := getFirstExists grp g in
  Bullet_fire (grp, i) e s rot g1.

(** [BulletGroup.prototype.advance] *)
Definition BulletGroup_advance (speed : Q) (l : list Bullet) : list Bullet :=
  map (fun b => if bullet_alive b then Bullet_move speed b else b) l.

(** ** Weapons firing *)

(** One draw from [game.rnd]. *)
Definition draw (f : R -> Q * R) (g : Arena) : Q * Arena :=
  (fst (f (rnd g)), set_rnd (snd (f (rnd g))) g).

Definition get_weapon (w : WeaponRef) (g : Arena) : Weapon :=
  match w with
  | PlayerWeapon => player_weapon g
  | BotWeapon k => get_bot_weapon k (_weapons g)
  end.

Definition put_weapon (w : WeaponRef) (o : Weapon) (g : Arena) : Arena :=
  match w with
  | PlayerWeapon => set_player_weapon o g
  | BotWeapon k => set__weapons (set_bot_weapon k o (_weapons g)) g
  end.

(** [weapon.bullets]: fixed by [_createPlayerWeapon] and
    [_createBotWeapons]. *)
Definition weapon_bullets (w : WeaponRef) : BulletGroupRef :=
  match w with
  | PlayerWeapon => PlayerBullets
  | BotWeapon _ => BotBullets
  end.

(** Every [fire] takes the entity out of the state, may displace it while
    the bullets leave, and hands it back. *)
Definition Pistol_fire (grp : BulletGroupRef) (e : EntityRef) (s : LiveSprite)
    (g : Arena) : LiveSprite * Arena :=
  (s, shoot grp e s (rotation (body s)) g).

Definition Burst_fire (grp : BulletGroupRef) (e : EntityRef) (s : LiveSprite)
    (g : Arena) : LiveSprite * Arena :=
  let x0 := x s in
  let y0 := y s in
  let rot := rotation (body s) in
  let offsetX := Burst_OFFSET * Math_cos (rot + Math_PI / 2) / 2 in
  let offsetY := Burst_OFFSET * Math_sin (rot + Math_PI / 2) / 2 in
  let s1 := set_xy (x0 + offsetX) (y0 + offsetY) s in
  let g1 := shoot grp e s1 rot g in
  let s2 := set_xy (x0 - offsetX) (y0 - offsetY) s1 in
  let g2 := shoot grp e s2 rot g1 in
  (set_xy x0 y0 s2, g2).

Definition Burst3_fire (grp : BulletGroupRef) (e : EntityRef) (s : LiveSprite)
    (g : Arena) : LiveSprite * Arena :=
  let x0 := x s in
  let y0 := y s in
  let rot := rotation (body s) in
  let offsetX := Burst3_OFFSET * Math_cos (rot + Math_PI / 2) in
  let offsetY := Burst3_OFFSET * Math_sin (rot + Math_PI / 2) in
  let s1 := set_xy (x0 + offsetX) (y0 + offsetY) s in
  let g1 := shoot grp e s1 rot g in
  let s2 := set_xy (x0 - offsetX) (y0 - offsetY) s1 in
  let g2 := shoot grp e s2 rot g1 in
  let s3 := set_xy x0 y0 s2 in
  (s3, shoot grp e s3 rot g2).

(** The body of the [for] loop of [Blunderbuss.prototype.fire], run [n]
    more times. *)
Fixpoint Blunderbuss_loop (n : nat) (grp : BulletGroupRef) (e : EntityRef)
    (rot offsetX offsetY factor : Q) (s : LiveSprite) (g : Arena) : LiveSprite * Arena :=
  match n with
  | O => (s, g)
  | S n' =>
      let '(i, g1) := getFirstExists grp g in
      let '(d, g2) := draw (realInRange (- Blunderbuss_ANGLE_DIFF) Blunderbuss_ANGLE_DIFF) g1 in
      let g3 := Bullet_fire (grp, i) e s (rot + factor * Blunderbuss_ANGLE + d) g2 in
      Blunderbuss_loop n' grp e rot offsetX offsetY (factor + 1)
        (set_xy (x s + offsetX) (y s + offsetY) s) g3
  end.

Definition Blunderbuss_fire (grp : BulletGroupRef) (e : EntityRef) (s : LiveSprite)
    (g : Arena) : LiveSprite * Arena :=
  let x0 := x s in
  let y0 := y s in
  let rot := rotation (body s) in
  let offsetX := Blunderbuss_OFFSET * Math_cos (rot + Math_PI / 2) in
  let offsetY := Blunderbuss_OFFSET * Math_sin (rot + Math_PI / 2) in
  let factor := - (3) / 2 in
  let s1 := set_xy (x0 + factor * offsetX) (y0 + factor * offsetY) s in
  let '(s2, g2) := Blunderbuss_loop 4 grp e rot offsetX offsetY factor s1 g in
  (set_xy x0 y0 s2, g2).

Definition Shotgun_fire (grp : BulletGroupRef) (e : EntityRef) (s : LiveSprite)
    (g : Arena) : LiveSprite * Arena :=
  let angle := Shotgun_ANGLE in
  let diff := Shotgun_ANGLE_DIFF in
  let rot := rotation (body s) in
  let '(i1, g) := getFirstExists grp g in
  let '(d1, g) := draw (realInRange (- (3) * diff) diff) g in
  let g := Bullet_fire (grp, i1) e s (rot - angle + d1) g in
  let '(i2, g) := getFirstExists grp g in
  let '(d2, g) := draw (realInRange (- diff) diff) g in
  let g := Bullet_fire (grp, i2) e s (rot + d2) g in
  let '(i3, g) := getFirstExists grp g in
  let '(d3, g) := draw (realInRange (- diff) (3 * diff)) g in
  (s, Bullet_fire (grp, i3) e s (rot + angle + d3) g).

(** The [for] loop of [DbShotgun.prototype.fire] over the given values of
    [i]. *)
Fixpoint DbShotgun_loop (steps : list Z) (grp : BulletGroupRef) (e : EntityRef)
    (x0 y0 rot offsetX offsetY : Q) (s : LiveSprite) (g : Arena) : LiveSprite * Arena :=
  match steps with
  | [] => (s, g)
  | i :: rest =>
      let s1 := set_xy (x0 + inject_Z i * offsetX) (y0 + inject_Z i * offsetY) s in
      let '(j, g1) := getFirstExists grp g in
      let '(d, g2) := draw (realInRange (- DbShotgun_ANGLE_DIFF) DbShotgun_ANGLE_DIFF) g1 in
      let g3 := Bullet_fire (grp, j) e s1 (rot + inject_Z i * DbShotgun_ANGLE + d) g2 in
      DbShotgun_loop rest grp e x0 y0 rot offsetX offsetY s1 g3
  end.

Definition DbShotgun_fire (grp : BulletGroupRef) (e : EntityRef) (s : LiveSprite)
    (g : Arena) : LiveSprite * Arena :=
  let x0 := x s in
  let y0 := y s in
  let rot := rotation (body s) in
  let offsetX := DbShotgun_OFFSET * Math_cos (rot + Math_PI / 2) in
  let offsetY := DbShotgun_OFFSET * Math_sin (rot + Math_PI / 2) in
  let '(s1, g1) :=
    DbShotgun_loop [-2; -1; 0; 1; 2]%Z grp e x0 y0 rot offsetX offsetY s g in
  (set_xy x0 y0 s1, g1).

Definition set_fireRate (v : Q) (w : Weapon) : Weapon :=
  {| kind := kind w; fireRate := v; fireFactor := fireFactor w;
     _bulletCount := _bulletCount w |}.
Definition set__bulletCount (v : Z) (w : Weapon) : Weapon :=
  {| kind := kind w; fireRate := fireRate w; fireFactor := fireFactor w;
     _bulletCount := v |}.

(** [Rifle.prototype.fire]; [w] names the rifle object itself. *)
Definition Rifle_fire (w : WeaponRef) (grp : BulletGroupRef) (e : EntityRef)
    (s : LiveSprite) (g : Arena) : LiveSprite * Arena :=
  let rot := rotation (body s) in
  let '(offset, g) := draw (between (- Rifle_OFFSET) Rifle_OFFSET) g in
  let offsetX := offset * Math_cos (rot + Math_PI / 2) in
  let offsetY := offset * Math_sin (rot + Math_PI / 2) in
  let s1 := set_xy (x s + offsetX) (y s + offsetY) s in
  let g := shoot grp e s1 rot g in
  let s2 := set_xy (x s1 - offsetX) (y s1 - offsetY) s1 in
  let this := set__bulletCount (_bulletCount (get_weapon w g) - 1) (get_weapon w g) in
  if (0 <? _bulletCount this)%Z then
    let '(v, g) := draw (realInRange (9 / 10) (14 / 10)) g in
    (s2, put_weapon w (set_fireRate (Rifle_FIRE_RATE * fireFactor this * v) this) g)
  else
    (s2, put_weapon w
           (set_fireRate (Rifle_FIRE_RATE * fireFactor this * (35 / 10))
              (set__bulletCount Rifle_BULLET_COUNT this)) g).

(** [this.weapon.fire(entity)], by the weapon's constructor. *)
Definition Weapon_fire (w : WeaponRef) (e : EntityRef) (s : LiveSprite) (g : Arena)
  : LiveSprite * Arena :=
  let grp := weapon_bullets w in
  match kind (get_weapon w g) with
  | Pistol => Pistol_fire grp e s g
  | Burst => Burst_fire grp e s g
  | Burst3 => Burst3_fire grp e s g
  | Blunderbuss => Blunderbuss_fire grp e s g
  | Shotgun => Shotgun_fire grp e s g
  | DbShotgun => DbShotgun_fire grp e s g
  | Rifle => Rifle_fire w grp e s g
  end.

(** [LiveSprite.prototype.fire]: with no weapon the call would raise. *)
Definition LiveSprite_fire (e : EntityRef) (s : LiveSprite) (g : Arena)
  : LiveSprite * Arena :=
  match weapon s with
  | Some w =>
      let '(s1, g1) := Weapon_fire w e s g in
      (set_remainingTime (fireRate (get_weapon w g1)) s1, g1)
  | None => (s, set_thrown true g)
  end.


(** ** The player *)

(** What the controls and the clock show during one call of [update]. *)
Record Keys := {
  up : bool;
  down : bool;
  left : bool;
  right : bool
}.

Record Input := {
  wasd : Keys;
  cursors : Keys;
  fireKey_isDown : bool;
  dodgeKey_isDown : bool;
  fireButton_isDown : bool;
  fireButton_shiftKey : bool;
  pointer_worldX : Q;
  pointer_worldY : Q;
  physicsElapsed : Q;
  desiredFps : Q
}.

(** [physics.arcade.distanceBetween] and [angleBetween] on sprites. *)
Definition distanceBetween (a b : LiveSprite) : Q :=
  Math_sqrt ((x a - x b) * (x a - x b) + (y a - y b) * (y a - y b)).

Definition angleBetween (a b : LiveSprite) : Q :=
  Math_atan2 (y b - y a) (x b - x a).

(** The [Player] constructor, as [create] calls it (no scale given). *)
Definition new_Player (px py : Q) : Player :=
  {| player_sprite :=
       {| x := px; y := py;
          body := {| body_x := px; body_y := py; rotation := 0;
                     velocity_x := 0; velocity_y := 0 |};
          alive := true; radius := player_radius * 1; remainingTime := 0;
          weapon := None; dodging := false; _direction := 0; _duration := 0 |};
     _dodgeRemainingTime := DODGE_RELOAD_TIME |}.

Definition set_player_sprite (s : LiveSprite) (p : Player) : Player :=
  {| player_sprite := s; _dodgeRemainingTime := _dodgeRemainingTime p |}.
Definition set__dodgeRemainingTime (t : Q) (p : Player) : Player :=
  {| player_sprite := player_sprite p; _dodgeRemainingTime := t |}.

(** [Player.prototype.rotate] *)
Definition Player_rotate (inp : Input) (p : Player) : bool * Player :=
  let s := player_sprite p in
  let newRotation :=
    Math_atan2 (pointer_worldY inp - y s) (pointer_worldX inp - x s) in
  (negb (Qeqb (rotation (body s)) newRotation),
   set_player_sprite (set_body (set_rotation newRotation (body s)) s) p).

(** [Player.prototype.dodge] *)
Definition Player_dodge (direction : Q) (p : Player) : Player :=
  let s := player_sprite p in
  if negb (dodging s) && Qleb (_dodgeRemainingTime p) 0 then
    set_player_sprite
      (set_direction direction (set_duration (75 / 1000) (set_dodging true s))) p
  else p.

(** [Player.prototype.advance] *)
Definition Player_advance (moved : bool) (direction elapsedTime : Q) (p : Player)
  : Player :=
  let s := player_sprite p in
  let s := set_remainingTime (remainingTime s - elapsedTime) s in
  let reload := _dodgeRemainingTime p - elapsedTime in
  if dodging s then
    let s := moveForward (_direction s) speeds_dodge s in
    let s := set_duration (_duration s - elapsedTime) s in
    if Qleb (_duration s) 0 then
      {| player_sprite := set_dodging false s;
         _dodgeRemainingTime := DODGE_RELOAD_TIME |}
    else {| player_sprite := s; _dodgeRemainingTime := reload |}
  else if moved then
    {| player_sprite := moveForward direction speeds_player s;
       _dodgeRemainingTime := reload |}
  else {| player_sprite := setZeroVelocity s; _dodgeRemainingTime := reload |}.

(** ** The bots *)

(** The closures of [newForwardMover], [newDistantMover],
    [newStrafingMover] and [newStrafingDistantMover]. *)
Definition Mover_move (m : Mover) (s : LiveSprite) (speed : Q) (player : LiveSprite)
  : LiveSprite :=
  match m with
  | ForwardMover => moveForward (rotation (body s)) speed s
  | DistantMover distance =>
      moveForward (rotation (body s))
        (if Qltb (distanceBetween s player) distance then 0 else speed) s
  | StrafingMover distance direction =>
      if Qltb (distanceBetween s player) distance
      then moveForward (rotation (body s) + direction * (8 / 10)) speed s
      else moveForward (rotation (body s)) speed s
  | StrafingDistantMover distance direction =>
      if Qltb (distanceBetween s player) distance
      then moveForward (rotation (body s) + direction) speed s
      else moveForward (rotation (body s)) speed s
  end.

(** The [Bot] constructor followed by [BotGroup.prototype.create]. *)
Definition new_Bot (px py scale : Q) : Bot :=
  {| bot_sprite :=
       {| x := px; y := py;
          body := {| body_x := px; body_y := py; rotation := 0;
                     velocity_x := 0; velocity_y := 0 |};
          alive := true; radius := player_radius * scale;
          remainingTime := initFireDelay;
          weapon := None; dodging := false; _direction := 0; _duration := 0 |};
     move := ForwardMover |}.

(** [Bot.prototype.fire] *)
Definition Bot_fire (i : nat) (s : LiveSprite) (g : Arena) : LiveSprite * Arena :=
  let rot := rotation (body s) in
  let angle := 2 * ANGLE_1DEG in
  let '(d, g) := draw (realInRange (- angle) angle) g in
  let s := set_body (set_rotation (rot + d) (body s)) s in
  let '(s, g) := LiveSprite_fire (BotRef i) s g in
  (set_body (set_rotation rot (body s)) s, g).

(** [Bot.prototype._fire] *)
Definition Bot__fire (i : nat) (lvl : Z) (s : LiveSprite) (g : Arena)
  : LiveSprite * Arena :=
  let '(c, g) := draw frac g in
  if Qleb c (1 / 5) then
    match weapon s with
    | Some w =>
        let '(t, g) :=
          draw (between 0
                  (Math_max (fireRate (get_weapon w g) * (1 - inject_Z lvl / 100)) 0)) g in
        (set_remainingTime t s, g)
    | None => (s, set_thrown true g)
    end
  else Bot_fire i s g.

(** [Bot.prototype._dodge] *)
Definition Bot__dodge (durationFix : Q) (s : LiveSprite) (g : Arena)
  : LiveSprite * Arena :=
  let '(c, g) := draw (between 0 1) g in
  (set_direction ((if Qeqb c 0 then - (1) else 1) * Math_PI / 2)
     (set_duration (25 / 100 + durationFix) (set_dodging true s)), g).

(** [Bot.prototype.advance], for the bot at index [i], in its three
    parts.  First the cooldown runs and the bot turns to the player. *)
Definition Bot_aim (elapsedTime : Q) (player s : LiveSprite) : LiveSprite :=
  let s := set_remainingTime (remainingTime s - elapsedTime) s in
  set_body (set_rotation (angleBetween s player) (body s)) s.

(** Then it tries to shoot when it is somewhat close to the player and
    ready to fire. *)
Definition Bot_ready (player s : LiveSprite) : bool :=
  Qltb (distanceBetween s player) ((NATIVE_WIDTH + NATIVE_HEIGHT) / 2)
  && Qleb (remainingTime s) 0.

(** Last it moves: it goes on dodging, or it follows its mover and may
    start to dodge. *)
Definition Bot_steer (inp : Input) (elapsedTime speed : Q) (lvl : Z)
    (player : LiveSprite) (playerFired : bool) (mover : Mover) (s : LiveSprite)
    (g : Arena) : LiveSprite * Arena :=
  if dodging s then
    let s := moveForward (rotation (body s) + _direction s) speed s in
    let s := set_duration (_duration s - elapsedTime) s in
    (if Qleb (_duration s) 0 then set_dodging false s else s, g)
  else
    let s := Mover_move mover s speed player in
    let slowFactor := physicsElapsed inp / elapsedTime in
    let '(c, g) := draw frac g in
    let '(s, g) :=
      if Qleb c (1 / (desiredFps inp * (12 / 10) * slowFactor))
      then Bot__dodge (4 / 1000 * inject_Z lvl) s g
      else (s, g) in
    if playerFired then
      let angleDiff :=
        reverseAngle (rotation (body player)) - normalizeAngle (rotation (body s)) in
      if Qltb angleDiff VIEW_ANGLE && Qltb (- VIEW_ANGLE) angleDiff then
        let '(c, g) := draw frac g in
        if Qleb c (1 / 4 + Math_min (2 / 4) (2 / 4 * inject_Z lvl / 100))
        then Bot__dodge (5 / 1000 * inject_Z lvl) s g
        else (s, g)
      else (s, g)
    else (s, g).

Definition Bot_advance (i : nat) (inp : Input) (elapsedTime speed : Q) (lvl : Z)
    (player : LiveSprite) (playerFired : bool) (b : Bot) (g : Arena) : Bot * Arena :=
  let s := Bot_aim elapsedTime player (bot_sprite b) in
  let '(s, g) := if Bot_ready player s then Bot__fire i lvl s g else (s, g) in
  let '(s, g) := Bot_steer inp elapsedTime speed lvl player playerFired (move b) s g in
  ({| bot_sprite := s; move := move b |}, g).

(** [bots.countLiving()] *)
Definition countLiving (l : list Bot) : nat :=
  length (List.filter (fun b => alive (bot_sprite b)) l).


(** ** The game state's methods *)

(** One turn of the loop of [BotGroup.prototype.advance]. *)
Definition BotGroup_advance_child (inp : Input) (elapsedTime speed : Q) (lvl : Z)
    (playerFired : bool) (g : Game) (i : nat) : Game :=
  match _groups_bots g !! i with
  | Some b =>
      if alive (bot_sprite b) then
        let '(b', a') :=
          Bot_advance i inp elapsedTime speed lvl
            (player_sprite (_sprites_player g)) playerFired b (arena g) in
        set__groups_bots (<[i := b']> (_groups_bots g)) (set_arena a' g)
      else g
  | None => g
  end.

(** [BotGroup.prototype.advance] *)
Definition BotGroup_advance (inp : Input) (elapsedTime speed : Q) (lvl : Z)
    (playerFired : bool) (g : Game) : Game :=
  fold_left (BotGroup_advance_child inp elapsedTime speed lvl playerFired)
    (seq 0 (length (_groups_bots g))) g.

(** One draw made by the state itself ([this.rnd]). *)
Definition draws (f : R -> Q * R) (g : Game) : Q * Game :=
  (fst (draw f (arena g)), set_arena (snd (draw f (arena g))) g).

(** The getter [superhot]. *)
Definition superhot (g : Game) : bool :=
  (_counts_bots g =? 0)%Z && (countLiving (_groups_bots g) =? 0)%nat.

(** The getter [_hotswitchTimeout]. *)
Definition _hotswitchTimeout (g : Game) : Q :=
  if superhotswitch (_mutators g) then superhotswitchTimeout else hotswitchTimeout.

(** The getter [_spriteScale]. *)
Definition _spriteScale (g : Game) : Q :=
  if bighead (_mutators g) && chibi (_mutators g) then 1
  else if bighead (_mutators g) then bigheadScale
  else if chibi (_mutators g) then chibiScale
  else 1.

(** The number of bots of a level, as [init] computes it. *)
Definition level_bots (lvl : Z) : Z :=
  if ((lvl =? 9) || (lvl =? 19) || (lvl =? 29) || (lvl =? 39) || (lvl =? 49)
      || (lvl =? 74))%Z
  then (6 + lvl)%Z
  else if (lvl mod 10 =? 0)%Z then lvl
  else (5 + Qfloor (inject_Z lvl * (666 / 1000)))%Z.

(** [Supercold.Game.prototype.init] *)
Definition init (lvl : Z) (stored : Mutators) (g : Game) : Game :=
  let g := MkGame lvl stored (level_bots lvl) (_counts_bullets g) (_next_botTime g)
    (_next_hotSwitch g) (_elapsedTime g) (_hotswitching g) (_sprites_player g)
    (_groups_bots g) (arena g) (onChildInputDown g) (player_collides g)
    (hotswitch_tween g) (storage_level g) (calls g) in
  set__counts_bullets
    (if lmtdbull (_mutators g) then (_counts_bots g * 3)%Z else (-1)%Z) g.

(** [bulletHandler]: only the bullet the handler was registered for. *)
Definition bulletHandler (myBullet otherBullet : BulletRef) (g : Game) : Game :=
  set_arena (Bullet_kill myBullet (arena g)) g.

(** *** Hotswitch *)

Record Pointer := {
  leftButton_isDown : bool;
  leftButton_shiftKey : bool;
  rightButton_isDown : bool
}.

Definition bump_shake (c : Calls) : Calls :=
  {| superhot_calls := superhot_calls c; lose_calls := lose_calls c;
     swap_calls := swap_calls c; shake_calls := S (shake_calls c) |}.
Definition bump_swap (c : Calls) : Calls :=
  {| superhot_calls := superhot_calls c; lose_calls := lose_calls c;
     swap_calls := S (swap_calls c); shake_calls := shake_calls c |}.
Definition bump_lose (c : Calls) : Calls :=
  {| superhot_calls := superhot_calls c; lose_calls := S (lose_calls c);
     swap_calls := swap_calls c; shake_calls := shake_calls c |}.
Definition bump_superhot (c : Calls) : Calls :=
  {| superhot_calls := S (superhot_calls c); lose_calls := lose_calls c;
     swap_calls := swap_calls c; shake_calls := shake_calls c |}.

(** The listener [hotswitch] that [_addBotInputHandler] adds to
    [onChildInputDown]; [bot] is the index of the clicked child. *)
Definition hotswitch (bot : nat) (pointer : Pointer) (g : Game) : Game :=
  if negb ((leftButton_isDown pointer && leftButton_shiftKey pointer)
           || rightButton_isDown pointer)
  then g
  else if Qltb 0 (_next_hotSwitch g) then set_calls (bump_shake (calls g)) g
  else if _hotswitching g then g
  else set_hotswitch_tween (Some (FadeOut, bot)) (set__hotswitching true g).

(** The callback [swap], run when the fade-out completes. *)
Definition swap (bot : nat) (g : Game) : Game :=
  match _groups_bots g !! bot with
  | Some b =>
      let p := _sprites_player g in
      let pbody := body (player_sprite p) in
      let bbody := body (bot_sprite b) in
      let p' := set_player_sprite
                  (set_body (set_body_pos (body_x bbody) (body_y bbody) pbody)
                     (player_sprite p)) p in
      let b' := {| bot_sprite :=
                     set_body (set_body_pos (body_x pbody) (body_y pbody) bbody)
                       (bot_sprite b);
                   move := move b |} in
      set_hotswitch_tween (Some (FadeIn, bot))
        (set__next_hotSwitch (_hotswitchTimeout g)
           (set_calls (bump_swap (calls g))
              (set__groups_bots (<[bot := b']> (_groups_bots g))
                 (set__sprites_player p' g))))
  | None => g
  end.

(** The callback [endHotswitch], run when the fade-in completes. *)
Definition endHotswitch (g : Game) : Game :=
  set_hotswitch_tween None (set__hotswitching false g).

(** The [onComplete] signal of the bot's tween. *)
Definition tween_onComplete (g : Game) : Game :=
  match hotswitch_tween g with
  | Some (FadeOut, bot) => swap bot g
  | Some (FadeIn, _) => endHotswitch g
  | None => g
  end.

(** *** Losing and winning *)

Definition kill_player (g : Game) : Game :=
  set__sprites_player
    (set_player_sprite (set_alive false (player_sprite (_sprites_player g)))
       (_sprites_player g)) g.

(** [Supercold.Game.prototype._lose] *)
Definition _lose (bullet : BulletRef) (g : Game) : Game :=
  match get_bullets bullet.1 (arena g) !! bullet.2 with
  | None => g
  | Some b =>
      if negb (bullet_alive b) then g
      else
        let g := set_arena (Bullet_kill bullet (arena g)) g in
        if negb (alive (player_sprite (_sprites_player g))) then g
        else if secondchance (_mutators g)
        then set__mutators (set_secondchance false (_mutators g)) g
        else if superhot g || godmode (_mutators g) then g
        else
          let g := set_calls (bump_lose (calls g)) g in
          let g := set_onChildInputDown false g in
          let g := set_player_collides
                     (list_difference (player_collides g) [PlayerBullets; BotBullets]) g in
          kill_player g
  end.

(** [Supercold.Game.prototype._superhot] *)
Definition _superhot (g : Game) : Game :=
  let p := _sprites_player g in
  let g := set__sprites_player
             (set_player_sprite (setZeroVelocity (player_sprite p)) p) g in
  let g := set_storage_level (level g + 1)%Z g in
  set_calls (bump_superhot (calls g)) g.

Definition kill_bot (i : nat) (g : Game) : Game :=
  set__groups_bots
    (alter (fun b => {| bot_sprite := set_alive false (bot_sprite b); move := move b |})
       i (_groups_bots g)) g.

(** [Supercold.Game.prototype._botKillHandler] *)
Definition _botKillHandler (bot : nat) (bullet : BulletRef) (g : Game) : Game :=
  match _groups_bots g !! bot with
  | None => g
  | Some b =>
      if negb (alive (bot_sprite b)) then g
      else
        let g := kill_bot bot g in
        let g := set_arena (Bullet_kill bullet (arena g)) g in
        if superhot g then _superhot g else g
  end.

(** *** Spawning *)

(** [Supercold.Game.prototype._createBotWeapons] *)
Definition _createBotWeapons : Weapons :=
  {| pistol := new_Weapon Pistol 1; burst := new_Weapon Burst 1;
     burst3 := new_Weapon Burst3 1; blunderbuss := new_Weapon Blunderbuss 1;
     shotgun := new_Weapon Shotgun 1; dbshotgun := new_Weapon DbShotgun 1;
     rifle := new_Weapon Rifle 1 |}.

(** The guns kept by the storage manager. *)
Record Guns := {
  guns_pistol : bool;
  guns_burst : bool;
  guns_burst3 : bool;
  guns_blunderbuss : bool;
  guns_shotgun : bool;
  guns_dbshotgun : bool;
  guns_rifle : bool
}.

(** [Supercold.Game.prototype._createPlayerWeapon] *)
Definition _createPlayerWeapon (guns : Guns) (g : Game) : Weapon :=
  let factor := if fastgun (_mutators g) then fastFireFactor else 1 in
  if guns_rifle guns then new_Weapon Rifle factor
  else if guns_dbshotgun guns then new_Weapon DbShotgun factor
  else if guns_shotgun guns then new_Weapon Shotgun factor
  else if guns_blunderbuss guns then new_Weapon Blunderbuss factor
  else if guns_burst3 guns then new_Weapon Burst3 factor
  else if guns_burst guns then new_Weapon Burst factor
  else new_Weapon Pistol factor.

(** [Supercold.Game.prototype._assignBotWeapon]: the weapon chosen, after
    the draw that the method makes first. *)
Definition _assignBotWeapon (g : Game) : WeaponKind * Game :=
  let '(c, g) := draws frac g in
  let chance := c * Math_max (2 / 10) (1 - (inject_Z (level g) - 1) / 100) in
  let lvl := level g in
  ((if (lvl =? 9)%Z then Burst
    else if (lvl =? 19)%Z then Blunderbuss
    else if (lvl =? 29)%Z then Shotgun
    else if (lvl =? 39)%Z then Burst3
    else if (lvl =? 49)%Z then DbShotgun
    else if (lvl =? 74)%Z then Rifle
    else if Qltb chance (2 / 100) then Rifle
    else if Qltb chance (5 / 100) then DbShotgun
    else if Qltb chance (20 / 100) then Shotgun
    else if Qltb chance (25 / 100) then Blunderbuss
    else if Qltb chance (42 / 100) then Burst3
    else if Qltb chance (66 / 100) then Burst
    else Pistol), g).

(** [Supercold.Game.prototype._setBotMovement] *)
Definition _setBotMovement (g : Game) : Mover * Game :=
  let distance := 300 in
  let '(chance, g) := draws frac g in
  if (20 <=? level g)%Z then
    if Qltb chance (2 / 10) then
      let '(d, g) := draws (between distance (distance + 100)) g in
      let '(sg, g) := draws sign g in
      (StrafingMover d (sg * Math_PI / 2), g)
    else if Qltb chance (4 / 10) then
      let '(d, g) := draws (between distance (distance + 100)) g in
      let '(sg, g) := draws sign g in
      (StrafingDistantMover d (sg * Math_PI / 2), g)
    else if Qltb chance (7 / 10) then
      let '(d, g) := draws (between distance (distance + 100)) g in
      (DistantMover d, g)
    else (ForwardMover, g)
  else
    if Qltb chance (1 / 5) then
      let '(d, g) := draws (between distance (distance + 150)) g in
      let '(sg, g) := draws sign g in
      (StrafingDistantMover d (sg * Math_PI / 2), g)
    else if Qltb chance (3 / 5) then
      let '(d, g) := draws (between distance (distance + 150)) g in
      (DistantMover d, g)
    else (ForwardMover, g).

(** [bots.getFirstDead(CREATE_IF_NULL, x, y)]: a dead child is reset at the
    point, or a new bot is created there. *)
Definition getFirstDead (px py : Q) (g : Game) : nat * Game :=
  match list_find (fun b => alive (bot_sprite b) = false) (_groups_bots g) with
  | Some (i, b) => (i, set__groups_bots (<[i := Bot_reset px py b]> (_groups_bots g)) g)
  | None =>
      (length (_groups_bots g),
       set__groups_bots (_groups_bots g ++ [new_Bot px py (_spriteScale g)]) g)
  end.

(** [Supercold.Game.prototype._spawnBot] *)
Definition _spawnBot (closer : bool) (g : Game) : Game :=
  let player := player_sprite (_sprites_player g) in
  let radius0 := ((NATIVE_WIDTH + NATIVE_HEIGHT) / 2) / 2 in
  let radius1 := if closer then radius0 - (2 * player_radius) * 2 else radius0 in
  let '(angle, g) := draws (realInRange 0 (2 * Math_PI)) g in
  let px := x player + radius1 * Math_cos angle in
  let py := y player + radius1 * Math_sin angle in
  let px := if Qltb px 0 then Math_max px bounds_left else Math_min px bounds_right in
  let py := if Qltb py 0 then Math_max py bounds_top else Math_min py bounds_bottom in
  let g := set__counts_bots (_counts_bots g - 1)%Z g in
  let '(i, g) := getFirstDead px py g in
  let '(k, g) := _assignBotWeapon g in
  let '(m, g) := _setBotMovement g in
  set__groups_bots
    (alter (fun b => {| bot_sprite := set_weapon (Some (BotWeapon k)) (bot_sprite b);
                        move := m |}) i (_groups_bots g)) g.

(** The state object before [init] and [create]: the constructor's
    defaults, the generator and the stored level.  [Bullet.count] is a
    static counter; it starts from zero here. *)
Definition new_Game (r : R) (stored_level : Z) : Game :=
  {| level := -1; 
     _mutators := {| freelook := false; fasttime := false; freezetime := false;
                     fastgun := false; bighead := false; chibi := false;
                     dodge := false; lmtdbull := false; superhotswitch := false;
                     secondchance := false; godmode := false |};
     _counts_bots := -1; _counts_bullets := -1;
     _next_botTime := 0; _next_hotSwitch := 0;
     _elapsedTime := 0; _hotswitching := false;
     _sprites_player := new_Player 0 0;
     _groups_bots := [];
     arena := {| rnd := r; _groups_playerBullets := []; _groups_botBullets := [];
                 player_weapon := new_Weapon Pistol 1;
                 _weapons := _createBotWeapons;
                 _bulletTrailPainter := {| trails := []; _liveTrails := ∅ |};
                 Bullet_count := 0; thrown := false |};
     onChildInputDown := false; player_collides := [];
     hotswitch_tween := None; storage_level := stored_level;
     calls := {| superhot_calls := 0; lose_calls := 0; swap_calls := 0;
                 shake_calls := 0 |} |}.

(** [Supercold.Game.prototype.create], on the state that [init] left. *)
Definition create (guns : Guns) (g : Game) : Game :=
  let radius0 := player_radius * _spriteScale g in
  let g := set_arena
             (set__weapons _createBotWeapons
                (set__groups_botBullets []
                   (set__groups_playerBullets []
                      (set__bulletTrailPainter {| trails := []; _liveTrails := ∅ |}
                         (arena g))))) g in
  let '(sx, g) := draws sign g in
  let '(bx, g) := draws (between 0 (bounds_right - PADDING_width - radius0)) g in
  let '(sy, g) := draws sign g in
  let '(by_, g) := draws (between 0 (bounds_bottom - PADDING_height - radius0)) g in
  let p := new_Player (sx * bx) (sy * by_) in
  let g := set_arena (set_player_weapon (_createPlayerWeapon guns g) (arena g)) g in
  let g := set__sprites_player
             (set_player_sprite (set_weapon (Some PlayerWeapon) (player_sprite p)) p) g in
  let g := set_player_collides [PlayerBullets; BotBullets] g in
  let g := set_onChildInputDown true (set__groups_bots [] g) in
  let g := _spawnBot true g in
  let '(t, g) := draws (realInRange (5 / 100) (10 / 100)) g in
  let g := set__next_botTime t g in
  let g := set__next_hotSwitch (_hotswitchTimeout g) g in
  set_hotswitch_tween None (set__hotswitching false g).

(** *** One frame *)

(** [Supercold.Game.prototype._getSpeed] *)
Definition _getSpeed (g : Game) (playerAlive playerMoved playerRotated : bool)
    (speeds : Speeds) : Q :=
  if negb playerAlive then slow speeds
  else if playerMoved then normal speeds
  else if freezetime (_mutators g) then 0
  else if fasttime (_mutators g) then slow speeds
  else if playerRotated then slower speeds
  else slowest speeds.

(** [Supercold.Game.prototype._firePlayerBullet] *)
Definition _firePlayerBullet (g : Game) : bool * Game :=
  let player := _sprites_player g in
  if Qltb 0 (remainingTime (player_sprite player)) || (_counts_bullets g =? 0)%Z
  then (false, g)
  else
    let '(s, a) := LiveSprite_fire PlayerRef (player_sprite player) (arena g) in
    let g := set__sprites_player (set_player_sprite s player) (set_arena a g) in
    (true, set__counts_bullets (_counts_bullets g - 1)%Z g).

(** The vertical and horizontal vectors that [update] reads off the keys. *)
Definition verVec_y (inp : Input) : Q :=
  if up (wasd inp) || up (cursors inp) then 1
  else if down (wasd inp) || down (cursors inp) then - (1)
  else 0.

Definition horVec_x (inp : Input) : Q :=
  if left (wasd inp) || left (cursors inp) then - (1)
  else if right (wasd inp) || right (cursors inp) then 1
  else 0.

(** The spawn part of [update]. *)
Definition update_spawn (elapsedTime : Q) (g : Game) : Game :=
  if (0 <? _counts_bots g)%Z then
    let g := set__next_botTime (_next_botTime g - elapsedTime) g in
    if Qleb (_next_botTime g) 0 then
      let g := _spawnBot false g in
      let '(t, g) :=
        draws (realInRange
                (Math_max (12 / 10 - 10 / 1000 * inject_Z (level g)) (5 / 10))
                (Math_max (18 / 10 - 15 / 1000 * inject_Z (level g)) (5 / 10))) g in
      set__next_botTime t g
    else g
  else g.

(** The player's part of [update]: firing (first the controls are
    checked), dodging, advancing.  The result tells whether the player
    fired. *)
Definition update_fire (inp : Input) (g : Game) : bool * Game :=
  if (fireButton_isDown inp && negb (fireButton_shiftKey inp)) || fireKey_isDown inp
  then _firePlayerBullet g
  else (false, g).

Definition update_player (inp : Input) (playerMoved : bool) (elapsedTime : Q)
    (g : Game) : bool * Game :=
  if alive (player_sprite (_sprites_player g)) then
    let '(playerFired, g) := update_fire inp g in
    let newDirection := Math_atan2 (0 - verVec_y inp) (horVec_x inp - 0) in
    let p := _sprites_player g in
    let p := if playerMoved && dodge (_mutators g) && dodgeKey_isDown inp
             then Player_dodge newDirection p else p in
    (playerFired, set__sprites_player (Player_advance playerMoved newDirection elapsedTime p) g)
  else (false, g).

(** What [update] computes before it touches any timer. *)
Definition playerMoved_of (inp : Input) (g : Game) : bool :=
  (negb (Qeqb (verVec_y inp) 0) || negb (Qeqb (horVec_x inp) 0))
  || dodging (player_sprite (_sprites_player g)).

Definition playerRotated_of (inp : Input) (g : Game) : bool :=
  fst (Player_rotate inp (_sprites_player g)) && negb (freelook (_mutators g)).

Definition bulletSpeed_of (inp : Input) (g : Game) : Q :=
  _getSpeed g (alive (player_sprite (_sprites_player g)))
    (playerMoved_of inp g) (playerRotated_of inp g) speeds_bullet.

Definition botSpeed_of (inp : Input) (g : Game) : Q :=
  _getSpeed g (alive (player_sprite (_sprites_player g)))
    (playerMoved_of inp g) (playerRotated_of inp g) speeds_bot.

Definition elapsedTime_of (inp : Input) (g : Game) : Q :=
  physicsElapsed inp * (bulletSpeed_of inp g / normal speeds_bullet).

(** [Supercold.Game.prototype.update] *)
Definition update (inp : Input) (g : Game) : Game :=
  if superhot g then g
  else
    let playerMoved := playerMoved_of inp g in
    let bulletSpeed := bulletSpeed_of inp g in
    let botSpeed := botSpeed_of inp g in
    let elapsedTime := elapsedTime_of inp g in
    let g := set__sprites_player (snd (Player_rotate inp (_sprites_player g))) g in
    let g := set__elapsedTime elapsedTime g in
    let '(playerFired, g) := update_player inp playerMoved elapsedTime g in
    let g := if negb (_hotswitching g)
             then set__next_hotSwitch (_next_hotSwitch g - elapsedTime) g else g in
    let g := update_spawn elapsedTime g in
    let g := BotGroup_advance inp elapsedTime botSpeed (level g) playerFired g in
    let a := arena g in
    let a := set__groups_playerBullets
               (BulletGroup_advance bulletSpeed (_groups_playerBullets a)) a in
    set_arena
      (set__groups_botBullets (BulletGroup_advance bulletSpeed (_groups_botBullets a)) a)
      g.


(** ** What happens to a level *)

(** The bodies that take part in contacts. *)
Inductive BodyRef :=
| PlayerBody
| BotBody (i : nat)
| BulletBody (b : BulletRef).

(** The callback that body [a] has registered, with [body.collides], for
    the collision group of body [b]: [_lose] on the player for the bullet
    groups (until [removeCollisionGroup]), [_botKillHandler] on every bot
    for the bullet groups, [bulletHandler] on every bullet for the bullet
    groups. *)
Definition groupCallback (a b : BodyRef) (g : Game) : Game :=
  match a, b with
  | PlayerBody, BulletBody bullet =>
      if bool_decide (bullet.1 ∈ player_collides g) then _lose bullet g else g
  | BotBody i, BulletBody bullet => _botKillHandler i bullet g
  | BulletBody mine, BulletBody other => bulletHandler mine other g
  | _, _ => g
  end.

(** A contact reported by the physics step: each of the two bodies has
    its callback run, as the comment in [bulletHandler] expects ("the
    other bullet will be killed by the other handler call"). *)
Definition impact (a b : BodyRef) (g : Game) : Game :=
  groupCallback b a (groupCallback a b g).

(** [Bullet.prototype.preUpdate], when the bullet has left the world. *)
Definition Bullet_preUpdate_outside (bullet : BulletRef) (g : Arena) : Arena :=
  match get_bullets bullet.1 g !! bullet.2 with
  | Some b => if bullet_alive b then Bullet_kill bullet g else g
  | None => g
  end.

(** The physics step moving a body to a new place. *)
Definition moved (who : BodyRef) (px py : Q) (g : Game) : Game :=
  let place s := set_body (set_body_pos px py (body s)) (set_xy px py s) in
  match who with
  | PlayerBody =>
      set__sprites_player
        (set_player_sprite (place (player_sprite (_sprites_player g)))
           (_sprites_player g)) g
  | BotBody i =>
      set__groups_bots
        (alter (fun b => {| bot_sprite := place (bot_sprite b); move := move b |})
           i (_groups_bots g)) g
  | BulletBody bullet =>
      set_arena
        (set_bullets bullet.1
           (alter (set_bullet_pos px py) bullet.2 (get_bullets bullet.1 (arena g)))
           (arena g)) g
  end.

(** The listeners of [bots.onChildInputDown], for a click on child [bot]. *)
Definition onChildInputDown_dispatch (bot : nat) (pointer : Pointer) (g : Game) : Game :=
  if onChildInputDown g then
    match _groups_bots g !! bot with
    | Some _ => hotswitch bot pointer g
    | None => g
    end
  else g.

(** Everything that can happen to a running level. *)
Inductive Event :=
| Tick (inp : Input)
| Impact (a b : BodyRef)
| InputDown (bot : nat) (pointer : Pointer)
| TweenComplete
| LeftWorld (bullet : BulletRef)
| Moved (who : BodyRef) (px py : Q).

Definition step (g : Game) (ev : Event) : Game :=
  match ev with
  | Tick inp => update inp g
  | Impact a b => impact a b g
  | InputDown bot pointer => onChildInputDown_dispatch bot pointer g
  | TweenComplete => tween_onComplete g
  | LeftWorld bullet => set_arena (Bullet_preUpdate_outside bullet (arena g)) g
  | Moved who px py => moved who px py g
  end.

Definition run (evs : list Event) (g : Game) : Game := fold_left step evs g.

(** A level from its start: the state is constructed, [init] and
    [create] run. *)
Definition start (r : R) (stored_level lvl : Z) (stored : Mutators) (guns : Guns)
  : Game :=
  create guns (init lvl stored (new_Game r stored_level)).

End Simulation.

(** ** Views of the state used by the properties *)

Section Views.

Context {R : Type} `{RandomDataGenerator R} `{Trigonometry}.

(** The weapon objects, the generator and the error flag: the part of the
    arena that the bullet groups and the painter never touch. *)
Definition kit (a : @Arena R) : R * Weapon * Weapons * bool :=
  (rnd a, player_weapon a, _weapons a, thrown a).

(** What no weapon changes on the sprite that fires it. *)
Definition gear (s : LiveSprite)
  : bool * option WeaponRef * Q * bool * Q * Q * Q * Body :=
  (alive s, weapon s, radius s, dodging s, _direction s, _duration s,
   remainingTime s, body s).

(** The same without the cooldown and the body, which [LiveSprite.fire]
    and [Bot.fire] write. *)
Definition stance (s : LiveSprite) : bool * option WeaponRef * Q * bool * Q * Q :=
  (alive s, weapon s, radius s, dodging s, _direction s, _duration s).

(** What moving and dodging leave alone on a sprite. *)
Definition vitals (s : LiveSprite) : bool * option WeaponRef * Q * Q :=
  (alive s, weapon s, radius s, remainingTime s).

(** The arena without the generator. *)
Definition munitions (a : @Arena R)
  : list Bullet * list Bullet * Weapon * Weapons * BulletTrailPainter * nat * bool :=
  (_groups_playerBullets a, _groups_botBullets a, player_weapon a, _weapons a,
   _bulletTrailPainter a, Bullet_count a, thrown a).

(** Firing the weapon [n] times in a row. *)
Fixpoint fire_times (n : nat) (w : WeaponRef) (e : EntityRef) (s : LiveSprite)
    (a : Arena) : LiveSprite * Arena :=
  match n with
  | O => (s, a)
  | S n' => let '(s1, a1) := fire_times n' w e s a in Weapon_fire w e s1 a1
  end.

(** What the parts of [update] keep: the player's part, the spawn, the
    bots' turn, and [update] as a whole. *)
Definition beside_player (g : @Game R) :=
  (level g, _mutators g, _counts_bots g, _next_botTime g, _next_hotSwitch g,
   _elapsedTime g, _hotswitching g, _groups_bots g, onChildInputDown g,
   player_collides g, hotswitch_tween g, storage_level g, calls g).

Definition beside_spawn (g : @Game R) :=
  (level g, _mutators g, _counts_bullets g, _next_hotSwitch g, _elapsedTime g,
   _hotswitching g, _sprites_player g, onChildInputDown g, player_collides g,
   hotswitch_tween g, storage_level g, calls g).

Definition beside_bots (g : @Game R) :=
  (level g, _mutators g, _counts_bots g, _counts_bullets g, _next_botTime g,
   _next_hotSwitch g, _elapsedTime g, _hotswitching g, _sprites_player g,
   onChildInputDown g, player_collides g, hotswitch_tween g, storage_level g,
   calls g).

Definition settings (g : @Game R) :=
  (level g, _mutators g, _hotswitching g, onChildInputDown g, player_collides g,
   hotswitch_tween g, storage_level g, calls g).

(** The state in [update] once the player has turned and the elapsed
    time is stored. *)
Definition update_turned (inp : Input) (g : @Game R) : Game :=
  set__elapsedTime (elapsedTime_of inp g)
    (set__sprites_player (snd (Player_rotate inp (_sprites_player g))) g).

(** Whether the player fires in the frame ([playerFired] in [update]). *)
Definition playerFired_of (inp : Input) (g : @Game R) : bool :=
  negb (superhot g)
  && fst (update_player inp (playerMoved_of inp g) (elapsedTime_of inp g)
            (update_turned inp g)).

(** No bot holds the player's weapon. *)
Definition bot_armed (b : Bot) : Prop :=
  weapon (bot_sprite b) <> Some PlayerWeapon.

(** What the win condition and the win sequence depend on. *)
Definition standing (g : @Game R) : Z * nat * nat :=
  (_counts_bots g, countLiving (_groups_bots g), superhot_calls (calls g)).

(** The win sequence has run once if the level is won and not at all
    otherwise; the number of bots left to spawn is not negative. *)
Definition won_once (g : @Game R) : Prop :=
  (0 <= _counts_bots g)%Z
  /\ superhot_calls (calls g) = if superhot g then 1%nat else 0%nat.

(** The state of the hotswitch animation and the number of swaps made. *)
Definition switching (g : @Game R) : bool * option (TweenStage * nat) * nat :=
  (_hotswitching g, hotswitch_tween g, swap_calls (calls g)).

(** Every event but the completion of the hotswitch tween. *)
Definition quiet (ev : Event) : bool :=
  match ev with
  | TweenComplete => false
  | _ => true
  end.

(** The controls that ask for a hotswitch. *)
Definition asks_hotswitch (pointer : Pointer) : bool :=
  (leftButton_isDown pointer && leftButton_shiftKey pointer)
  || rightButton_isDown pointer.

(** A living bullet of the player's group is owned by the player, one of
    the bots' group by one of the first [n] bots. *)
Definition owned (n : nat) (grp : BulletGroupRef) (b : Bullet) : Prop :=
  bullet_alive b = true ->
  match grp with
  | PlayerBullets => owner b = Some PlayerRef
  | BotBullets => exists i, (i < n)%nat /\ owner b = Some (BotRef i)
  end.

Definition owners_valid (n : nat) (a : @Arena R) : Prop :=
  forall grp, Forall (owned n grp) (get_bullets grp a).

(** The entities whose bullets belong in a group. *)
Definition may_fire (n : nat) (grp : BulletGroupRef) (e : EntityRef) : Prop :=
  match grp, e with
  | PlayerBullets, PlayerRef => True
  | BotBullets, BotRef i => (i < n)%nat
  | _, _ => False
  end.

(** The living bullets have their owners, the player holds the player's
    weapon and no bot does. *)
Definition owners_kept (g : @Game R) : Prop :=
  owners_valid (length (_groups_bots g)) (arena g)
  /\ weapon (player_sprite (_sprites_player g)) = Some PlayerWeapon
  /\ Forall bot_armed (_groups_bots g).

(** The living bullets of [a0] are still in their places in [a], as they
    were. *)
Definition keeps (a0 a : @Arena R) : Prop :=
  forall grp i b,
    get_bullets grp a0 !! i = Some b -> bullet_alive b = true ->
    get_bullets grp a !! i = Some b.

Definition sound (n : nat) (a0 a : @Arena R) : Prop :=
  owners_valid n a /\ keeps a0 a.

Definition kept_from (a0 : @Arena R) (g : @Game R) : Prop :=
  owners_kept g /\ keeps a0 (arena g).

(** The bullets that live in [g] are in their places in [g'], dead or
    alive, with the owners they had. *)
Definition owners_stay (g g' : @Game R) : Prop :=
  forall grp i b,
    get_bullets grp (arena g) !! i = Some b -> bullet_alive b = true ->
    exists b', get_bullets grp (arena g') !! i = Some b' /\ owner b' = owner b.

(** The number of shots the player fires in a run. *)
Fixpoint shots (evs : list Event) (g : @Game R) : nat :=
  match evs with
  | [] => 0
  | ev :: rest =>
      (match ev with
       | Tick inp => if playerFired_of inp g then 1 else 0
       | _ => 0
       end + shots rest (step g ev))%nat
  end.

End Views.

(** ** The speed law, as the specification words it *)

Inductive Tier :=
| Frozen
| Slowest
| Slower
| Slow
| Normal.

Definition tier_speed (speeds : Speeds) (t : Tier) : Q :=
  match t with
  | Frozen => 0
  | Slowest => slowest speeds
  | Slower => slower speeds
  | Slow => slow speeds
  | Normal => normal speeds
  end.

(** The ordered rules: a condition and the tier it yields. *)
Definition speed_rules (player_alive player_moved player_rotated : bool)
    (modifiers : Mutators) : list (bool * Tier) :=
  [ (negb player_alive, Slow);
    (player_moved, Normal);
    (freezetime modifiers, Frozen);
    (fasttime modifiers, Slow);
    (player_rotated, Slower) ].

(** Top to bottom, the first rule whose condition holds wins; with none,
    the slowest tier. *)
Fixpoint first_match (rules : list (bool * Tier)) : Tier :=
  match rules with
  | [] => Slowest
  | (true, t) :: _ => t
  | (false, _) :: rest => first_match rest
  end.

Definition speed_factor (player_alive player_moved player_rotated : bool)
    (modifiers : Mutators) : Tier :=
  first_match (speed_rules player_alive player_moved player_rotated modifiers).

(** ** A scripted engine, for the examples *)

(** The generator is a counter: the [n]-th draw of [frac] is the last
    digit of [n] over ten, [between] and [sign] alternate between their
    two ends. *)
Definition scripted_frac (n : nat) : Q := Z.of_nat (n mod 10) # 10.

Definition scripted_rnd : RandomDataGenerator nat := {|
  frac n := (scripted_frac n, S n);
  realInRange lo hi n := (lo + scripted_frac n * (hi - lo), S n);
  between lo hi n := (if Nat.even n then lo else hi, S n);
  sign n := (if Nat.even n then 1 else - (1), S n)
|}.

(** Stand-ins for the trigonometry: every angle points along the x axis
    and distances are taken as given. *)
Definition flat_trig : Trigonometry := {|
  Math_cos _ := 1;
  Math_sin _ := 0;
  Math_atan2 _ _ := 0;
  Math_sqrt d := d;
  reverseAngle a := a + Math_PI;
  normalizeAngle a := a
|}.

(** ** A level played through, for the examples *)

Section Played.

#[local] Existing Instances scripted_rnd flat_trig.

Definition mutators_off : Mutators :=
  {| freelook := false; fasttime := false; freezetime := false;
     fastgun := false; bighead := false; chibi := false; dodge := false;
     lmtdbull := false; superhotswitch := false; secondchance := false;
     godmode := false |}.

Definition only_pistol : Guns :=
  {| guns_pistol := true; guns_burst := false; guns_burst3 := false;
     guns_blunderbuss := false; guns_shotgun := false; guns_dbshotgun := false;
     guns_rifle := false |}.

(** Level 1 (five bots), as it starts from generator state 0. *)
Definition level1 : @Game nat := start 0%nat 1 1 mutators_off only_pistol.

Definition no_keys : Keys :=
  {| up := false; down := false; left := false; right := false |}.

Definition key_right : Keys :=
  {| up := false; down := false; left := false; right := true |}.

(** A frame of two seconds in which the player runs to the right with the
    fire key down. *)
Definition run_and_fire : Input :=
  {| wasd := key_right; cursors := no_keys; fireKey_isDown := true;
     dodgeKey_isDown := false; fireButton_isDown := false;
     fireButton_shiftKey := false; pointer_worldX := 0; pointer_worldY := 0;
     physicsElapsed := 2; desiredFps := 60 |}.

(** A frame of a sixtieth of a second in which the player does nothing and
    the pointer stays where the player already looks. *)
Definition stand_still : Input :=
  {| wasd := no_keys; cursors := no_keys; fireKey_isDown := false;
     dodgeKey_isDown := false; fireButton_isDown := false;
     fireButton_shiftKey := false; pointer_worldX := 0; pointer_worldY := 0;
     physicsElapsed := 1 / 60; desiredFps := 60 |}.

(** The [k]-th bullet of the player hits the [k]-th bot. *)
Definition hit (k : nat) : Event :=
  Impact (BotBody k) (BulletBody (PlayerBullets, k)).

(** The player fires on every frame; the first bot has walked up to the
    player and fires too; the other four bots spawn one per frame; then
    five bullets of the player hit the five bots. *)
Definition level1_played : list Event :=
  [ Tick run_and_fire; Moved (BotBody 0) 1095 815;
    Tick run_and_fire; Tick run_and_fire; Tick run_and_fire; Tick run_and_fire;
    hit 0; hit 1; hit 2; hit 3; hit 4 ]%nat.

Definition level1_won : @Game nat := run level1_played level1.


(** The same level after its first six events: five living bots, the
    hotswitch is ready. *)
Definition level1_midway : @Game nat := run (take 6 level1_played) level1.

(** The second bot in that state, away from the player. *)
Definition level1_midway_bot : Bot :=
  Eval vm_compute in default (new_Bot 0 0 1) (_groups_bots level1_midway !! 1%nat).


Definition right_click : Pointer :=
  {| leftButton_isDown := false; leftButton_shiftKey := false;
     rightButton_isDown := true |}.

End Played.

(** What the generator's documentation promises about [sign]. *)
Class RandomSigns (R : Type) `{RandomDataGenerator R} := {
  sign_values : forall r, fst (sign r) = 1 \/ fst (sign r) = - (1)
}.

(** ** Shots and the operations on the arena *)

(** The bullets of a group that are alive ([countLiving]). *)
Definition living (l : list Bullet) : nat := length (List.filter bullet_alive l).

(** How many bullets each gun lets go when it fires. *)
Definition bullets_per_shot (k : WeaponKind) : nat :=
  match k with
  | Pistol => 1
  | Burst => 2
  | Burst3 => 3
  | Blunderbuss => 4
  | Shotgun => 3
  | DbShotgun => 5
  | Rifle => 1
  end.

Section Shots.

Context {R : Type} `{RandomDataGenerator R} `{Trigonometry}.

(** [n] bullets taken from the group one after the other with
    [getFirstExists] and fired by [e], with draws from the generator in
    between. *)
Inductive fires (grp : BulletGroupRef) (e : EntityRef)
  : nat -> @Arena R -> @Arena R -> Prop :=
| fires_none a : fires grp e 0 a a
| fires_draw n r a a' : fires grp e n a a' -> fires grp e n a (set_rnd r a')
| fires_shot n s rot a a' :
    fires grp e n a a' ->
    fires grp e (S n) a
      (Bullet_fire (grp, fst (getFirstExists grp a')) e s rot
         (snd (getFirstExists grp a')))
| fires_shot_drawn n s rot r a a' :
    fires grp e n a a' ->
    fires grp e (S n) a
      (Bullet_fire (grp, fst (getFirstExists grp a')) e s rot
         (set_rnd r (snd (getFirstExists grp a')))).





(** The dictionary of live trails knows exactly the living bullets: each
    has a live trail bound to it, and a name that is not the name of a
    living bullet has no entry. *)
Definition trails_follow (a : @Arena R) : Prop :=
  (forall grp i b,
     get_bullets grp a !! i = Some b -> bullet_alive b = true ->
     exists k t,
       _liveTrails (_bulletTrailPainter a) !! bullet_name b = Some k
       /\ trails (_bulletTrailPainter a) !! k = Some t
       /\ trail_alive t = true
       /\ trail_bullet t = Some (grp, i))
  /\ (forall n k,
        _liveTrails (_bulletTrailPainter a) !! n = Some k ->
        exists grp i b,
          get_bullets grp a !! i = Some b /\ bullet_alive b = true
          /\ bullet_name b = n).

(** The bot holds one of the bots' weapons. *)
Definition has_bot_weapon (b : Bot) : Prop :=
  exists k, weapon (bot_sprite b) = Some (BotWeapon k).

(** Nobody is without a weapon, and no call of [fire] has failed for the
    lack of one. *)
Definition all_armed (g : @Game R) : Prop :=
  thrown (arena g) = false
  /\ weapon (player_sprite (_sprites_player g)) = Some PlayerWeapon
  /\ Forall has_bot_weapon (_groups_bots g).

End Shots.

(** ** Helpers of the states *)

(** [even] *)
Definition even (n : Q) : Z :=
  let n := Qceiling n in (n + Z.rem n 2)%Z.

(** [v || d] on an argument that may be missing: zero counts as missing. *)
Definition or_default (v : option Q) (d : Q) : Q :=
  match v with
  | Some q => if Qeqb q 0 then d else q
  | None => d
  end.

Record Point := {
  point_x : Q;
  point_y : Q
}.

(** [Phaser.Point.setTo] with one argument. *)
Definition Point_setTo (v : Q) : Point := {| point_x := v; point_y := v |}.

(** [scaleToFill] and [scaleToFit]: the scale that is set. *)
Definition scaleToFill (width height : Q) (nativeWidth nativeHeight : option Q)
  : Point :=
  let nativeWidth := or_default nativeWidth NATIVE_WIDTH in
  let nativeHeight := or_default nativeHeight NATIVE_HEIGHT in
  Point_setTo (Math_max (width / nativeWidth) (height / nativeHeight)).

Definition scaleToFit (width height : Q) (nativeWidth nativeHeight : option Q)
  : Point :=
  let nativeWidth := or_default nativeWidth NATIVE_WIDTH in
  let nativeHeight := or_default nativeHeight NATIVE_HEIGHT in
  Point_setTo (Math_min (width / nativeWidth) (height / nativeHeight)).

(** [Supercold._ScalableState.prototype._setWorldScale]: the world scale
    that is set. *)
Definition _setWorldScale (width height : Q) : Point :=
  scaleToFill width height None None.

(** [bgOffset] *)
Definition bgOffset (playerDistance bgMaxDistance : Q) : Q :=
  CELLDIM * Math_min (Math_floor (bgMaxDistance / CELLDIM) - 1)
                     (Math_floor (playerDistance / CELLDIM)).

(** [Supercold.Game.prototype._scrollBackground]: the place that the
    background is given. *)
Definition _scrollBackground (player : LiveSprite) : Q * Q :=
  (if Qltb 0 (x player)
   then bgOffset (x player) (world_width / 2 - PADDING_width)
   else - bgOffset (- x player) (world_width / 2 - PADDING_width),
   if Qltb 0 (y player)
   then bgOffset (y player) (world_height / 2 - PADDING_height)
   else - bgOffset (- y player) (world_height / 2 - PADDING_height)).

(** ** The menu *)

(** A number as [Number] returns it. *)
Inductive JSNum :=
| NaN
| Num (q : Q).

(** [a <= b] on numbers: false when one of them is not a number. *)
Definition num_leb (a b : JSNum) : bool :=
  match a, b with
  | Num p, Num q => Qleb p q
  | _, _ => false
  end.

(** What [showUnlocked] leaves of the hint: hidden, or showing the text
    of [unlockLevels[i]] (nothing past the end of the array). *)
Inductive Hint :=
| HintHidden
| HintLevel (level : option Q).

(** The loop of [showUnlocked] from index [i]: the levels handed to
    [unlock], in order, and the index at which the loop stopped. *)
Fixpoint showUnlocked_loop (rest : list Q) (level : JSNum) (i : nat)
  : list Q * nat :=
  match rest with
  | [] => ([], i)
  | u :: rest' =>
      if num_leb (Num u) level
      then let '(done, j) := showUnlocked_loop rest' level (S i) in (u :: done, j)
      else ([], i)
  end.

(** [showUnlocked], given what [loadHighestLevel] returned. *)
Definition showUnlocked (unlockLevels : list Q) (level : JSNum) : list Q * Hint :=
  let '(done, i) := showUnlocked_loop unlockLevels level 0 in
  (done,
   if match last unlockLevels with
      | Some l => num_leb (Num l) level
      | None => false
      end
   then HintHidden
   else HintLevel (unlockLevels !! i)).

Definition showUnlockedMutators (level : JSNum) : list Q * Hint :=
  showUnlocked [20; 30; 40; 50; 70; 80; 90; 100; 128] level.

Definition showUnlockedGuns (level : JSNum) : list Q * Hint :=
  showUnlocked [10; 20; 30; 40; 50; 75] level.

(** The property of the guns object that an input of the menu names. *)
Definition get_gun (id : WeaponKind) (guns : Guns) : bool :=
  match id with
  | Pistol => guns_pistol guns
  | Burst => guns_burst guns
  | Burst3 => guns_burst3 guns
  | Blunderbuss => guns_blunderbuss guns
  | Shotgun => guns_shotgun guns
  | DbShotgun => guns_dbshotgun guns
  | Rifle => guns_rifle guns
  end.

Definition set_gun (id : WeaponKind) (v : bool) (guns : Guns) : Guns :=
  {| guns_pistol := if id is Pistol then v else guns_pistol guns;
     guns_burst := if id is Burst then v else guns_burst guns;
     guns_burst3 := if id is Burst3 then v else guns_burst3 guns;
     guns_blunderbuss := if id is Blunderbuss then v else guns_blunderbuss guns;
     guns_shotgun := if id is Shotgun then v else guns_shotgun guns;
     guns_dbshotgun := if id is DbShotgun then v else guns_dbshotgun guns;
     guns_rifle := if id is Rifle then v else guns_rifle guns |}.

(** The default guns that [Supercold.play] saves. *)
Definition default_guns : Guns :=
  {| guns_pistol := true; guns_burst := false; guns_burst3 := false;
     guns_blunderbuss := false; guns_shotgun := false; guns_dbshotgun := false;
     guns_rifle := false |}.

(** The [change] listener of the guns' inputs, on the stored guns and the
    variable [previous]: [id] and [checked] are those of the input. *)
Definition gun_change (id : WeaponKind) (checked : bool) (st : Guns * WeaponKind)
  : Guns * WeaponKind :=
  let '(guns, previous) := st in
  let guns := set_gun previous false guns in
  let guns := set_gun id checked guns in
  (guns, id).

(** The player chooses the guns [ids], one after the other: each time
    the listener runs on the input that has just been checked. *)
Definition choose_guns (ids : list WeaponKind) (st : Guns * WeaponKind)
  : Guns * WeaponKind :=
  fold_left (fun st id => gun_change id true st) ids st.

(** ** The storage manager *)

(** A [Storage] object: strings under string keys. *)
Abbreviation Storage := (gmap string string).

Definition STORAGE_VERSION : string := "1.0.1".
Definition PREFIX : string := "supercold_".
Definition Keys_VERSION : string := PREFIX +:+ "version".
Definition Keys_HIGHEST_LEVEL : string := PREFIX +:+ "highest_level".
Definition Keys_LEVEL : string := PREFIX +:+ "level".
Definition Keys_TIMES : string := PREFIX +:+ "times".
Definition MSGS_NAN : string := "Argument cannot be interpreted as a number".
Definition MSGS_NEG : string := "Negative argument".

(** [Number] on strings and [String] on numbers, as parameters; what is
    asked of them is that an integer written out reads back as itself. *)
Class NumberStrings := {
  Number_of_string : string -> JSNum;
  String_of_number : Q -> string;
  Number_String : forall z : Z,
    Number_of_string (String_of_number (inject_Z z)) = Num (inject_Z z)
}.

(** The values that pass through the manager: [null], numbers, strings. *)
Inductive JSVal :=
| VNull
| VNum (n : JSNum)
| VStr (s : string).

(** The exceptions [saveLevel] throws. *)
Inductive Thrown :=
| TypeError (message : string)
| RangeError (message : string).

(** [window.localStorage] and the storage that the manager may be given
    in its place. *)
Record Stores := {
  window_localStorage : Storage;
  given_localStorage : Storage
}.

(** [this.localStorage]: the storage given, or [window.localStorage]
    when none is. *)
Inductive StorageRef :=
| TheWindow
| Given.

(** [a < b] on numbers: false when one of them is not a number. *)
Definition num_ltb (a b : JSNum) : bool :=
  match a, b with
  | Num p, Num q => Qltb p q
  | _, _ => false
  end.

Section StorageManager.

Context `{NumberStrings}.

(** [Number(v)], [String(v)], the truth of [v] and [a || b]. *)
Definition Number (v : JSVal) : JSNum :=
  match v with
  | VNull => Num 0
  | VNum n => n
  | VStr s => Number_of_string s
  end.

Definition ToString (v : JSVal) : string :=
  match v with
  | VNull => "null"
  | VNum NaN => "NaN"
  | VNum (Num q) => String_of_number q
  | VStr s => s
  end.

Definition truthy (v : JSVal) : bool :=
  match v with
  | VNull => false
  | VNum NaN => false
  | VNum (Num q) => negb (Qeqb q 0)
  | VStr s => negb (String.eqb s EmptyString)
  end.

Definition or_else (a b : JSVal) : JSVal := if truthy a then a else b.

(** [v !== s] for a string [s]. *)
Definition differs_from (v : JSVal) (s : string) : bool :=
  match v with
  | VStr t => negb (String.eqb t s)
  | _ => true
  end.

(** [getItem], [setItem] and [removeItem] of a [Storage]. *)
Definition getItem (key : string) (s : Storage) : JSVal :=
  match s !! key with
  | Some v => VStr v
  | None => VNull
  end.

Definition setItem (key : string) (value : JSVal) (s : Storage) : Storage :=
  <[key := ToString value]> s.

Definition removeItem (key : string) (s : Storage) : Storage := delete key s.

Definition get_storage (this : StorageRef) (st : Stores) : Storage :=
  match this with
  | TheWindow => window_localStorage st
  | Given => given_localStorage st
  end.

Definition set_storage (this : StorageRef) (s : Storage) (st : Stores) : Stores :=
  match this with
  | TheWindow => {| window_localStorage := s;
                    given_localStorage := given_localStorage st |}
  | Given => {| window_localStorage := window_localStorage st;
                given_localStorage := s |}
  end.

(** [GameStorageManager.prototype.clear]: the keys of
    [window.localStorage] that start with the prefix are collected, then
    removed. *)
Definition GameStorageManager_clear (st : Stores) : Stores :=
  let localStorage := window_localStorage st in
  let keys := List.filter (String.prefix PREFIX) (map_to_list localStorage).*1 in
  set_storage TheWindow (foldl (fun s key => removeItem key s) localStorage keys) st.

(** [GameStorageManager.prototype.save] and [load] *)
Definition GameStorageManager_save (this : StorageRef) (key : string) (value : JSVal)
    (st : Stores) : Stores :=
  set_storage this (setItem key value (get_storage this st)) st.

Definition GameStorageManager_load (this : StorageRef) (key : string) (st : Stores)
  : JSVal :=
  getItem key (get_storage this st).

Definition loadHighestLevel (this : StorageRef) (st : Stores) : JSNum :=
  Number (GameStorageManager_load this Keys_HIGHEST_LEVEL st).

(** [GameStorageManager.prototype.saveLevel]: what is thrown, if
    anything, and the storage. *)
Definition saveLevel (this : StorageRef) (level : JSVal) (st : Stores)
  : option Thrown * Stores :=
  match Number level with
  | NaN => (Some (TypeError MSGS_NAN), st)
  | Num level =>
      if Qltb level 0 then (Some (RangeError MSGS_NEG), st)
      else
        let st := GameStorageManager_save this Keys_LEVEL (VNum (Num level)) st in
        if num_ltb (Number (GameStorageManager_load this Keys_HIGHEST_LEVEL st))
             (Num level)
        then (None, GameStorageManager_save this Keys_HIGHEST_LEVEL (VNum (Num level)) st)
        else (None, st)
  end.

Definition loadLevel (this : StorageRef) (st : Stores) : JSNum :=
  Number (GameStorageManager_load this Keys_LEVEL st).

Definition saveTimes (this : StorageRef) (times : JSVal) (st : Stores) : Stores :=
  GameStorageManager_save this Keys_TIMES times st.

Definition loadTimes (this : StorageRef) (st : Stores) : JSNum :=
  Number (GameStorageManager_load this Keys_TIMES st).

(** The constructor [GameStorageManager]. *)
Definition GameStorageManager (this : StorageRef) (st : Stores)
  : option Thrown * Stores :=
  let st :=
    if differs_from (GameStorageManager_load this Keys_VERSION st) STORAGE_VERSION
    then GameStorageManager_save this Keys_VERSION (VStr STORAGE_VERSION)
           (GameStorageManager_clear st)
    else st in
  let '(thrown, st) :=
    saveLevel this
      (or_else (GameStorageManager_load this Keys_LEVEL st) (VNum (Num 1))) st in
  match thrown with
  | Some e => (Some e, st)
  | None =>
      let st := saveTimes this
                  (or_else (GameStorageManager_load this Keys_TIMES st) (VNum (Num 0)))
                  st in
      (None,
       GameStorageManager_save this Keys_HIGHEST_LEVEL
         (or_else (GameStorageManager_load this Keys_HIGHEST_LEVEL st)
            (GameStorageManager_load this Keys_LEVEL st)) st)
  end.

End StorageManager.

(** Numbers written out in decimal, for the examples: whole numbers only
    (another number is written as the whole number below it), and a string
    that is not a whole number in decimal does not read as a number. *)
Definition decimal_Number (s : string) : JSNum :=
  match NilZero.int_of_string s with
  | Some d => Num (inject_Z (Z.of_int d))
  | None => NaN
  end.

Definition decimal_String (q : Q) : string :=
  NilZero.string_of_int (Z.to_int (Qfloor q)).

(** The first bullet of the player after the first frame of level 1, in
    which the player runs and fires; it is alive. *)
Definition level1_first_bullet : Bullet :=
  Eval vm_compute in
    default (new_Bullet 0)
      (_groups_playerBullets
         (arena (@update nat scripted_rnd flat_trig run_and_fire level1)) !! 0%nat).

(** The stores of the examples. *)
Definition no_stores : Stores :=
  {| window_localStorage := ∅; given_localStorage := ∅ |}.

Definition old_stores : Stores :=
  {| window_localStorage :=
       <[Keys_VERSION := "0.9.0"]> (<[PREFIX +:+ "guns" := "{}"]> ∅);
     given_localStorage := ∅ |}.

Definition bad_stores : Stores :=
  {| window_localStorage :=
       <[Keys_VERSION := STORAGE_VERSION]> (<[Keys_LEVEL := "seven"]> ∅);
     given_localStorage := ∅ |}.

(** * Properties *)

(** ** Comparisons *)

Lemma Qleb_spec a b : Qleb a b = true <-> a <= b.
Proof. apply Qle_bool_iff. Qed.

Lemma Qltb_spec a b : Qltb a b = true <-> a < b.
Proof.
  unfold Qltb. rewrite negb_true_iff.
  split; intros E.
  - apply Qnot_le_lt. intros L. apply Qle_bool_iff in L. congruence.
  - destruct (Qle_bool b a) eqn:L; [|reflexivity].
    apply Qle_bool_iff in L. exfalso. apply (Qlt_not_le _ _ E L).
Qed.

Lemma Qltb_false a b : Qltb a b = false <-> b <= a.
Proof.
  unfold Qltb. rewrite negb_false_iff. apply Qle_bool_iff.
Qed.

Lemma Qleb_false a b : Qleb a b = false <-> b < a.
Proof.
  rewrite <- Qltb_spec. unfold Qltb, Qleb.
  destruct (Qle_bool a b); simpl; split; congruence.
Qed.

Lemma Math_max_spec a b :
  a <= Math_max a b /\ b <= Math_max a b
  /\ (Math_max a b = a \/ Math_max a b = b).
Proof.
  unfold Math_max. destruct (Qltb a b) eqn:L.
  - apply Qltb_spec in L. repeat split; try lra. now right.
  - apply Qltb_false in L. repeat split; try lra. now left.
Qed.

Lemma Math_min_spec a b :
  Math_min a b <= a /\ Math_min a b <= b
  /\ (Math_min a b = a \/ Math_min a b = b).
Proof.
  unfold Math_min. destruct (Qltb b a) eqn:L.
  - apply Qltb_spec in L. repeat split; try lra. now right.
  - apply Qltb_false in L. repeat split; try lra. now left.
Qed.


Section Properties.

Context {R : Type} `{RandomDataGenerator R} `{Trigonometry}.

(** ** The speed law *)

(** C1: [_getSpeed] returns the tier that the first matching rule of the
    ordered list names, whatever the state of the player and the mutators;
    a dead player gets the slow tier whatever the mutators are; and in
    [update] the bullets' speed and the bots' speed are the same tier, each
    read off its own scale. *)
Theorem speed_law_first_match :
  forall (g : @Game R) (playerAlive playerMoved playerRotated : bool) (inp : Input),
    (forall speeds,
        _getSpeed g playerAlive playerMoved playerRotated speeds
        = tier_speed speeds
            (speed_factor playerAlive playerMoved playerRotated (_mutators g)))
    /\ (forall speeds, _getSpeed g false playerMoved playerRotated speeds = slow speeds)
    /\ (exists t,
          bulletSpeed_of inp g = tier_speed speeds_bullet t
          /\ botSpeed_of inp g = tier_speed speeds_bot t).
Proof.
  intros g playerAlive playerMoved playerRotated inp.
  assert (E : forall a m r speeds,
             _getSpeed g a m r speeds
             = tier_speed speeds (speed_factor a m r (_mutators g))).
  { intros a m r speeds. unfold _getSpeed, speed_factor, speed_rules.
    destruct a, m, (freezetime (_mutators g)), (fasttime (_mutators g)), r;
      reflexivity. }
  split; [intros; apply E|]. split; [reflexivity|].
  eexists. unfold bulletSpeed_of, botSpeed_of. rewrite !E. split; reflexivity.
Qed.


(** ** What firing leaves alone *)

Lemma set_bullets_kit grp l (a : @Arena R) : kit (set_bullets grp l a) = kit a.
Proof. destruct grp; reflexivity. Qed.

Lemma get_set_bullets grp l (a : @Arena R) : get_bullets grp (set_bullets grp l a) = l.
Proof. destruct grp; reflexivity. Qed.

Lemma get_set_bullets_ne grp grp' l (a : @Arena R) :
  grp <> grp' -> get_bullets grp' (set_bullets grp l a) = get_bullets grp' a.
Proof. destruct grp, grp'; intros N; try reflexivity; congruence. Qed.

Lemma set_bullets_painter grp l (a : @Arena R) :
  _bulletTrailPainter (set_bullets grp l a) = _bulletTrailPainter a.
Proof. destruct grp; reflexivity. Qed.

Lemma Bullet_fire_kit ref e s rot (a : @Arena R) :
  kit (Bullet_fire ref e s rot a) = kit a.
Proof.
  unfold Bullet_fire. destruct (get_bullets ref.1 a !! ref.2); [|reflexivity].
  destruct ref as [[] i]; reflexivity.
Qed.

Lemma getFirstExists_kit grp (a : @Arena R) :
  kit (snd (getFirstExists grp a)) = kit a.
Proof.
  unfold getFirstExists.
  destruct (list_find _ _) as [[i b]|]; [reflexivity|].
  destruct grp; reflexivity.
Qed.

Lemma shoot_kit grp e s rot (a : @Arena R) : kit (shoot grp e s rot a) = kit a.
Proof.
  unfold shoot. pose proof (getFirstExists_kit grp a) as K.
  destruct (getFirstExists grp a) as [i a1]. simpl in K.
  now rewrite Bullet_fire_kit.
Qed.

Lemma Bullet_kill_kit ref (a : @Arena R) : kit (Bullet_kill ref a) = kit a.
Proof.
  unfold Bullet_kill. destruct (get_bullets ref.1 a !! ref.2); [|reflexivity].
  destruct ref as [[] i]; reflexivity.
Qed.

Lemma kit_weapon w (a a' : @Arena R) : kit a' = kit a -> get_weapon w a' = get_weapon w a.
Proof.
  unfold kit. intros E. injection E as _ E1 E2 _.
  destruct w; simpl; congruence.
Qed.

Lemma kit_rnd (a a' : @Arena R) : kit a' = kit a -> rnd a' = rnd a.
Proof. unfold kit. intros E. now injection E. Qed.

Lemma get_put_weapon w o (a : @Arena R) : get_weapon w (put_weapon w o a) = o.
Proof. destruct w as [|[]]; reflexivity. Qed.

Lemma draw_weapon w f (a : @Arena R) : get_weapon w (snd (draw f a)) = get_weapon w a.
Proof. destruct w; reflexivity. Qed.


(** ** The rifle's cadence *)

Lemma Rifle_fire_weapon w grp e s (a : @Arena R) :
  let this := get_weapon w a in
  let w' := get_weapon w (snd (Rifle_fire w grp e s a)) in
  kind w' = kind this /\ fireFactor w' = fireFactor this
  /\ ((0 < _bulletCount this - 1)%Z ->
      _bulletCount w' = (_bulletCount this - 1)%Z
      /\ exists r, fireRate w'
                   = Rifle_FIRE_RATE * fireFactor this
                     * fst (realInRange (9 / 10) (14 / 10) r))
  /\ ((_bulletCount this - 1 <= 0)%Z ->
      _bulletCount w' = Rifle_BULLET_COUNT
      /\ fireRate w' = Rifle_FIRE_RATE * fireFactor this * (35 / 10)).
Proof.
  intros this w'. subst w'. unfold Rifle_fire. cbn [draw].
  set (a1 := set_rnd _ a).
  set (a2 := shoot grp e _ _ a1).
  assert (E : get_weapon w a2 = this).
  { subst a2. rewrite (kit_weapon w _ _ (shoot_kit _ _ _ _ _)).
    subst a1. apply (draw_weapon w (between (- Rifle_OFFSET) Rifle_OFFSET) a). }
  rewrite E. cbn [_bulletCount set__bulletCount].
  destruct (0 <? _bulletCount this - 1)%Z eqn:C; cbn [snd fst];
    rewrite get_put_weapon; cbn.
  - apply Z.ltb_lt in C.
    split; [reflexivity|]. split; [reflexivity|]. split; intros Hc; [|lia].
    split; [reflexivity|]. eexists; reflexivity.
  - apply Z.ltb_ge in C.
    split; [reflexivity|]. split; [reflexivity|]. split; intros Hc; [lia|].
    split; reflexivity.
Qed.

Lemma fire_times_rifle w e s (a : @Arena R) (n : nat) :
  kind (get_weapon w a) = Rifle ->
  _bulletCount (get_weapon w a) = Rifle_BULLET_COUNT ->
  (n <= 9)%nat ->
  let wn := get_weapon w (snd (fire_times n w e s a)) in
  kind wn = Rifle /\ fireFactor wn = fireFactor (get_weapon w a)
  /\ _bulletCount wn = (Rifle_BULLET_COUNT - Z.of_nat n)%Z
  /\ ((1 <= n)%nat ->
      exists r, fireRate wn
                = Rifle_FIRE_RATE * fireFactor (get_weapon w a)
                  * fst (realInRange (9 / 10) (14 / 10) r)).
Proof.
  intros K C. induction n as [|n IH]; intros L wn; subst wn.
  - cbn. repeat split; try assumption; lia.
  - cbn [fire_times].
    destruct (fire_times n w e s a) as [s1 a1] eqn:F.
    destruct IH as (K1 & F1 & C1 & _); [lia|]. cbn [snd] in K1, F1, C1.
    unfold Weapon_fire. rewrite K1.
    destruct (Rifle_fire_weapon w (weapon_bullets w) e s1 a1) as (K2 & F2 & Hgo & _).
    unfold Rifle_BULLET_COUNT in *.
    destruct Hgo as (C2 & r & V); [lia|].
    repeat split; try congruence; try lia.
    intros _. exists r. rewrite V. now rewrite F1.
Qed.

(** C6: a rifle whose shot counter stands at 10 is fired ten times in a
    row.  After each of the first nine shots its fire rate is the base rate
    (the rifle's rate times its fire factor) times a draw of
    [realInRange(0.9, 1.4)], which lies between 0.9 and 1.4, and the
    counter has gone down by one; the tenth shot sets the fire rate to the
    base rate times 3.5 and puts the counter back to 10. *)
Theorem rifle_cadence_cycle :
  forall `{!RandomRanges R} w e s (a : @Arena R),
    kind (get_weapon w a) = Rifle ->
    _bulletCount (get_weapon w a) = 10%Z ->
    let base := Rifle_FIRE_RATE * fireFactor (get_weapon w a) in
    (forall n, (1 <= n <= 9)%nat ->
       let wn := get_weapon w (snd (fire_times n w e s a)) in
       _bulletCount wn = (10 - Z.of_nat n)%Z
       /\ exists v r, v = fst (realInRange (9 / 10) (14 / 10) r)
                      /\ 9 / 10 <= v /\ v <= 14 / 10
                      /\ fireRate wn = base * v)
    /\ (let w10 := get_weapon w (snd (fire_times 10 w e s a)) in
        fireRate w10 = base * (35 / 10) /\ _bulletCount w10 = 10%Z).
Proof.
  intros RR w e s a K C base. split.
  - intros n [L1 L9] wn.
    destruct (fire_times_rifle w e s a n K C L9) as (_ & _ & Cn & V).
    split; [exact Cn|]. destruct (V L1) as [r E].
    exists (fst (realInRange (9 / 10) (14 / 10) r)), r.
    destruct (realInRange_range (9 / 10) (14 / 10) r) as [Lo Hi]; [vm_compute; discriminate|].
    repeat split; assumption.
  - intros w10. subst w10.
    change (fire_times 10 w e s a)
      with (let '(s1, a1) := fire_times 9 w e s a in Weapon_fire w e s1 a1).
    destruct (fire_times_rifle w e s a 9 K C (le_n 9)) as (K1 & F1 & C1 & _).
    destruct (fire_times 9 w e s a) as [s1 a1] eqn:F.
    cbn [snd] in K1, F1, C1.
    unfold Weapon_fire. rewrite K1.
    destruct (Rifle_fire_weapon w (weapon_bullets w) e s1 a1) as (_ & _ & _ & Hstop).
    unfold Rifle_BULLET_COUNT in *.
    destruct Hstop as (C2 & V); [lia|].
    split; [|exact C2]. rewrite V. subst base. now rewrite F1.
Qed.


(** ** Killing a bullet *)

Lemma get_bullets_set_painter grp p (a : @Arena R) :
  get_bullets grp (set__bulletTrailPainter p a) = get_bullets grp a.
Proof. destruct grp; reflexivity. Qed.

Lemma stopTrail_twice b b' p :
  bullet_name b' = bullet_name b -> stopTrail b' (stopTrail b p) = stopTrail b p.
Proof.
  intros N. unfold stopTrail.
  destruct (_liveTrails p !! bullet_name b) eqn:E.
  - cbn [_liveTrails]. rewrite N, lookup_delete_eq. reflexivity.
  - rewrite N, E. reflexivity.
Qed.

Lemma Bullet_kill_bullets grp i (a : @Arena R) :
  get_bullets grp (Bullet_kill (grp, i) a)
  = alter (set_bullet_alive false) i (get_bullets grp a).
Proof.
  unfold Bullet_kill. cbn [fst snd].
  destruct (get_bullets grp a !! i) as [b|] eqn:E.
  - rewrite get_bullets_set_painter, get_set_bullets.
    apply list_eq. intros j. rewrite list_lookup_alter, list_lookup_insert.
    destruct (decide (i = j)) as [<-|N].
    + rewrite E. rewrite decide_True; [reflexivity|].
      split; [reflexivity|]. eapply lookup_lt_Some, E.
    + rewrite decide_False; [reflexivity|]. intros [? _]. contradiction.
  - apply list_eq. intros j. rewrite list_lookup_alter.
    destruct (decide (i = j)) as [<-|N]; [now rewrite E|reflexivity].
Qed.

Lemma Bullet_kill_other_group grp grp' i (a : @Arena R) :
  grp <> grp' -> get_bullets grp' (Bullet_kill (grp, i) a) = get_bullets grp' a.
Proof.
  intros N. unfold Bullet_kill. cbn [fst snd].
  destruct (get_bullets grp a !! i); [|reflexivity].
  rewrite get_bullets_set_painter. now apply get_set_bullets_ne.
Qed.

Lemma insert_after_alter {A} (f : A -> A) (l : list A) i v :
  <[i := v]> (alter f i l) = <[i := v]> l.
Proof.
  apply list_eq. intros j.
  rewrite !list_lookup_insert, length_alter, list_lookup_alter.
  destruct (decide (i = j /\ (i < length l)%nat)) as [_|N]; [reflexivity|].
  destruct (decide (i = j)) as [<-|]; [|reflexivity].
  assert (E : l !! i = None) by (apply lookup_ge_None; lia).
  now rewrite E.
Qed.

Lemma Bullet_kill_twice ref (a : @Arena R) :
  Bullet_kill ref (Bullet_kill ref a) = Bullet_kill ref a.
Proof.
  destruct ref as [grp i].
  unfold Bullet_kill at 1. cbn [fst snd].
  rewrite Bullet_kill_bullets, list_lookup_alter_eq.
  unfold Bullet_kill. cbn [fst snd].
  destruct (get_bullets grp a !! i) as [b|] eqn:E; [|reflexivity].
  cbn [fmap option_fmap option_map].
  rewrite insert_after_alter.
  destruct grp; cbn; rewrite stopTrail_twice; reflexivity.
Qed.

(** Killing a bullet that is dead and has no live trail changes nothing. *)
Lemma Bullet_kill_dead ref (a : @Arena R) b :
  get_bullets ref.1 a !! ref.2 = Some b ->
  bullet_alive b = false ->
  _liveTrails (_bulletTrailPainter a) !! bullet_name b = None ->
  Bullet_kill ref a = a.
Proof.
  intros E D T. unfold Bullet_kill. rewrite E.
  assert (B : set_bullet_alive false b = b).
  { clear E T. destruct b. cbn in D. subst. reflexivity. }
  rewrite B, (list_insert_id _ _ _ E).
  unfold stopTrail. rewrite T.
  destruct ref as [[] i], a; reflexivity.
Qed.


(** ** The collision handlers, run twice *)

Lemma Bullet_kill_lookup ref (a : @Arena R) b :
  get_bullets ref.1 a !! ref.2 = Some b ->
  get_bullets ref.1 (Bullet_kill ref a) !! ref.2 = Some (set_bullet_alive false b).
Proof.
  destruct ref as [grp i]. cbn [fst snd]. intros E.
  now rewrite Bullet_kill_bullets, list_lookup_alter_eq, E.
Qed.

Lemma bulletHandler_twice mine other (g : @Game R) :
  bulletHandler mine other (bulletHandler mine other g) = bulletHandler mine other g.
Proof.
  unfold bulletHandler. cbn [arena set_arena]. now rewrite Bullet_kill_twice.
Qed.

Lemma _lose_dead_bullet bullet (g : @Game R) b :
  get_bullets bullet.1 (arena g) !! bullet.2 = Some b ->
  bullet_alive b = false ->
  _lose bullet g = g.
Proof. intros E D. unfold _lose. now rewrite E, D. Qed.

Lemma _lose_twice bullet (g : @Game R) :
  _lose bullet (_lose bullet g) = _lose bullet g.
Proof.
  unfold _lose at 2 3.
  destruct (get_bullets bullet.1 (arena g) !! bullet.2) as [b|] eqn:E.
  2: { unfold _lose. now rewrite E. }
  destruct (bullet_alive b) eqn:A; cbn [negb].
  2: { unfold _lose. now rewrite E, A. }
  set (g1 := set_arena (Bullet_kill bullet (arena g)) g).
  assert (D : forall X : @Game R, arena X = arena g1 -> _lose bullet X = X).
  { intros X EX. apply (_lose_dead_bullet bullet X (set_bullet_alive false b)).
    - rewrite EX. subst g1. cbn [arena set_arena]. now apply Bullet_kill_lookup.
    - reflexivity. }
  destruct (negb (alive (player_sprite (_sprites_player g1)))); [now apply D|].
  destruct (secondchance (_mutators g1)); [now apply D|].
  destruct (superhot g1 || godmode (_mutators g1)); now apply D.
Qed.

Lemma _botKillHandler_dead_bot bot bullet (g : @Game R) b :
  _groups_bots g !! bot = Some b ->
  alive (bot_sprite b) = false ->
  _botKillHandler bot bullet g = g.
Proof. intros E D. unfold _botKillHandler. now rewrite E, D. Qed.

Lemma _botKillHandler_twice bot bullet (g : @Game R) :
  _botKillHandler bot bullet (_botKillHandler bot bullet g)
  = _botKillHandler bot bullet g.
Proof.
  unfold _botKillHandler at 2 3.
  destruct (_groups_bots g !! bot) as [b|] eqn:E.
  2: { unfold _botKillHandler. now rewrite E. }
  destruct (alive (bot_sprite b)) eqn:A; cbn [negb].
  2: { unfold _botKillHandler. now rewrite E, A. }
  set (g2 := set_arena _ (kill_bot bot g)).
  assert (D : forall X : @Game R,
             _groups_bots X = _groups_bots g2 -> _botKillHandler bot bullet X = X).
  { intros X EX.
    apply (_botKillHandler_dead_bot bot bullet X
             {| bot_sprite := set_alive false (bot_sprite b); move := move b |}).
    - rewrite EX. subst g2. cbn [_groups_bots set_arena kill_bot set__groups_bots].
      now rewrite list_lookup_alter_eq, E.
    - reflexivity. }
  destruct (superhot g2); now apply D.
Qed.

(** C7: when a player's bullet and a bot's bullet touch, the contact runs
    [bulletHandler] once for each of them; one call kills only its own
    bullet, the two together leave both dead.  And every collision handler
    ([bulletHandler], [_botKillHandler], [_lose]) run a second time on the
    same bodies leaves the whole state, the counters of the win and lose
    sequences included, as the first run left it. *)
Theorem collision_handlers_idempotent :
  forall (g : @Game R) (i j bot : nat) (mine other bullet : BulletRef),
    (let g1 := bulletHandler (PlayerBullets, i) (BotBullets, j) g in
     let g2 := impact (BulletBody (PlayerBullets, i)) (BulletBody (BotBullets, j)) g in
     _groups_botBullets (arena g1) = _groups_botBullets (arena g)
     /\ _groups_playerBullets (arena g2)
        = alter (set_bullet_alive false) i (_groups_playerBullets (arena g))
     /\ _groups_botBullets (arena g2)
        = alter (set_bullet_alive false) j (_groups_botBullets (arena g))
     /\ (forall b, _groups_playerBullets (arena g2) !! i = Some b ->
                   bullet_alive b = false)
     /\ (forall b, _groups_botBullets (arena g2) !! j = Some b ->
                   bullet_alive b = false))
    /\ bulletHandler mine other (bulletHandler mine other g)
       = bulletHandler mine other g
    /\ _botKillHandler bot bullet (_botKillHandler bot bullet g)
       = _botKillHandler bot bullet g
    /\ _lose bullet (_lose bullet g) = _lose bullet g.
Proof.
  intros g i j bot mine other bullet.
  split; [|split; [apply bulletHandler_twice|
                   split; [apply _botKillHandler_twice|apply _lose_twice]]].
  cbn zeta.
  assert (P1 : _groups_botBullets
                 (arena (bulletHandler (PlayerBullets, i) (BotBullets, j) g))
               = _groups_botBullets (arena g)).
  { unfold bulletHandler. cbn [arena set_arena].
    apply (Bullet_kill_other_group PlayerBullets BotBullets). discriminate. }
  assert (P2 : _groups_playerBullets
                 (arena (impact (BulletBody (PlayerBullets, i))
                           (BulletBody (BotBullets, j)) g))
               = alter (set_bullet_alive false) i (_groups_playerBullets (arena g))).
  { unfold impact, groupCallback, bulletHandler. cbn [arena set_arena].
    etransitivity;
      [ exact (Bullet_kill_other_group BotBullets PlayerBullets j _
                 ltac:(discriminate))
      | exact (Bullet_kill_bullets PlayerBullets i _) ]. }
  assert (P3 : _groups_botBullets
                 (arena (impact (BulletBody (PlayerBullets, i))
                           (BulletBody (BotBullets, j)) g))
               = alter (set_bullet_alive false) j (_groups_botBullets (arena g))).
  { unfold impact, groupCallback, bulletHandler. cbn [arena set_arena].
    etransitivity; [exact (Bullet_kill_bullets BotBullets j _)|].
    f_equal.
    exact (Bullet_kill_other_group PlayerBullets BotBullets i _ ltac:(discriminate)). }
  repeat split; try assumption.
  - intros b. rewrite P2, list_lookup_alter_eq.
    destruct (_ !! i); cbn; intros E; inversion E; reflexivity.
  - intros b. rewrite P3, list_lookup_alter_eq.
    destruct (_ !! j); cbn; intros E; inversion E; reflexivity.
Qed.


(** ** A bullet reaches the player *)




(** ** What firing leaves alone on the sprite *)

Lemma gear_set_xy px py s : gear (set_xy px py s) = gear s.
Proof. reflexivity. Qed.

Lemma gear_stance s s' : gear s' = gear s -> stance s' = stance s.
Proof. unfold gear, stance. intros E. injection E. congruence. Qed.

Lemma Blunderbuss_loop_gear n : forall grp e rot ox oy factor s (a : @Arena R),
  gear (fst (Blunderbuss_loop n grp e rot ox oy factor s a)) = gear s.
Proof.
  induction n as [|n IH]; intros; [reflexivity|].
  cbn [Blunderbuss_loop].
  destruct (getFirstExists grp a) as [i a1]. cbn [draw].
  rewrite IH. reflexivity.
Qed.

Lemma DbShotgun_loop_gear steps : forall grp e x0 y0 rot ox oy s (a : @Arena R),
  gear (fst (DbShotgun_loop steps grp e x0 y0 rot ox oy s a)) = gear s.
Proof.
  induction steps as [|k steps IH]; intros; [reflexivity|].
  cbn [DbShotgun_loop].
  destruct (getFirstExists grp a) as [i a1]. cbn [draw].
  rewrite IH. reflexivity.
Qed.

Lemma Weapon_fire_gear w e s (a : @Arena R) :
  gear (fst (Weapon_fire w e s a)) = gear s.
Proof.
  unfold Weapon_fire. destruct (kind (get_weapon w a)).
  - reflexivity.
  - reflexivity.
  - reflexivity.
  - unfold Blunderbuss_fire.
    match goal with |- context [Blunderbuss_loop ?n ?g ?e ?r ?ox ?oy ?f ?s1 ?a1] =>
      pose proof (Blunderbuss_loop_gear n g e r ox oy f s1 a1) as G;
      destruct (Blunderbuss_loop n g e r ox oy f s1 a1) as [s2 a2] end.
    cbn [fst] in *. rewrite gear_set_xy, G. reflexivity.
  - unfold Shotgun_fire.
    repeat match goal with |- context [getFirstExists ?g ?a1] =>
      destruct (getFirstExists g a1) as [? ?]; cbn [draw] end.
    reflexivity.
  - unfold DbShotgun_fire.
    match goal with |- context [DbShotgun_loop ?st ?g ?e ?x0 ?y0 ?r ?ox ?oy ?s1 ?a1] =>
      pose proof (DbShotgun_loop_gear st g e x0 y0 r ox oy s1 a1) as G;
      destruct (DbShotgun_loop st g e x0 y0 r ox oy s1 a1) as [s2 a2] end.
    cbn [fst] in *. rewrite gear_set_xy, G. reflexivity.
  - unfold Rifle_fire. cbn [draw].
    match goal with |- context [if ?c then _ else _] => destruct c end; reflexivity.
Qed.

Lemma LiveSprite_fire_stance e s (a : @Arena R) :
  stance (fst (LiveSprite_fire e s a)) = stance s.
Proof.
  unfold LiveSprite_fire. destruct (weapon s) as [w|]; [|reflexivity].
  pose proof (Weapon_fire_gear w e s a) as G.
  destruct (Weapon_fire w e s a) as [s1 a1]. cbn [fst] in *.
  apply gear_stance in G. rewrite <- G. reflexivity.
Qed.

Lemma Bot_fire_stance i s (a : @Arena R) :
  stance (fst (Bot_fire i s a)) = stance s.
Proof.
  unfold Bot_fire. cbn [draw].
  match goal with |- context [LiveSprite_fire ?e ?s1 ?a1] =>
    pose proof (LiveSprite_fire_stance e s1 a1) as G;
    destruct (LiveSprite_fire e s1 a1) as [s2 a2] end.
  cbn [fst] in *. transitivity (stance s2); [reflexivity|].
  rewrite G. reflexivity.
Qed.

Lemma Bot__fire_stance i lvl s (a : @Arena R) :
  stance (fst (Bot__fire i lvl s a)) = stance s.
Proof.
  unfold Bot__fire. cbn [draw].
  match goal with |- context [if ?c then _ else _] => destruct c end.
  - destruct (weapon s); reflexivity.
  - apply Bot_fire_stance.
Qed.

(** ** A bot's turn *)

Lemma Mover_move_body m s speed player :
  exists bd, Mover_move m s speed player = set_body bd s.
Proof.
  destruct m; cbn [Mover_move]; unfold moveForward;
    repeat match goal with |- context [if ?c then _ else _] => destruct c end;
    eexists; reflexivity.
Qed.

Lemma Bot__dodge_vitals dur s (a : @Arena R) :
  vitals (fst (Bot__dodge dur s a)) = vitals s
  /\ munitions (snd (Bot__dodge dur s a)) = munitions a.
Proof. split; reflexivity. Qed.

Lemma Bot_steer_vitals inp e speed lvl player fired m s (a : @Arena R) :
  vitals (fst (Bot_steer inp e speed lvl player fired m s a)) = vitals s
  /\ munitions (snd (Bot_steer inp e speed lvl player fired m s a)) = munitions a
  /\ (dodging s = true ->
      _duration (fst (Bot_steer inp e speed lvl player fired m s a)) = _duration s - e).
Proof.
  unfold Bot_steer. destruct (dodging s) eqn:D.
  - cbn [fst snd].
    match goal with |- context [if ?c then _ else _] => destruct c end;
      repeat split; reflexivity.
  - destruct (Mover_move_body m s speed player) as [bd ->].
    cbn [draw].
    repeat match goal with
           | |- context [if ?c then _ else _] => destruct c; cbn [Bot__dodge draw]
           end;
      (split; [reflexivity|split; [reflexivity|intros; discriminate]]).
Qed.


Lemma Bot_aim_bearing e player s :
  rotation (body (Bot_aim e player s)) = Math_atan2 (y player - y s) (x player - x s)
  /\ remainingTime (Bot_aim e player s) = remainingTime s - e.
Proof. split; reflexivity. Qed.

Lemma Bot_ready_spec player s :
  Bot_ready player s = true
  <-> distanceBetween s player < (NATIVE_WIDTH + NATIVE_HEIGHT) / 2
      /\ remainingTime s <= 0.
Proof.
  unfold Bot_ready. rewrite andb_true_iff, Qltb_spec, Qleb_spec. reflexivity.
Qed.


(** ** Spawning *)

Lemma _assignBotWeapon_state (g : @Game R) :
  snd (_assignBotWeapon g) = snd (draws frac g).
Proof. reflexivity. Qed.

Lemma _setBotMovement_state (g : @Game R) :
  exists r, snd (_setBotMovement g) = set_arena (set_rnd r (arena g)) g.
Proof.
  unfold _setBotMovement. cbn [draws draw fst snd].
  repeat match goal with
         | |- context [if ?c then _ else _] => destruct c; cbn [draws draw fst snd]
         end;
    eexists; reflexivity.
Qed.

Lemma countLiving_app l l' : countLiving (l ++ l') = (countLiving l + countLiving l')%nat.
Proof. unfold countLiving. now rewrite List.filter_app, length_app. Qed.

Lemma countLiving_cons c l :
  countLiving (c :: l)
  = ((if alive (bot_sprite c) then 1 else 0) + countLiving l)%nat.
Proof. unfold countLiving. cbn. destruct (alive (bot_sprite c)); reflexivity. Qed.

Lemma countLiving_lookup l i b :
  l !! i = Some b -> ((if alive (bot_sprite b) then 1 else 0) <= countLiving l)%nat.
Proof.
  revert i. induction l as [|c l IH]; intros [|i] E; try discriminate;
    rewrite countLiving_cons.
  - injection E as ->. lia.
  - specialize (IH i E). lia.
Qed.

Lemma countLiving_insert l i b b' :
  l !! i = Some b ->
  countLiving (<[i := b']> l)
  = (countLiving l + (if alive (bot_sprite b') then 1 else 0)
     - (if alive (bot_sprite b) then 1 else 0))%nat.
Proof.
  revert i. induction l as [|c l IH]; intros [|i] E; try discriminate.
  - injection E as ->. cbn [insert list_insert]. rewrite !countLiving_cons.
    destruct (alive (bot_sprite b')), (alive (bot_sprite b)); lia.
  - cbn in E. pose proof (countLiving_lookup l i b E) as B.
    change (<[S i := b']> (c :: l)) with (c :: <[i := b']> l).
    rewrite !countLiving_cons, (IH i E).
    destruct (alive (bot_sprite c)), (alive (bot_sprite b')), (alive (bot_sprite b));
      lia.
Qed.

Lemma countLiving_same_lives l l' :
  Forall2 (fun b b' => alive (bot_sprite b) = alive (bot_sprite b')) l l' ->
  countLiving l = countLiving l'.
Proof.
  induction 1 as [|b b' l l' E _ IH]; [reflexivity|].
  unfold countLiving in *. cbn. rewrite E.
  destruct (alive (bot_sprite b')); cbn; now rewrite IH.
Qed.

Lemma countLiving_alter f l i :
  (forall b, alive (bot_sprite (f b)) = alive (bot_sprite b)) ->
  countLiving (alter f i l) = countLiving l.
Proof.
  intros F. apply countLiving_same_lives.
  revert i. induction l as [|c l IH]; intros i; [constructor|].
  destruct i as [|i]; cbn.
  - constructor; [apply F|]. clear. induction l; constructor; auto.
  - constructor; [reflexivity|apply IH].
Qed.

(** A spawn: the generator has moved on, one bot fewer is left to spawn,
    and the group holds one living bot more; the bots that were alive are
    untouched. *)
Lemma _spawnBot_spec closer (g : @Game R) :
  exists r L,
    _spawnBot closer g
    = set__groups_bots L
        (set_arena (set_rnd r (arena g)) (set__counts_bots (_counts_bots g - 1)%Z g))
    /\ countLiving L = S (countLiving (_groups_bots g))
    /\ (length (_groups_bots g) <= length L)%nat
    /\ (forall j b, _groups_bots g !! j = Some b -> alive (bot_sprite b) = true ->
                    L !! j = Some b)
    /\ (forall j b, L !! j = Some b ->
                    (exists k, weapon (bot_sprite b) = Some (BotWeapon k))
                    \/ _groups_bots g !! j = Some b).
Proof.
  unfold _spawnBot. cbn [draws draw fst snd].
  set (g1 := set__counts_bots _ _).
  match goal with |- context [getFirstDead ?px ?py g1] =>
    set (spot := getFirstDead px py g1) end.
  assert (S1 : exists i L1,
             spot = (i, set__groups_bots L1 g1)
             /\ (exists b1, L1 !! i = Some b1 /\ alive (bot_sprite b1) = true)
             /\ countLiving L1 = S (countLiving (_groups_bots g))
             /\ (length (_groups_bots g) <= length L1)%nat
             /\ (forall j b, _groups_bots g !! j = Some b ->
                             alive (bot_sprite b) = true ->
                             L1 !! j = Some b /\ j <> i)
             /\ (forall j b, L1 !! j = Some b -> j <> i ->
                             _groups_bots g !! j = Some b)).
  { subst spot. unfold getFirstDead.
    change (_groups_bots g1) with (_groups_bots g).
    destruct (list_find _ (_groups_bots g)) as [[i b]|] eqn:F.
    - apply list_find_Some in F. destruct F as (F1 & F2 & _).
      eexists i, _. split; [reflexivity|]. split; [|split; [|split; [|split]]].
      + eexists. split; [apply list_lookup_insert_eq; eapply lookup_lt_Some, F1|].
        reflexivity.
      + rewrite (countLiving_insert _ _ _ _ F1). rewrite F2. cbn. lia.
      + rewrite length_insert. lia.
      + intros j b' E A. assert (j <> i) by (intros ->; congruence).
        split; [|assumption]. rewrite list_lookup_insert_ne; [exact E|congruence].
      + intros j b' E N. rewrite list_lookup_insert_ne in E; [exact E|congruence].
    - apply list_find_None in F.
      eexists (length (_groups_bots g)), _. split; [reflexivity|].
      split; [|split; [|split; [|split]]].
      + eexists. split; [apply list_lookup_middle; reflexivity|reflexivity].
      + rewrite countLiving_app. unfold countLiving at 2. cbn. lia.
      + rewrite length_app. lia.
      + intros j b' E A. pose proof (lookup_lt_Some _ _ _ E).
        split; [|lia]. now rewrite lookup_app_l.
      + intros j b' E N. apply lookup_app_Some in E.
        destruct E as [E|[Ge E]]; [exact E|].
        destruct (j - length (_groups_bots g))%nat eqn:D; [lia|].
        cbn in E. discriminate. }
  destruct S1 as (i & L1 & -> & (b1 & E1 & A1) & C1 & Len1 & Keep1 & Old1).
  destruct (_setBotMovement_state
              (snd (_assignBotWeapon (set__groups_bots L1 g1)))) as [r2 ST].
  destruct (_assignBotWeapon (set__groups_bots L1 g1)) as [k g2] eqn:AW.
  pose proof (_assignBotWeapon_state (set__groups_bots L1 g1)) as AS.
  rewrite AW in AS. cbn [snd] in AS, ST.
  destruct (_setBotMovement g2) as [m g3]. cbn [snd] in ST. subst g3 g2.
  eexists _, _. split; [reflexivity|].
  cbn [_groups_bots set_arena draws snd set__groups_bots].
  split; [|split; [|split]].
  - rewrite countLiving_alter; [exact C1|reflexivity].
  - rewrite length_alter. exact Len1.
  - intros j b E A. destruct (Keep1 j b E A) as [K N].
    rewrite list_lookup_alter_ne; [exact K|congruence].
  - intros j b E. rewrite list_lookup_alter in E.
    destruct (decide (i = j)) as [<-|N].
    + rewrite E1 in E. cbn in E. injection E as <-. left. eexists. reflexivity.
    + right. apply Old1; [exact E|congruence].
Qed.

(** ** The bots' turn *)

(** What one call of [advance] does to the bot itself: it stays as alive
    as it was, keeps its weapon and its mover; a cooldown that has not run
    out has gone down by the elapsed time, and so has the duration of a
    dodge under way. *)
Lemma Bot_advance_bot i inp e speed lvl player fired b (a : @Arena R) :
  let b' := fst (Bot_advance i inp e speed lvl player fired b a) in
  alive (bot_sprite b') = alive (bot_sprite b)
  /\ weapon (bot_sprite b') = weapon (bot_sprite b)
  /\ move b' = move b
  /\ (0 < remainingTime (bot_sprite b) - e ->
      remainingTime (bot_sprite b') = remainingTime (bot_sprite b) - e)
  /\ (dodging (bot_sprite b) = true ->
      _duration (bot_sprite b') = _duration (bot_sprite b) - e).
Proof.
  unfold Bot_advance.
  set (s := Bot_aim e player (bot_sprite b)).
  assert (S0 : stance s = stance (bot_sprite b)) by reflexivity.
  assert (T0 : remainingTime s = remainingTime (bot_sprite b) - e) by reflexivity.
  assert (F : exists s1 a1,
             (if Bot_ready player s then Bot__fire i lvl s a else (s, a)) = (s1, a1)
             /\ stance s1 = stance s
             /\ (0 < remainingTime (bot_sprite b) - e -> remainingTime s1 = remainingTime s)).
  { destruct (Bot_ready player s) eqn:Rd.
    - pose proof (Bot__fire_stance i lvl s a) as St.
      destruct (Bot__fire i lvl s a) as [s1 a1]. exists s1, a1.
      split; [reflexivity|]. split; [exact St|].
      intros Pos. apply Bot_ready_spec in Rd. destruct Rd as [_ Rd].
      rewrite T0 in Rd. exfalso. apply (Qlt_not_le _ _ Pos Rd).
    - exists s, a. repeat split; reflexivity. }
  destruct F as (s1 & a1 & -> & S1 & T1).
  destruct (Bot_steer_vitals inp e speed lvl player fired (move b) s1 a1)
    as (V & _ & D).
  destruct (Bot_steer inp e speed lvl player fired (move b) s1 a1) as [s2 a2].
  cbn [fst snd bot_sprite move] in *.
  unfold vitals in V. injection V as V1 V2 _ V4.
  clear S0. unfold stance in S1. injection S1 as A1 W1 _ D1 _ U1.
  assert (A0 : alive s = alive (bot_sprite b)) by reflexivity.
  assert (W0 : weapon s = weapon (bot_sprite b)) by reflexivity.
  assert (D0 : dodging s = dodging (bot_sprite b)) by reflexivity.
  assert (U0 : _duration s = _duration (bot_sprite b)) by reflexivity.
  repeat split; try congruence.
  - intros Pos. rewrite V4, (T1 Pos). exact T0.
  - intros Dg. rewrite D by congruence. congruence.
Qed.

Lemma BotGroup_advance_child_spec inp e speed lvl fired (g : @Game R) i :
  let g' := BotGroup_advance_child inp e speed lvl fired g i in
  beside_bots g' = beside_bots g
  /\ length (_groups_bots g') = length (_groups_bots g)
  /\ (forall j, j <> i -> _groups_bots g' !! j = _groups_bots g !! j)
  /\ (forall b, _groups_bots g !! i = Some b ->
        exists b', _groups_bots g' !! i = Some b'
          /\ if alive (bot_sprite b)
             then exists a, b' = fst (Bot_advance i inp e speed lvl
                                        (player_sprite (_sprites_player g)) fired b a)
             else b' = b).
Proof.
  unfold BotGroup_advance_child.
  destruct (_groups_bots g !! i) as [b|] eqn:E.
  2: { repeat split; intros; discriminate. }
  destruct (alive (bot_sprite b)) eqn:A.
  2: { split; [reflexivity|]. split; [reflexivity|]. split; [reflexivity|].
       intros b0 E0. injection E0 as <-. exists b. rewrite A. now split. }
  destruct (Bot_advance i inp e speed lvl (player_sprite (_sprites_player g)) fired b
              (arena g)) as [b' a'] eqn:BA.
  split; [reflexivity|]. cbn [_groups_bots set__groups_bots set_arena].
  split; [apply length_insert|]. split.
  - intros j N. now rewrite list_lookup_insert_ne by congruence.
  - intros b0 E0. injection E0 as <-. exists b'. rewrite A.
    split; [apply list_lookup_insert_eq; eapply lookup_lt_Some, E|].
    exists (arena g). now rewrite BA.
Qed.

Lemma BotGroup_advance_indices inp e speed lvl fired (idx : list nat) :
  NoDup idx ->
  forall g : @Game R,
    let g' := fold_left (BotGroup_advance_child inp e speed lvl fired) idx g in
    beside_bots g' = beside_bots g
    /\ length (_groups_bots g') = length (_groups_bots g)
    /\ (forall j b, _groups_bots g !! j = Some b ->
          exists b', _groups_bots g' !! j = Some b'
            /\ if bool_decide (j ∈ idx) && alive (bot_sprite b)
               then exists a, b' = fst (Bot_advance j inp e speed lvl
                                          (player_sprite (_sprites_player g)) fired b a)
               else b' = b).
Proof.
  induction 1 as [|i idx Ni ND IH]; intros g.
  - split; [reflexivity|]. split; [reflexivity|]. intros j b E. exists b. now split.
  - cbn [fold_left].
    destruct (BotGroup_advance_child_spec inp e speed lvl fired g i)
      as (B1 & L1 & O1 & S1).
    specialize (IH (BotGroup_advance_child inp e speed lvl fired g i)).
    destruct IH as (B2 & L2 & S2).
    split; [now rewrite B2|]. split; [now rewrite L2|].
    intros j b E. destruct (decide (j = i)) as [->|N].
    + destruct (S1 b E) as (b1 & E1 & R1).
      destruct (S2 i b1 E1) as (b2 & E2 & R2).
      rewrite bool_decide_eq_false_2 in R2 by exact Ni. cbn [andb] in R2. subst b2.
      exists b1. split; [exact E2|].
      rewrite bool_decide_eq_true_2 by (left). cbn [andb]. exact R1.
    + rewrite <- (O1 j N) in E.
      destruct (S2 j b E) as (b2 & E2 & R2). exists b2. split; [exact E2|].
      assert (P : player_sprite (_sprites_player
                    (BotGroup_advance_child inp e speed lvl fired g i))
                  = player_sprite (_sprites_player g)).
      { unfold beside_bots in B1. injection B1. congruence. }
      rewrite P in R2.
      destruct (decide (j ∈ idx)) as [In|Out].
      * rewrite bool_decide_eq_true_2 in R2 by exact In.
        rewrite bool_decide_eq_true_2 by (now right). exact R2.
      * rewrite bool_decide_eq_false_2 in R2 by exact Out.
        rewrite bool_decide_eq_false_2; [exact R2|].
        intros In. apply elem_of_cons in In. destruct In; [congruence|contradiction].
Qed.

(** The bots' turn as a whole: nothing but the bots and the arena
    changes; every bot is still there; a dead bot is as it was and a
    living one is the result of its [advance]. *)
Lemma BotGroup_advance_spec inp e speed lvl fired (g : @Game R) :
  let g' := BotGroup_advance inp e speed lvl fired g in
  beside_bots g' = beside_bots g
  /\ (forall j b, _groups_bots g !! j = Some b ->
        exists b', _groups_bots g' !! j = Some b'
          /\ if alive (bot_sprite b)
             then exists a, b' = fst (Bot_advance j inp e speed lvl
                                        (player_sprite (_sprites_player g)) fired b a)
             else b' = b)
  /\ length (_groups_bots g') = length (_groups_bots g).
Proof.
  unfold BotGroup_advance.
  destruct (BotGroup_advance_indices inp e speed lvl fired
              (seq 0 (length (_groups_bots g))) (NoDup_seq _ _) g) as (B & L & S).
  split; [exact B|]. split; [|exact L].
  intros j b E. destruct (S j b E) as (b' & E' & Rr). exists b'.
  split; [exact E'|].
  rewrite bool_decide_eq_true_2 in Rr; [exact Rr|].
  apply elem_of_seq. pose proof (lookup_lt_Some _ _ _ E). lia.
Qed.

(** ** The player's part of a frame *)

Lemma _firePlayerBullet_spec (g : @Game R) :
  let r := _firePlayerBullet g in
  let p := player_sprite (_sprites_player g) in
  let p' := player_sprite (_sprites_player (snd r)) in
  beside_player (snd r) = beside_player g
  /\ _counts_bullets (snd r) = (_counts_bullets g - (if fst r then 1 else 0))%Z
  /\ (fst r = true -> _counts_bullets g <> 0%Z /\ remainingTime p <= 0)
  /\ (fst r = false -> snd r = g)
  /\ stance p' = stance p
  /\ _dodgeRemainingTime (_sprites_player (snd r)) = _dodgeRemainingTime (_sprites_player g).
Proof.
  unfold _firePlayerBullet.
  destruct (Qltb 0 (remainingTime (player_sprite (_sprites_player g)))) eqn:Rm;
    cbn [orb].
  { cbn [fst snd]. repeat split; try reflexivity; try discriminate.
    rewrite Z.sub_0_r. reflexivity. }
  destruct (_counts_bullets g =? 0)%Z eqn:Cn.
  { cbn [fst snd]. repeat split; try reflexivity; try discriminate.
    rewrite Z.sub_0_r. reflexivity. }
  pose proof (LiveSprite_fire_stance PlayerRef (player_sprite (_sprites_player g))
                (arena g)) as St.
  destruct (LiveSprite_fire PlayerRef (player_sprite (_sprites_player g)) (arena g))
    as [s1 a1].
  cbn [fst snd] in *.
  split; [reflexivity|]. split; [reflexivity|]. split.
  { intros _. split; [now apply Z.eqb_neq|now apply Qltb_false]. }
  split; [discriminate|]. split; [exact St|reflexivity].
Qed.

Lemma update_fire_spec inp (g : @Game R) :
  let r := update_fire inp g in
  let p := player_sprite (_sprites_player g) in
  let p' := player_sprite (_sprites_player (snd r)) in
  beside_player (snd r) = beside_player g
  /\ _counts_bullets (snd r) = (_counts_bullets g - (if fst r then 1 else 0))%Z
  /\ (fst r = true -> _counts_bullets g <> 0%Z /\ remainingTime p <= 0)
  /\ (fst r = false -> snd r = g)
  /\ stance p' = stance p
  /\ _dodgeRemainingTime (_sprites_player (snd r)) = _dodgeRemainingTime (_sprites_player g).
Proof.
  unfold update_fire.
  destruct ((fireButton_isDown inp && negb (fireButton_shiftKey inp))
            || fireKey_isDown inp).
  - apply _firePlayerBullet_spec.
  - cbn [fst snd]. repeat split; try reflexivity; try discriminate.
    rewrite Z.sub_0_r. reflexivity.
Qed.

Lemma Player_dodge_spec dir (p : Player) :
  let p' := Player_dodge dir p in
  vitals (player_sprite p') = vitals (player_sprite p)
  /\ _dodgeRemainingTime p' = _dodgeRemainingTime p
  /\ (dodging (player_sprite p) = true -> p' = p).
Proof.
  unfold Player_dodge. destruct (dodging (player_sprite p)); cbn [negb andb].
  - repeat split; reflexivity.
  - destruct (Qleb (_dodgeRemainingTime p) 0); repeat split; try reflexivity;
      discriminate.
Qed.

Lemma Player_advance_spec moved dir e (p : Player) :
  let p' := Player_advance moved dir e p in
  remainingTime (player_sprite p') = remainingTime (player_sprite p) - e
  /\ alive (player_sprite p') = alive (player_sprite p)
  /\ weapon (player_sprite p') = weapon (player_sprite p)
  /\ (dodging (player_sprite p) = true ->
      _duration (player_sprite p') = _duration (player_sprite p) - e)
  /\ (_dodgeRemainingTime p' = _dodgeRemainingTime p - e
      \/ (_dodgeRemainingTime p' = DODGE_RELOAD_TIME
          /\ dodging (player_sprite p) = true
          /\ dodging (player_sprite p') = false)).
Proof.
  unfold Player_advance. cbn [dodging set_remainingTime].
  destruct (dodging (player_sprite p)) eqn:D.
  - match goal with |- context [if Qleb ?u ?v then _ else _] =>
      destruct (Qleb u v) end;
      cbn [player_sprite _dodgeRemainingTime];
      (split; [reflexivity|split; [reflexivity|split; [reflexivity|split;
         [intros; reflexivity|]]]]).
    + right. repeat split; reflexivity.
    + left. reflexivity.
  - destruct moved; cbn [player_sprite _dodgeRemainingTime];
      (split; [reflexivity|split; [reflexivity|split; [reflexivity|split;
         [intros; discriminate|left; reflexivity]]]]).
Qed.

(** The player's part of [update].  Besides the player, the arena and the
    bullet budget nothing changes; the budget goes down by one exactly
    when the player fired.  A dead player is left alone.  For a living
    one the cooldown, as the firing step left it, has gone down by the
    elapsed time, and so have the duration of a dodge under way and the
    dodge reload (which starts afresh when a dodge ends). *)
Lemma update_player_spec inp moved e (g : @Game R) :
  let r := update_player inp moved e g in
  let P := _sprites_player g in
  let P1 := _sprites_player (snd (update_fire inp g)) in
  let P' := _sprites_player (snd r) in
  beside_player (snd r) = beside_player g
  /\ _counts_bullets (snd r) = (_counts_bullets g - (if fst r then 1 else 0))%Z
  /\ (fst r = true -> _counts_bullets g <> 0%Z)
  /\ alive (player_sprite P') = alive (player_sprite P)
  /\ weapon (player_sprite P') = weapon (player_sprite P)
  /\ (alive (player_sprite P) = false -> r = (false, g))
  /\ (alive (player_sprite P) = true ->
      fst r = fst (update_fire inp g)
      /\ arena (snd r) = arena (snd (update_fire inp g))
      /\ (fst r = false -> P1 = P)
      /\ remainingTime (player_sprite P') = remainingTime (player_sprite P1) - e
      /\ (dodging (player_sprite P) = true ->
          _duration (player_sprite P') = _duration (player_sprite P) - e)
      /\ (_dodgeRemainingTime P' = _dodgeRemainingTime P - e
          \/ (_dodgeRemainingTime P' = DODGE_RELOAD_TIME
              /\ dodging (player_sprite P') = false))).
Proof.
  unfold update_player.
  destruct (alive (player_sprite (_sprites_player g))) eqn:A.
  2: { cbn [fst snd]. rewrite Z.sub_0_r.
       repeat split; try reflexivity; try discriminate; exact A. }
  destruct (update_fire_spec inp g) as (B & C & F & NF & St & Dr).
  destruct (update_fire inp g) as [fired g1]. cbn [fst snd] in *.
  set (dir := Math_atan2 _ _).
  set (P2 := if moved && dodge (_mutators g1) && dodgeKey_isDown inp
             then Player_dodge dir (_sprites_player g1) else _sprites_player g1).
  assert (D2 : vitals (player_sprite P2) = vitals (player_sprite (_sprites_player g1))
               /\ _dodgeRemainingTime P2 = _dodgeRemainingTime (_sprites_player g1)
               /\ (dodging (player_sprite (_sprites_player g1)) = true ->
                   P2 = _sprites_player g1)).
  { subst P2. destruct (moved && dodge (_mutators g1) && dodgeKey_isDown inp).
    - apply Player_dodge_spec.
    - repeat split; reflexivity. }
  destruct D2 as (V2 & R2 & K2).
  destruct (Player_advance_spec moved dir e P2) as (T3 & A3 & W3 & U3 & R3).
  unfold vitals in V2. injection V2 as VA VW _ VT.
  unfold stance in St. injection St as SA SW _ SD _ SU.
  cbn [_sprites_player set__sprites_player].
  split; [exact B|]. split; [exact C|].
  split; [intros Fd; apply F, Fd|].
  split; [congruence|]. split; [congruence|]. split; [discriminate|].
  intros _. split; [reflexivity|]. split; [reflexivity|].
  split; [intros Fd; now rewrite (NF Fd)|].
  split; [congruence|]. split.
  - intros Dg. assert (Dg1 : dodging (player_sprite (_sprites_player g1)) = true)
      by congruence.
    pose proof (K2 Dg1) as EP.
    rewrite U3 by (rewrite EP; exact Dg1). rewrite EP. congruence.
  - destruct R3 as [R3|(R3 & _ & R3')]; [left; congruence|right; now split].
Qed.

(** ** The spawn part of a frame *)

Lemma update_spawn_spec e (g : @Game R) :
  let g' := update_spawn e g in
  let due := (0 <? _counts_bots g)%Z && Qleb (_next_botTime g - e) 0 in
  beside_spawn g' = beside_spawn g
  /\ (length (_groups_bots g) <= length (_groups_bots g'))%nat
  /\ (forall j b, _groups_bots g !! j = Some b -> alive (bot_sprite b) = true ->
                  _groups_bots g' !! j = Some b)
  /\ munitions (arena g') = munitions (arena g)
  /\ (if due
      then _counts_bots g' = (_counts_bots g - 1)%Z
           /\ countLiving (_groups_bots g') = S (countLiving (_groups_bots g))
      else _counts_bots g' = _counts_bots g
           /\ _groups_bots g' = _groups_bots g
           /\ _next_botTime g'
              = if (0 <? _counts_bots g)%Z then _next_botTime g - e
                else _next_botTime g).
Proof.
  unfold update_spawn.
  destruct (0 <? _counts_bots g)%Z; cbn [andb].
  2: { repeat split; try reflexivity. intros; assumption. }
  cbn [_next_botTime set__next_botTime].
  destruct (Qleb (_next_botTime g - e) 0).
  2: { repeat split; try reflexivity. intros; assumption. }
  destruct (_spawnBot_spec false (set__next_botTime (_next_botTime g - e) g))
    as (r & L & -> & CL & Len & Keep & _).
  cbn [draws draw fst snd].
  repeat split; try reflexivity; assumption.
Qed.

(** ** A frame as a whole *)

Lemma update_won inp (g : @Game R) : superhot g = true -> update inp g = g.
Proof. intros W. unfold update. now rewrite W. Qed.

Lemma update_spec inp (g : @Game R) :
  superhot g = false ->
  let e := elapsedTime_of inp g in
  let r := update_player inp (playerMoved_of inp g) e (update_turned inp g) in
  let due := (0 <? _counts_bots g)%Z && Qleb (_next_botTime g - e) 0 in
  let g' := update inp g in
  settings g' = settings g
  /\ _elapsedTime g' = e
  /\ _next_hotSwitch g'
     = (if _hotswitching g then _next_hotSwitch g else _next_hotSwitch g - e)
  /\ _counts_bullets g' = _counts_bullets (snd r)
  /\ _sprites_player g' = _sprites_player (snd r)
  /\ (if due
      then _counts_bots g' = (_counts_bots g - 1)%Z
           /\ countLiving (_groups_bots g') = S (countLiving (_groups_bots g))
      else _counts_bots g' = _counts_bots g
           /\ countLiving (_groups_bots g') = countLiving (_groups_bots g)
           /\ _next_botTime g'
              = if (0 <? _counts_bots g)%Z then _next_botTime g - e
                else _next_botTime g)
  /\ (length (_groups_bots g) <= length (_groups_bots g'))%nat
  /\ (forall j b, _groups_bots g !! j = Some b -> alive (bot_sprite b) = true ->
        exists a,
          _groups_bots g' !! j
          = Some (fst (Bot_advance j inp e (botSpeed_of inp g) (level g)
                         (player_sprite (_sprites_player (snd r))) (fst r) b a))).
Proof.
  intros NW e r due g'. subst g' r due e. unfold update. rewrite NW.
  cbn zeta. fold (update_turned inp g). set (e := elapsedTime_of inp g).
  destruct (update_player_spec inp (playerMoved_of inp g) e (update_turned inp g))
    as (BP & CB & _).
  destruct (update_player inp (playerMoved_of inp g) e (update_turned inp g))
    as [fired g2].
  cbn [fst snd] in *.
  unfold beside_player in BP. cbn in BP.
  injection BP as Lv Mu Cn Bt Hs El Hw Bo Oc Pc Tw Sl Ca.
  set (g3 := if negb (_hotswitching g2)
             then set__next_hotSwitch (_next_hotSwitch g2 - e) g2 else g2).
  assert (G3 : beside_spawn g3
               = (level g, _mutators g, _counts_bullets g2,
                  (if _hotswitching g then _next_hotSwitch g else _next_hotSwitch g - e),
                  e, _hotswitching g, _sprites_player g2, onChildInputDown g,
                  player_collides g, hotswitch_tween g, storage_level g, calls g)
               /\ _counts_bots g3 = _counts_bots g
               /\ _next_botTime g3 = _next_botTime g
               /\ _groups_bots g3 = _groups_bots g).
  { subst g3. unfold beside_spawn. rewrite Hw.
    destruct (_hotswitching g); cbn; rewrite ?Lv, ?Mu, ?Cn, ?Bt, ?Hs, ?Hw, ?Bo, ?Oc,
      ?Pc, ?Tw, ?Sl, ?Ca, ?El; repeat split; reflexivity. }
  destruct G3 as (G3 & C3 & T3 & L3).
  destruct (update_spawn_spec e g3) as (BS & Len4 & Keep4 & _ & Due4).
  rewrite C3, T3, L3 in *.
  set (due := (0 <? _counts_bots g)%Z && Qleb (_next_botTime g - e) 0) in *.
  set (g4 := update_spawn e g3) in *.
  rewrite G3 in BS. unfold beside_spawn in BS.
  injection BS as Lv4 Mu4 Cb4 Hs4 El4 Hw4 Pl4 Oc4 Pc4 Tw4 Sl4 Ca4.
  rewrite Lv4.
  destruct (BotGroup_advance_spec inp e (botSpeed_of inp g) (level g) fired g4)
    as (BB & Adv & Len5).
  set (g5 := BotGroup_advance inp e (botSpeed_of inp g) (level g) fired g4) in *.
  unfold beside_bots in BB.
  injection BB as Lv5 Mu5 Cn5 Cb5 Bt5 Hs5 El5 Hw5 Pl5 Oc5 Pc5 Tw5 Sl5 Ca5.
  unfold settings.
  cbn [level _mutators _hotswitching onChildInputDown player_collides
       hotswitch_tween storage_level calls _elapsedTime _next_hotSwitch
       _counts_bullets _sprites_player _counts_bots _groups_bots _next_botTime
       set_arena].
  assert (CL5 : countLiving (_groups_bots g5) = countLiving (_groups_bots g4)).
  { symmetry. apply countLiving_same_lives.
    apply Forall2_same_length_lookup. split; [now rewrite Len5|].
    intros j b b' E E'. destruct (Adv j b E) as (b2 & E2 & Rr).
    rewrite E' in E2. injection E2 as <-.
    destruct (alive (bot_sprite b)) eqn:A; [|now subst].
    destruct Rr as [a ->]. symmetry.
    rewrite <- A. apply Bot_advance_bot. }
  split; [congruence|]. split; [congruence|]. split; [congruence|].
  split; [congruence|]. split; [congruence|]. split.
  { destruct due.
    - destruct Due4 as (D1 & D2). split; congruence.
    - destruct Due4 as (D1 & D2 & D3). repeat split; congruence. }
  split; [rewrite Len5; exact Len4|].
  intros j b E A. pose proof (Keep4 j b E A) as E4.
  destruct (Adv j b E4) as (b' & E' & Rr). rewrite A in Rr.
  destruct Rr as [a ->]. exists a. rewrite E'. do 4 f_equal. congruence.
Qed.

(** C2, as amended: on a frame taken while the level is not yet won,
    [update] stores as elapsed time the physics time multiplied by (bullet
    speed / normal bullet speed), and that value is what the frame takes
    off the timers it runs: the hotswitch cooldown, unless a swap is under
    way (then the cooldown stands still); the spawn countdown, while bots
    are left to spawn (when it runs out a bot is spawned and the countdown
    is drawn afresh); for a living player the fire cooldown (as the firing
    step of the frame left it: untouched when the player did not fire),
    the duration of a dodge under way and the dodge reload (which starts
    afresh when a dodge ends); for every living bot the fire cooldown, when
    it has not run out, and the duration of a dodge under way. *)
Theorem dilated_time_drives_timers :
  forall (inp : Input) (g : @Game R),
    superhot g = false ->
    let e := physicsElapsed inp * (bulletSpeed_of inp g / normal speeds_bullet) in
    let g' := update inp g in
    let P := _sprites_player g in
    let P' := _sprites_player g' in
    _elapsedTime g' = e
    /\ (_hotswitching g = false -> _next_hotSwitch g' = _next_hotSwitch g - e)
    /\ (_hotswitching g = true -> _next_hotSwitch g' = _next_hotSwitch g)
    /\ ((0 < _counts_bots g)%Z -> 0 < _next_botTime g - e ->
        _next_botTime g' = _next_botTime g - e)
    /\ (alive (player_sprite P) = true ->
        remainingTime (player_sprite P')
        = remainingTime
            (player_sprite (_sprites_player (snd (update_fire inp (update_turned inp g)))))
          - e
        /\ (playerFired_of inp g = false ->
            remainingTime (player_sprite P') = remainingTime (player_sprite P) - e)
        /\ (dodging (player_sprite P) = true ->
            _duration (player_sprite P') = _duration (player_sprite P) - e)
        /\ (_dodgeRemainingTime P' = _dodgeRemainingTime P - e
            \/ (_dodgeRemainingTime P' = DODGE_RELOAD_TIME
                /\ dodging (player_sprite P') = false)))
    /\ (forall j b,
          _groups_bots g !! j = Some b -> alive (bot_sprite b) = true ->
          exists b',
            _groups_bots g' !! j = Some b'
            /\ (0 < remainingTime (bot_sprite b) - e ->
                remainingTime (bot_sprite b') = remainingTime (bot_sprite b) - e)
            /\ (dodging (bot_sprite b) = true ->
                _duration (bot_sprite b') = _duration (bot_sprite b) - e)).
Proof.
  intros inp g NW e g' P P'.
  change e with (elapsedTime_of inp g) in *. clear e.
  destruct (update_spec inp g NW) as (_ & El & Hs & _ & Pl & Due & _ & Bots).
  fold g' in El, Hs, Pl, Due, Bots.
  split; [exact El|]. split; [intros Hw; now rewrite Hs, Hw|].
  split; [intros Hw; now rewrite Hs, Hw|]. split.
  { intros Pos Left. apply Z.ltb_lt in Pos. rewrite Pos in Due. cbn [andb] in Due.
    assert (Q : Qleb (_next_botTime g - elapsedTime_of inp g) 0 = false)
      by now apply Qleb_false.
    rewrite Q in Due. apply Due. }
  split.
  { intros A. subst P'. rewrite Pl.
    destruct (update_player_spec inp (playerMoved_of inp g) (elapsedTime_of inp g)
                (update_turned inp g)) as (_ & _ & _ & _ & _ & _ & Live).
    destruct (Live A) as (F & _ & NF & T & D & Rl).
    split; [exact T|]. split; [|split; [exact D|exact Rl]].
    intros PF. unfold playerFired_of in PF. rewrite NW in PF. cbn [negb andb] in PF.
    rewrite T, (NF PF). reflexivity. }
  intros j b E A. destruct (Bots j b E A) as [a E']. eexists. split; [exact E'|].
  match goal with |- context [Bot_advance ?i ?n ?t ?sp ?l ?p ?f ?b0 ?a0] =>
    destruct (Bot_advance_bot i n t sp l p f b0 a0) as (_ & _ & _ & Tm & Du) end.
  split; assumption.
Qed.

(** ** Runs of a level *)

Lemma run_snoc evs ev (g : @Game R) : run (evs ++ [ev]) g = step (run evs g) ev.
Proof. unfold run. now rewrite fold_left_app. Qed.

Lemma run_invariant (P : @Game R -> Prop) :
  (forall g ev, P g -> P (step g ev)) ->
  forall evs g, P g -> P (run evs g).
Proof.
  intros St evs. induction evs as [|ev evs IH]; intros g Pg; [exact Pg|].
  cbn. apply IH, St, Pg.
Qed.

(** ** How a level starts *)

Lemma Qfloor_nonneg q : 0 <= q -> (0 <= Qfloor q)%Z.
Proof. intros L. change 0%Z with (Qfloor 0). now apply Qfloor_resp_le. Qed.

Lemma level_bots_positive lvl : (1 <= lvl)%Z -> (1 <= level_bots lvl)%Z.
Proof.
  intros L. unfold level_bots.
  destruct (_ || _)%bool; [lia|].
  destruct (lvl mod 10 =? 0)%Z; [lia|].
  assert (0 <= Qfloor (inject_Z lvl * (666 / 1000)))%Z; [|lia].
  apply Qfloor_nonneg. apply Qmult_le_0_compat; [|vm_compute; discriminate].
  change 0 with (inject_Z 0). rewrite <- Zle_Qle. lia.
Qed.

Lemma draws_inv (f : R -> Q * R) (g g' : @Game R) q :
  draws f g = (q, g') ->
  g' = set_arena (set_rnd (snd (f (rnd (arena g)))) (arena g)) g.
Proof. unfold draws, draw. cbn [fst snd]. congruence. Qed.

Ltac chase E D5 D4 D3 D2 D1 :=
  rewrite E, D5; cbn; rewrite D4; cbn; rewrite D3; cbn; rewrite D2; cbn;
  rewrite D1; reflexivity.

Lemma create_spec guns (g : @Game R) :
  let c := create guns g in
  level c = level g
  /\ _mutators c = _mutators g
  /\ _counts_bots c = (_counts_bots g - 1)%Z
  /\ _counts_bullets c = _counts_bullets g
  /\ countLiving (_groups_bots c) = 1%nat
  /\ calls c = calls g
  /\ _hotswitching c = false
  /\ hotswitch_tween c = None
  /\ _groups_playerBullets (arena c) = []
  /\ _groups_botBullets (arena c) = []
  /\ _bulletTrailPainter (arena c) = {| trails := []; _liveTrails := ∅ |}
  /\ weapon (player_sprite (_sprites_player c)) = Some PlayerWeapon
  /\ Forall bot_armed (_groups_bots c).
Proof.
  intros c. remember c as c' eqn:E. unfold c, create in E. clear c.
  cbv zeta in E.
  destruct (draws sign _) as [sx g2] eqn:D1 in E. apply draws_inv in D1.
  destruct (draws _ g2) as [bx g3] eqn:D2 in E. apply draws_inv in D2.
  destruct (draws sign g3) as [sy g4] eqn:D3 in E. apply draws_inv in D3.
  destruct (draws _ g4) as [by_ g5] eqn:D4 in E. apply draws_inv in D4.
  match type of E with context [_spawnBot true ?a] =>
    destruct (_spawnBot_spec true a) as (r' & L & S & CL & _ & _ & Arm);
    rewrite S in E end.
  destruct (draws _ _) as [t g7] eqn:D5 in E. apply draws_inv in D5.
  cbn [_groups_bots set_onChildInputDown set__groups_bots countLiving] in CL, Arm.
  assert (B : _groups_bots c' = L) by (rewrite E, D5; reflexivity).
  split; [chase E D5 D4 D3 D2 D1|].
  split; [chase E D5 D4 D3 D2 D1|].
  split; [chase E D5 D4 D3 D2 D1|].
  split; [chase E D5 D4 D3 D2 D1|].
  split; [rewrite B; exact CL|].
  split; [chase E D5 D4 D3 D2 D1|].
  split; [rewrite E; reflexivity|].
  split; [rewrite E; reflexivity|].
  split; [chase E D5 D4 D3 D2 D1|].
  split; [chase E D5 D4 D3 D2 D1|].
  split; [chase E D5 D4 D3 D2 D1|].
  split; [rewrite E, D5; reflexivity|].
  rewrite B. apply Forall_lookup. intros j b Eb. destruct (Arm j b Eb) as [[k W]|Old].
  - unfold bot_armed. rewrite W. discriminate.
  - destruct j; discriminate.
Qed.

Lemma start_spec (r : R) stored lvl muts guns :
  let g := start r stored lvl muts guns in
  level g = lvl
  /\ _mutators g = muts
  /\ _counts_bots g = (level_bots lvl - 1)%Z
  /\ _counts_bullets g = (if lmtdbull muts then level_bots lvl * 3 else -1)%Z
  /\ countLiving (_groups_bots g) = 1%nat
  /\ calls g = {| superhot_calls := 0; lose_calls := 0; swap_calls := 0;
                  shake_calls := 0 |}
  /\ _hotswitching g = false
  /\ hotswitch_tween g = None
  /\ _groups_playerBullets (arena g) = []
  /\ _groups_botBullets (arena g) = []
  /\ _bulletTrailPainter (arena g) = {| trails := []; _liveTrails := ∅ |}
  /\ weapon (player_sprite (_sprites_player g)) = Some PlayerWeapon
  /\ Forall bot_armed (_groups_bots g).
Proof.
  intros g. unfold g, start. clear g.
  destruct (create_spec guns (init lvl muts (new_Game r stored)))
    as (-> & -> & -> & -> & -> & -> & -> & -> & -> & -> & -> & -> & A).
  repeat (split; [reflexivity|]). exact A.
Qed.

Lemma start_won_once (r : R) stored lvl muts guns :
  (1 <= lvl)%Z -> won_once (start r stored lvl muts guns).
Proof.
  intros L. destruct (start_spec r stored lvl muts guns)
    as (_ & _ & C & _ & Lv & Ca & _).
  pose proof (level_bots_positive lvl L).
  split; [lia|]. unfold superhot. rewrite Lv, Ca.
  change (1 =? 0)%nat with false. rewrite andb_false_r. reflexivity.
Qed.

(** ** The win sequence *)

Lemma superhot_standing (g g' : @Game R) :
  standing g' = standing g -> superhot g' = superhot g.
Proof. unfold standing, superhot. intros E. injection E as -> -> _. reflexivity. Qed.

Lemma won_once_standing (g g' : @Game R) :
  standing g' = standing g -> won_once g -> won_once g'.
Proof.
  intros E [C W]. unfold won_once. rewrite (superhot_standing _ _ E).
  unfold standing in E. injection E as -> _ ->. now split.
Qed.

Lemma _lose_standing bullet (g : @Game R) : standing (_lose bullet g) = standing g.
Proof.
  unfold _lose. destruct (get_bullets _ _ !! _); [|reflexivity].
  repeat match goal with |- context [if ?c then _ else _] => destruct c end;
    reflexivity.
Qed.

Lemma bulletHandler_standing m o (g : @Game R) :
  standing (bulletHandler m o g) = standing g.
Proof. reflexivity. Qed.

(** What a hit on a bot does to the win sequence: it runs exactly when the
    bot was alive and its death leaves the level won. *)
Lemma _botKillHandler_standing bot bullet (g : @Game R) :
  let g' := _botKillHandler bot bullet g in
  _counts_bots g' = _counts_bots g
  /\ ((exists b, _groups_bots g !! bot = Some b /\ alive (bot_sprite b) = true)
      /\ countLiving (_groups_bots g') = pred (countLiving (_groups_bots g))
      /\ (1 <= countLiving (_groups_bots g))%nat
      /\ superhot_calls (calls g')
         = (superhot_calls (calls g) + if superhot g' then 1 else 0)%nat
      \/ g' = g).
Proof.
  cbn zeta. unfold _botKillHandler.
  destruct (_groups_bots g !! bot) as [b|] eqn:E; [|split; [reflexivity|now right]].
  destruct (alive (bot_sprite b)) eqn:A; cbn [negb]; [|split; [reflexivity|now right]].
  set (g2 := set_arena _ (kill_bot bot g)).
  assert (L : countLiving (_groups_bots g2) = pred (countLiving (_groups_bots g))
              /\ (1 <= countLiving (_groups_bots g))%nat).
  { subst g2. cbn [_groups_bots set_arena kill_bot set__groups_bots].
    pose proof (countLiving_lookup _ _ _ E) as B. rewrite A in B.
    split; [|exact B].
    assert (AL : alter (fun b0 => {| bot_sprite := set_alive false (bot_sprite b0);
                                     move := move b0 |}) bot (_groups_bots g)
                 = <[bot := {| bot_sprite := set_alive false (bot_sprite b);
                               move := move b |}]> (_groups_bots g)).
    { apply list_eq. intros j. rewrite list_lookup_alter, list_lookup_insert.
      destruct (decide (bot = j)) as [<-|N].
      - rewrite E, decide_True; [reflexivity|].
        split; [reflexivity|eapply lookup_lt_Some, E].
      - rewrite decide_False; [reflexivity|]. intros [? _]. contradiction. }
    rewrite AL, (countLiving_insert _ _ _ _ E), A. cbn. lia. }
  destruct L as [L1 L2].
  assert (S2 : forall X : @Game R,
             _counts_bots X = _counts_bots g2 -> _groups_bots X = _groups_bots g2 ->
             superhot X = superhot g2).
  { intros X E1 E2. unfold superhot. now rewrite E1, E2. }
  destruct (superhot g2) eqn:W.
  - split; [reflexivity|]. left. split; [eauto|]. split; [exact L1|]. split; [exact L2|].
    rewrite (S2 (_superhot g2)) by reflexivity. cbn. lia.
  - split; [reflexivity|]. left. split; [eauto|]. split; [exact L1|]. split; [exact L2|].
    rewrite W. cbn. lia.
Qed.

Lemma _botKillHandler_won_once bot bullet (g : @Game R) :
  won_once g -> won_once (_botKillHandler bot bullet g).
Proof.
  intros [C W]. destruct (_botKillHandler_standing bot bullet g) as (C' & [K|Same]).
  2: { rewrite Same. now split. }
  destruct K as (_ & L & Pos & Calls). split; [now rewrite C'|].
  assert (NW : superhot g = false).
  { unfold superhot. destruct (countLiving (_groups_bots g)); [lia|].
    now rewrite andb_false_r. }
  rewrite NW in W. rewrite Calls, W. reflexivity.
Qed.

Lemma groupCallback_won_once a b (g : @Game R) :
  won_once g -> won_once (groupCallback a b g).
Proof.
  intros W. unfold groupCallback. destruct a as [|i|m], b as [|j|o]; try exact W.
  - destruct (bool_decide _); [|exact W].
    eapply won_once_standing; [apply _lose_standing|exact W].
  - now apply _botKillHandler_won_once.
Qed.

Lemma swap_standing bot (g : @Game R) : standing (swap bot g) = standing g.
Proof.
  unfold swap. destruct (_groups_bots g !! bot) as [b|] eqn:E; [|reflexivity].
  unfold standing.
  cbn [_counts_bots _groups_bots calls set_hotswitch_tween set__next_hotSwitch
       set_calls set__groups_bots set__sprites_player bump_swap superhot_calls].
  rewrite (countLiving_insert _ _ _ _ E). cbn [bot_sprite alive set_body].
  pose proof (countLiving_lookup _ _ _ E).
  destruct (alive (bot_sprite b)); f_equal; f_equal; lia.
Qed.

Lemma moved_standing who px py (g : @Game R) :
  standing (moved who px py g) = standing g.
Proof.
  destruct who as [|i|b]; try reflexivity.
  unfold standing, moved.
  cbn [_counts_bots _groups_bots calls set__groups_bots].
  rewrite countLiving_alter; reflexivity.
Qed.

Lemma update_won_once inp (g : @Game R) : won_once g -> won_once (update inp g).
Proof.
  intros [C W]. destruct (superhot g) eqn:NW.
  { rewrite (update_won inp g NW). split; [exact C|now rewrite NW]. }
  destruct (update_spec inp g NW) as (St & _ & _ & _ & _ & Due & _).
  assert (Ca : superhot_calls (calls (update inp g)) = superhot_calls (calls g)).
  { unfold settings in St. injection St. congruence. }
  unfold won_once. rewrite Ca, W.
  destruct ((0 <? _counts_bots g)%Z && Qleb _ 0) eqn:D.
  - destruct Due as (D1 & D2). apply andb_true_iff in D. destruct D as [D _].
    apply Z.ltb_lt in D. split; [lia|].
    unfold superhot. rewrite D2. now rewrite andb_false_r.
  - destruct Due as (D1 & D2 & _). split; [lia|].
    unfold superhot in *. now rewrite D1, D2, NW.
Qed.

Lemma step_won_once (g : @Game R) ev : won_once g -> won_once (step g ev).
Proof.
  intros W. destruct ev as [inp|a b|bot ptr| |bullet|who px py]; cbn [step].
  - now apply update_won_once.
  - unfold impact. now apply groupCallback_won_once, groupCallback_won_once.
  - unfold onChildInputDown_dispatch.
    destruct (onChildInputDown g); [|exact W].
    destruct (_groups_bots g !! bot); [|exact W].
    unfold hotswitch.
    repeat match goal with |- context [if ?c then _ else _] => destruct c end;
      try exact W; (eapply won_once_standing; [|exact W]); reflexivity.
  - unfold tween_onComplete. destruct (hotswitch_tween g) as [[[] i]|]; try exact W.
    eapply won_once_standing; [apply swap_standing|exact W].
  - exact W.
  - eapply won_once_standing; [apply moved_standing|exact W].
Qed.

Lemma update_settings inp (g : @Game R) : settings (update inp g) = settings g.
Proof.
  destruct (superhot g) eqn:W; [now rewrite update_won|].
  apply (update_spec inp g W).
Qed.

Lemma _lose_superhot_calls bullet (g : @Game R) :
  superhot_calls (calls (_lose bullet g)) = superhot_calls (calls g).
Proof.
  pose proof (_lose_standing bullet g) as E. unfold standing in E. now injection E.
Qed.

Lemma _botKillHandler_calls bot bullet (g : @Game R) :
  superhot_calls (calls (_botKillHandler bot bullet g)) = superhot_calls (calls g)
  \/ (_counts_bots g = 0%Z
      /\ superhot_calls (calls (_botKillHandler bot bullet g))
         = S (superhot_calls (calls g))).
Proof.
  destruct (_botKillHandler_standing bot bullet g) as (C & [K|Same]).
  2: { left. now rewrite Same. }
  destruct K as (_ & _ & _ & Ca).
  destruct (superhot (_botKillHandler bot bullet g)) eqn:W.
  - right. split; [|rewrite Ca; lia].
    unfold superhot in W. apply andb_true_iff in W. destruct W as [W _].
    apply Z.eqb_eq in W. congruence.
  - left. rewrite Ca. lia.
Qed.

(** Only a contact between a bot and a bullet can start the win sequence,
    and only when no bot is left to spawn. *)
Lemma step_superhot_calls (g : @Game R) ev :
  superhot_calls (calls (step g ev)) = superhot_calls (calls g)
  \/ (_counts_bots g = 0%Z
      /\ superhot_calls (calls (step g ev)) = S (superhot_calls (calls g))
      /\ exists i b, ev = Impact (BotBody i) (BulletBody b)
                     \/ ev = Impact (BulletBody b) (BotBody i)).
Proof.
  destruct ev as [inp|a b|bot ptr| |bullet|who px py]; cbn [step].
  - left. pose proof (update_settings inp g) as E. unfold settings in E.
    injection E. congruence.
  - unfold impact, groupCallback.
    destruct a as [|i|m], b as [|j|o]; try (left; reflexivity).
    + left. destruct (bool_decide _); [apply _lose_superhot_calls|reflexivity].
    + destruct (_botKillHandler_calls i o g) as [Same|[C B]]; [now left|].
      right. split; [exact C|]. split; [exact B|]. exists i, o. now left.
    + left. destruct (bool_decide _); [apply _lose_superhot_calls|reflexivity].
    + destruct (_botKillHandler_calls j m g) as [Same|[C B]]; [now left|].
      right. split; [exact C|]. split; [exact B|]. exists j, m. now right.
  - left. unfold onChildInputDown_dispatch.
    destruct (onChildInputDown g); [|reflexivity].
    destruct (_groups_bots g !! bot); [|reflexivity].
    unfold hotswitch.
    repeat match goal with |- context [if ?c then _ else _] => destruct c end;
      reflexivity.
  - left. unfold tween_onComplete.
    destruct (hotswitch_tween g) as [[[] i]|]; try reflexivity.
    pose proof (swap_standing i g) as E. unfold standing in E. now injection E.
  - left. reflexivity.
  - left. pose proof (moved_standing who px py g) as E. unfold standing in E.
    now injection E.
Qed.

(** C3: in any run of a level (numbered 1 or more) from its start, the win
    sequence has been started once when the level is won (no bot left to
    spawn and none alive) and never before; the step that starts it is a
    contact of a bullet with a bot that leaves the level won; and from a
    state in which bots are still left to spawn no step starts it, whether
    or not a bot is alive. *)
Theorem win_sequence_exactly_once :
  forall (r : R) (stored lvl : Z) (muts : Mutators) (guns : Guns) (evs : list Event),
    (1 <= lvl)%Z ->
    let g := run evs (start r stored lvl muts guns) in
    superhot_calls (calls g) = (if superhot g then 1 else 0)%nat
    /\ (forall ev,
          superhot_calls (calls (step g ev)) <> superhot_calls (calls g) ->
          superhot g = false
          /\ superhot (step g ev) = true
          /\ superhot_calls (calls (step g ev)) = 1%nat
          /\ exists i b, ev = Impact (BotBody i) (BulletBody b)
                         \/ ev = Impact (BulletBody b) (BotBody i))
    /\ (forall ev,
          (0 < _counts_bots g)%Z ->
          superhot_calls (calls (step g ev)) = superhot_calls (calls g)).
Proof.
  intros r stored lvl muts guns evs L g.
  assert (W : won_once g).
  { apply run_invariant; [intros; now apply step_won_once|now apply start_won_once]. }
  split; [apply W|]. split.
  - intros ev Ne.
    pose proof (step_won_once g ev W) as [_ W'].
    destruct W as [_ W].
    destruct (step_superhot_calls g ev) as [Same|(_ & B & Ev)]; [contradiction|].
    destruct (superhot g); [|destruct (superhot (step g ev))].
    + rewrite W in B. rewrite B in W'. destruct (superhot (step g ev)); discriminate.
    + repeat split; try assumption.
    + rewrite W in B. congruence.
  - intros ev Pos.
    destruct (step_superhot_calls g ev) as [Same|(C & _)]; [exact Same|lia].
Qed.

(** ** The bullet budget *)

Lemma update_counts_bullets inp (g : @Game R) :
  _counts_bullets (update inp g)
  = (_counts_bullets g - if playerFired_of inp g then 1 else 0)%Z
  /\ (playerFired_of inp g = true -> _counts_bullets g <> 0%Z).
Proof.
  unfold playerFired_of. destruct (superhot g) eqn:W; cbn [negb andb].
  { rewrite update_won by exact W. split; [lia|discriminate]. }
  destruct (update_spec inp g W) as (_ & _ & _ & Cb & _).
  destruct (update_player_spec inp (playerMoved_of inp g) (elapsedTime_of inp g)
              (update_turned inp g)) as (_ & C & F & _).
  rewrite Cb, C. split; [reflexivity|exact F].
Qed.

Lemma step_counts_bullets (g : @Game R) ev :
  _counts_bullets (step g ev)
  = (_counts_bullets g
     - match ev with
       | Tick inp => if playerFired_of inp g then 1 else 0
       | _ => 0
       end)%Z
  /\ lmtdbull (_mutators (step g ev)) = lmtdbull (_mutators g).
Proof.
  destruct ev as [inp|a b|bot ptr| |bullet|who px py]; cbn [step].
  - split; [apply update_counts_bullets|].
    pose proof (update_settings inp g) as E. unfold settings in E.
    injection E. congruence.
  - rewrite Z.sub_0_r.
    assert (CB : forall a b (g0 : @Game R),
               _counts_bullets (groupCallback a b g0) = _counts_bullets g0
               /\ lmtdbull (_mutators (groupCallback a b g0)) = lmtdbull (_mutators g0)).
    { intros a0 b0 g0. unfold groupCallback.
      destruct a0 as [|i|m], b0 as [|j|o]; try (split; reflexivity).
      - destruct (bool_decide _); [|split; reflexivity].
        unfold _lose. destruct (get_bullets _ _ !! _); [|split; reflexivity].
        repeat match goal with |- context [if ?c then _ else _] => destruct c end;
          split; reflexivity.
      - unfold _botKillHandler. destruct (_groups_bots g0 !! i); [|split; reflexivity].
        repeat match goal with |- context [if ?c then _ else _] => destruct c end;
          split; reflexivity. }
    unfold impact. destruct (CB b a (groupCallback a b g)) as [-> ->]. apply CB.
  - rewrite Z.sub_0_r. unfold onChildInputDown_dispatch.
    destruct (onChildInputDown g); [|split; reflexivity].
    destruct (_groups_bots g !! bot); [|split; reflexivity].
    unfold hotswitch.
    repeat match goal with |- context [if ?c then _ else _] => destruct c end;
      split; reflexivity.
  - rewrite Z.sub_0_r. unfold tween_onComplete.
    destruct (hotswitch_tween g) as [[[] i]|]; try (split; reflexivity).
    unfold swap. destruct (_groups_bots g !! i); split; reflexivity.
  - rewrite Z.sub_0_r. split; reflexivity.
  - rewrite Z.sub_0_r. destruct who; split; reflexivity.
Qed.

Lemma run_counts_bullets evs : forall g : @Game R,
  _counts_bullets (run evs g) = (_counts_bullets g - Z.of_nat (shots evs g))%Z
  /\ lmtdbull (_mutators (run evs g)) = lmtdbull (_mutators g)
  /\ ((0 <= _counts_bullets g)%Z -> (0 <= _counts_bullets (run evs g))%Z)
  /\ ((_counts_bullets g < 0)%Z -> (_counts_bullets (run evs g) < 0)%Z).
Proof.
  induction evs as [|ev evs IH]; intros g.
  - cbn. repeat split; try lia.
  - cbn [run fold_left shots]. fold (run evs (step g ev)).
    destruct (IH (step g ev)) as (C & M & Pos & Neg).
    destruct (step_counts_bullets g ev) as (C1 & M1).
    assert (Fired : match ev with
                    | Tick inp => playerFired_of inp g = true -> _counts_bullets g <> 0%Z
                    | _ => True
                    end).
    { destruct ev; try exact I. apply update_counts_bullets. }
    split; [|split; [congruence|split]].
    + rewrite C, C1. destruct ev; try lia. destruct (playerFired_of inp g); lia.
    + intros P. apply Pos. rewrite C1. destruct ev; try lia.
      destruct (playerFired_of inp g); [|lia]. specialize (Fired eq_refl). lia.
    + intros N. apply Neg. rewrite C1. destruct ev; try lia.
      destruct (playerFired_of inp g); lia.
Qed.

(** C10: with the limited-bullets mutator, [init] sets the budget to 3
    times the number of bots of the level; in any run from the start of a
    level (numbered 1 or more) the budget is that number less the shots the
    player has fired and never negative, so the shots are at most 3 times
    the number of bots.  Without the mutator the budget starts at -1 and
    stays negative, so it never is the zero that refuses a shot.  In any
    state a fire request with a budget of zero returns false and leaves the
    state as it is, and a request that succeeds takes one off the
    budget. *)
Theorem bullet_budget :
  forall (r : R) (stored lvl : Z) (muts : Mutators) (guns : Guns) (evs : list Event),
    (1 <= lvl)%Z ->
    let g0 := start r stored lvl muts guns in
    let g := run evs g0 in
    _counts_bullets (init lvl muts (new_Game r stored))
    = (if lmtdbull muts then 3 * level_bots lvl else -1)%Z
    /\ _counts_bullets g0 = (if lmtdbull muts then 3 * level_bots lvl else -1)%Z
    /\ _counts_bullets g = (_counts_bullets g0 - Z.of_nat (shots evs g0))%Z
    /\ (if lmtdbull muts
        then (0 <= _counts_bullets g)%Z
             /\ (Z.of_nat (shots evs g0) <= 3 * level_bots lvl)%Z
        else (_counts_bullets g < 0)%Z
             /\ fst (_firePlayerBullet g)
                = negb (Qltb 0 (remainingTime (player_sprite (_sprites_player g)))))
    /\ (forall h : @Game R,
          (_counts_bullets h = 0%Z -> _firePlayerBullet h = (false, h))
          /\ (fst (_firePlayerBullet h) = true ->
              _counts_bullets (snd (_firePlayerBullet h))
              = (_counts_bullets h - 1)%Z)).
Proof.
  intros r stored lvl muts guns evs L g0 g.
  destruct (start_spec r stored lvl muts guns) as (_ & _ & _ & Cb & _).
  fold g0 in Cb.
  destruct (run_counts_bullets evs g0) as (C & _ & Pos & Neg). fold g in C, Pos, Neg.
  pose proof (level_bots_positive lvl L) as LB.
  split.
  { unfold init. cbn. destruct (lmtdbull muts); lia. }
  split; [rewrite Cb; destruct (lmtdbull muts); lia|].
  split; [exact C|]. split.
  - destruct (lmtdbull muts).
    + assert (P : (0 <= _counts_bullets g)%Z) by (apply Pos; lia).
      split; [exact P|lia].
    + assert (N : (_counts_bullets g < 0)%Z) by (apply Neg; lia).
      split; [exact N|].
      unfold _firePlayerBullet.
      assert (Z0 : (_counts_bullets g =? 0)%Z = false) by (apply Z.eqb_neq; lia).
      rewrite Z0, orb_false_r.
      destruct (Qltb 0 _); [reflexivity|].
      destruct (LiveSprite_fire _ _ _). reflexivity.
  - intros h. split.
    + intros Z0. unfold _firePlayerBullet. rewrite Z0. cbn [Z.eqb].
      now rewrite orb_true_r.
    + intros F. destruct (_firePlayerBullet_spec h) as (_ & Cn & _).
      rewrite Cn, F. reflexivity.
Qed.

(** ** The hotswitch *)

Lemma groupCallback_switching a b (g : @Game R) :
  switching (groupCallback a b g) = switching g
  /\ length (_groups_bots (groupCallback a b g)) = length (_groups_bots g).
Proof.
  unfold groupCallback.
  destruct a as [|i|m], b as [|j|o]; try (split; reflexivity).
  - destruct (bool_decide _); [|split; reflexivity].
    unfold _lose. destruct (get_bullets _ _ !! _); [|split; reflexivity].
    repeat match goal with |- context [if ?c then _ else _] => destruct c end;
      split; reflexivity.
  - unfold _botKillHandler. destruct (_groups_bots g !! i); [|split; reflexivity].
    repeat match goal with |- context [if ?c then _ else _] => destruct c end;
      (split; [reflexivity|]); cbn; rewrite ?length_alter; reflexivity.
Qed.

Lemma step_bots_length (g : @Game R) ev :
  (length (_groups_bots g) <= length (_groups_bots (step g ev)))%nat.
Proof.
  destruct ev as [inp|a b|bot ptr| |bullet|who px py]; cbn [step].
  - destruct (superhot g) eqn:W; [rewrite update_won by exact W; lia|].
    apply (update_spec inp g W).
  - unfold impact.
    destruct (groupCallback_switching b a (groupCallback a b g)) as [_ ->].
    destruct (groupCallback_switching a b g) as [_ ->]. lia.
  - unfold onChildInputDown_dispatch, hotswitch.
    repeat match goal with
           | |- context [if ?c then _ else _] => destruct c
           | |- context [match ?c with Some _ => _ | None => _ end] => destruct c
           end; cbn; lia.
  - unfold tween_onComplete.
    destruct (hotswitch_tween g) as [[[] i]|]; cbn; try lia.
    unfold swap. destruct (_groups_bots g !! i); cbn; rewrite ?length_insert; lia.
  - cbn. lia.
  - destruct who; cbn; rewrite ?length_alter; lia.
Qed.

Lemma hotswitch_rejected bot ptr (g : @Game R) :
  0 < _next_hotSwitch g \/ _hotswitching g = true ->
  hotswitch bot ptr g = g \/ hotswitch bot ptr g = set_calls (bump_shake (calls g)) g.
Proof.
  intros Busy. unfold hotswitch.
  destruct (negb _); [now left|].
  destruct (Qltb 0 (_next_hotSwitch g)) eqn:C; [now right|].
  destruct (_hotswitching g) eqn:S; [now left|].
  destruct Busy as [B|B]; [|discriminate].
  apply Qltb_spec in B. congruence.
Qed.

(** While a swap is under way, no event but the completion of the tween
    touches the animation or swaps. *)
Lemma step_switching (g : @Game R) ev :
  quiet ev = true -> _hotswitching g = true ->
  switching (step g ev) = switching g.
Proof.
  intros Q S.
  destruct ev as [inp|a b|bot ptr| |bullet|who px py]; cbn [step];
    try discriminate.
  - pose proof (update_settings inp g) as E. unfold settings in E.
    unfold switching. injection E. congruence.
  - unfold impact.
    destruct (groupCallback_switching b a (groupCallback a b g)) as [-> _].
    apply groupCallback_switching.
  - unfold onChildInputDown_dispatch.
    destruct (onChildInputDown g); [|reflexivity].
    destruct (_groups_bots g !! bot); [|reflexivity].
    destruct (hotswitch_rejected bot ptr g (or_intror S)) as [-> | ->]; reflexivity.
  - reflexivity.
  - destruct who; reflexivity.
Qed.

Lemma run_switching evs : forall g : @Game R,
  forallb quiet evs = true -> _hotswitching g = true ->
  switching (run evs g) = switching g
  /\ (length (_groups_bots g) <= length (_groups_bots (run evs g)))%nat.
Proof.
  induction evs as [|ev evs IH]; intros g Q S; [split; [reflexivity|cbn; lia]|].
  cbn [forallb] in Q. apply andb_true_iff in Q as [Q1 Q2].
  change (run (ev :: evs) g) with (run evs (step g ev)).
  pose proof (step_switching g ev Q1 S) as E.
  assert (S' : _hotswitching (step g ev) = true).
  { unfold switching in E. injection E. congruence. }
  destruct (IH (step g ev) Q2 S') as [E' Le].
  pose proof (step_bots_length g ev).
  split; [congruence|lia].
Qed.

(** What [swap] does when the bot is there. *)
Lemma swap_exchange bot b (g : @Game R) :
  _groups_bots g !! bot = Some b ->
  let pbody := body (player_sprite (_sprites_player g)) in
  let bbody := body (bot_sprite b) in
  let g' := swap bot g in
  switching g' = (_hotswitching g, Some (FadeIn, bot), S (swap_calls (calls g)))
  /\ body (player_sprite (_sprites_player g'))
     = set_body_pos (body_x bbody) (body_y bbody) pbody
  /\ _groups_bots g' !! bot
     = Some {| bot_sprite :=
                 set_body (set_body_pos (body_x pbody) (body_y pbody) bbody)
                   (bot_sprite b);
               move := move b |}.
Proof.
  intros E. cbn zeta. unfold swap. rewrite E.
  split; [reflexivity|]. split; [reflexivity|].
  cbn. apply list_lookup_insert_eq. apply lookup_lt_is_Some. now exists b.
Qed.

(** C4: a request made while the cooldown is positive or a swap is under
    way leaves the state as it is (but for the shake of the cooldown bar),
    while a request with the controls on a child of the bot group, made
    when the cooldown has run out and no swap is under way, starts the
    fade-out.  From there, whatever else happens (further requests among
    it) until the fade-out completes, the swap then runs, and whatever
    happens until the fade-in completes: one swap has been made, no more,
    and the animation is over.  The swap puts the body of the player where
    the body of the clicked bot was just before, and the body of the bot
    where the body of the player was. *)
Theorem hotswitch_one_swap_exact :
  forall (g : @Game R) (bot : nat) (ptr : Pointer) (b : Bot) (evs1 evs2 : list Event),
    onChildInputDown g = true ->
    _groups_bots g !! bot = Some b ->
    asks_hotswitch ptr = true ->
    _next_hotSwitch g <= 0 ->
    _hotswitching g = false ->
    forallb quiet evs1 = true ->
    forallb quiet evs2 = true ->
    let g1 := run (InputDown bot ptr :: evs1) g in
    let g2 := step g1 TweenComplete in
    let g3 := run evs2 g2 in
    let g4 := step g3 TweenComplete in
    switching g4 = (false, None, S (swap_calls (calls g)))
    /\ step g (InputDown bot ptr)
       = set_hotswitch_tween (Some (FadeOut, bot)) (set__hotswitching true g)
    /\ switching g1 = (true, Some (FadeOut, bot), swap_calls (calls g))
    /\ switching g2 = (true, Some (FadeIn, bot), S (swap_calls (calls g)))
    /\ switching g3 = (true, Some (FadeIn, bot), S (swap_calls (calls g)))
    /\ (exists b1 b2,
          _groups_bots g1 !! bot = Some b1
          /\ _groups_bots g2 !! bot = Some b2
          /\ body_x (body (player_sprite (_sprites_player g2)))
             = body_x (body (bot_sprite b1))
          /\ body_y (body (player_sprite (_sprites_player g2)))
             = body_y (body (bot_sprite b1))
          /\ body_x (body (bot_sprite b2))
             = body_x (body (player_sprite (_sprites_player g1)))
          /\ body_y (body (bot_sprite b2))
             = body_y (body (player_sprite (_sprites_player g1))))
    /\ (forall (h : @Game R) (k : nat) (p : Pointer),
          0 < _next_hotSwitch h \/ _hotswitching h = true ->
          switching (step h (InputDown k p)) = switching h
          /\ _sprites_player (step h (InputDown k p)) = _sprites_player h
          /\ _groups_bots (step h (InputDown k p)) = _groups_bots h
          /\ _next_hotSwitch (step h (InputDown k p)) = _next_hotSwitch h).
Proof.
  intros g bot ptr b evs1 evs2 On Eb Asks Cool Idle Q1 Q2 g1 g2 g3 g4.
  assert (Acc : step g (InputDown bot ptr)
                = set_hotswitch_tween (Some (FadeOut, bot)) (set__hotswitching true g)).
  { cbn [step]. unfold onChildInputDown_dispatch. rewrite On, Eb.
    unfold hotswitch. fold (asks_hotswitch ptr). rewrite Asks, Idle. cbn [negb].
    destruct (Qltb 0 (_next_hotSwitch g)) eqn:C; [|reflexivity].
    apply Qltb_spec in C. exfalso. apply (Qlt_irrefl 0).
    eapply Qlt_le_trans; [exact C|exact Cool]. }
  set (g0 := step g (InputDown bot ptr)) in *.
  assert (S0 : switching g0 = (true, Some (FadeOut, bot), swap_calls (calls g)))
    by (rewrite Acc; reflexivity).
  assert (Hs0 : _hotswitching g0 = true) by (rewrite Acc; reflexivity).
  assert (L0 : length (_groups_bots g0) = length (_groups_bots g))
    by (rewrite Acc; reflexivity).
  destruct (run_switching evs1 g0 Q1 Hs0) as [S1 L1].
  change (run evs1 g0) with g1 in S1, L1.
  rewrite S0 in S1.
  assert (In1 : is_Some (_groups_bots g1 !! bot)).
  { apply lookup_lt_is_Some. assert (bot < length (_groups_bots g))%nat; [|lia].
    apply lookup_lt_is_Some. now exists b. }
  destruct In1 as [b1 E1].
  assert (T1 : hotswitch_tween g1 = Some (FadeOut, bot))
    by (unfold switching in S1; congruence).
  assert (G2 : g2 = swap bot g1).
  { unfold g2. cbn [step]. unfold tween_onComplete. now rewrite T1. }
  destruct (swap_exchange bot b1 g1 E1) as (S2 & P2 & B2).
  rewrite <- G2 in S2, P2, B2.
  assert (S2' : switching g2 = (true, Some (FadeIn, bot), S (swap_calls (calls g)))).
  { rewrite S2. unfold switching in S1. injection S1 as -> _ ->. reflexivity. }
  assert (Hs2 : _hotswitching g2 = true) by (unfold switching in S2'; congruence).
  destruct (run_switching evs2 g2 Q2 Hs2) as [S3 _].
  change (run evs2 g2) with g3 in S3. rewrite S2' in S3.
  assert (T3 : hotswitch_tween g3 = Some (FadeIn, bot))
    by (unfold switching in S3; congruence).
  assert (S4 : switching g4 = (false, None, S (swap_calls (calls g)))).
  { unfold g4. cbn [step]. unfold tween_onComplete. rewrite T3.
    unfold switching in S3 |- *. injection S3 as _ _ <-. reflexivity. }
  split; [exact S4|]. split; [exact Acc|]. split; [exact S1|].
  split; [exact S2'|]. split; [exact S3|]. split.
  - eexists b1, _. split; [exact E1|]. split; [exact B2|].
    rewrite P2. repeat split; reflexivity.
  - intros h k p Busy. cbn [step]. unfold onChildInputDown_dispatch.
    destruct (onChildInputDown h); [|repeat split; reflexivity].
    destruct (_groups_bots h !! k); [|repeat split; reflexivity].
    destruct (hotswitch_rejected k p h Busy) as [-> | ->]; repeat split; reflexivity.
Qed.

(** ** The owners of the bullets *)

Lemma owned_mono n m grp b : (n <= m)%nat -> owned n grp b -> owned m grp b.
Proof.
  intros L O A. specialize (O A). destruct grp; [exact O|].
  destruct O as (i & Li & E). exists i. split; [lia|exact E].
Qed.

Lemma owners_valid_mono n m (a : @Arena R) :
  (n <= m)%nat -> owners_valid n a -> owners_valid m a.
Proof.
  intros L V grp. apply Forall_lookup. intros i b E.
  apply (owned_mono n m grp b L). exact (proj1 (Forall_lookup _ _) (V grp) i b E).
Qed.

Lemma sound_mono n m (a0 a : @Arena R) :
  (n <= m)%nat -> sound n a0 a -> sound m a0 a.
Proof. intros L [V K]. split; [now apply (owners_valid_mono n)|exact K]. Qed.

Lemma sound_same n (a0 a a' : @Arena R) :
  (forall grp, get_bullets grp a' = get_bullets grp a) ->
  sound n a0 a -> sound n a0 a'.
Proof.
  intros E [V K]. split.
  - intros grp. rewrite E. apply V.
  - intros grp i b Eb A. rewrite E. now apply K.
Qed.

Lemma sound_refl n (a : @Arena R) : owners_valid n a -> sound n a a.
Proof. intros V. split; [exact V|]. intros grp i b E _. exact E. Qed.

Lemma munitions_bullets (a a' : @Arena R) :
  munitions a' = munitions a -> forall grp, get_bullets grp a' = get_bullets grp a.
Proof.
  unfold munitions. intros E grp. injection E as E1 E2 _ _ _ _ _.
  destruct grp; assumption.
Qed.

Lemma get_bullets_set_rnd grp r (a : @Arena R) :
  get_bullets grp (set_rnd r a) = get_bullets grp a.
Proof. destruct grp; reflexivity. Qed.

Lemma set_rnd_sound n r (a0 a : @Arena R) :
  sound n a0 a -> sound n a0 (set_rnd r a).
Proof. apply sound_same. intros []; reflexivity. Qed.

Lemma put_weapon_sound n w o (a0 a : @Arena R) :
  sound n a0 a -> sound n a0 (put_weapon w o a).
Proof. apply sound_same. intros []; destruct w; reflexivity. Qed.

Lemma dead_owned n grp b : bullet_alive b = false -> owned n grp b.
Proof. intros D A. congruence. Qed.

Lemma fired_owned n grp e s rot b : may_fire n grp e -> owned n grp (fired_Bullet e s rot b).
Proof.
  intros M _. destruct grp, e as [|j]; cbn in M |- *; try contradiction.
  - reflexivity.
  - exists j. split; [exact M|reflexivity].
Qed.

(** The bullet that [getFirstExists] hands out is dead. *)
Lemma getFirstExists_sound n grp (a0 a : @Arena R) :
  sound n a0 a ->
  sound n a0 (snd (getFirstExists grp a))
  /\ exists d,
       get_bullets grp (snd (getFirstExists grp a)) !! fst (getFirstExists grp a)
       = Some d
       /\ bullet_alive d = false.
Proof.
  intros [V K]. unfold getFirstExists.
  destruct (list_find _ _) as [[i b]|] eqn:F.
  - cbn [fst snd]. split; [now split|].
    apply list_find_Some in F as (E & D & _). now exists b.
  - cbn [fst snd BulletGroup_create].
    assert (Same : get_bullets grp
                     (set_Bullet_count (S (Bullet_count a))
                        (set_bullets grp
                           (get_bullets grp a ++ [new_Bullet (Bullet_count a)]) a))
                   = get_bullets grp a ++ [new_Bullet (Bullet_count a)])
      by (destruct grp; reflexivity).
    assert (Other : forall grp', grp <> grp' ->
                      get_bullets grp'
                        (set_Bullet_count (S (Bullet_count a))
                           (set_bullets grp
                              (get_bullets grp a ++ [new_Bullet (Bullet_count a)]) a))
                      = get_bullets grp' a)
      by (intros grp' N; destruct grp, grp'; try reflexivity; congruence).
    split; [split|].
    + intros grp'. destruct (decide (grp = grp')) as [<-|N].
      * rewrite Same. apply Forall_app. split; [apply V|].
        apply Forall_cons. split; [now apply dead_owned|constructor].
      * rewrite (Other grp' N). apply V.
    + intros grp' i b E A. destruct (decide (grp = grp')) as [<-|N].
      * rewrite Same. apply lookup_app_l_Some. now apply K.
      * rewrite (Other grp' N). now apply K.
    + exists (new_Bullet (Bullet_count a)). rewrite Same.
      split; [now apply list_lookup_middle|reflexivity].
Qed.

(** Firing a dead bullet leaves the living ones alone. *)
Lemma Bullet_fire_sound n grp i e s rot (a0 a : @Arena R) :
  may_fire n grp e ->
  (exists d, get_bullets grp a !! i = Some d /\ bullet_alive d = false) ->
  sound n a0 a -> sound n a0 (Bullet_fire (grp, i) e s rot a).
Proof.
  intros M (d & Ed & Dd) [V K]. unfold Bullet_fire. cbn [fst snd]. rewrite Ed.
  split.
  - intros grp'. rewrite get_bullets_set_painter.
    destruct (decide (grp = grp')) as [<-|N].
    + rewrite get_set_bullets. apply Forall_insert; [apply V|now apply fired_owned].
    + rewrite get_set_bullets_ne by exact N. apply V.
  - intros grp' j b E A. rewrite get_bullets_set_painter.
    pose proof (K grp' j b E A) as E'.
    destruct (decide (grp = grp')) as [<-|N].
    + rewrite get_set_bullets. rewrite list_lookup_insert_ne; [exact E'|].
      intros <-. congruence.
    + now rewrite get_set_bullets_ne by exact N.
Qed.

Lemma Bullet_kill_owners n ref (a : @Arena R) :
  owners_valid n a -> owners_valid n (Bullet_kill ref a).
Proof.
  intros V. unfold Bullet_kill.
  destruct (get_bullets ref.1 a !! ref.2) as [b|]; [|exact V].
  intros grp'. rewrite get_bullets_set_painter.
  destruct (decide (ref.1 = grp')) as [<-|N].
  - rewrite get_set_bullets. apply Forall_insert; [apply V|now apply dead_owned].
  - rewrite get_set_bullets_ne by exact N. apply V.
Qed.

(** One bullet taken from the group, a draw in between or not, and
    fired. *)
Lemma take_and_fire_sound n grp e s rot r (a0 a : @Arena R) :
  may_fire n grp e -> sound n a0 a ->
  sound n a0 (Bullet_fire (grp, fst (getFirstExists grp a)) e s rot
                (set_rnd r (snd (getFirstExists grp a)))).
Proof.
  intros M V. destruct (getFirstExists_sound n grp a0 a V) as [V1 D1].
  apply Bullet_fire_sound; [exact M| |now apply set_rnd_sound].
  now rewrite get_bullets_set_rnd.
Qed.

Lemma shoot_sound n grp e s rot (a0 a : @Arena R) :
  may_fire n grp e -> sound n a0 a -> sound n a0 (shoot grp e s rot a).
Proof.
  intros M V. unfold shoot.
  destruct (getFirstExists_sound n grp a0 a V) as [V1 D1].
  destruct (getFirstExists grp a) as [i a1]. now apply Bullet_fire_sound.
Qed.

Lemma Blunderbuss_loop_sound n k grp e rot ox oy (a0 : @Arena R) :
  may_fire n grp e ->
  forall f s (a : @Arena R),
    sound n a0 a ->
    sound n a0 (snd (Blunderbuss_loop k grp e rot ox oy f s a)).
Proof.
  intros M. induction k as [|k IH]; intros f s a V; [exact V|].
  cbn [Blunderbuss_loop].
  pose proof (fun rt r => take_and_fire_sound n grp e s rt r a0 a M V) as V1.
  destruct (getFirstExists grp a) as [i a1]. cbn [draw fst snd] in *.
  apply IH. apply V1.
Qed.

Lemma DbShotgun_loop_sound n steps grp e x0 y0 rot ox oy (a0 : @Arena R) :
  may_fire n grp e ->
  forall s (a : @Arena R),
    sound n a0 a ->
    sound n a0 (snd (DbShotgun_loop steps grp e x0 y0 rot ox oy s a)).
Proof.
  intros M. induction steps as [|z steps IH]; intros s a V; [exact V|].
  cbn [DbShotgun_loop]. cbn zeta.
  pose proof (fun s1 rt r => take_and_fire_sound n grp e s1 rt r a0 a M V) as V1.
  destruct (getFirstExists grp a) as [i a1]. cbn [draw fst snd] in *.
  apply IH. apply V1.
Qed.

Lemma Weapon_fire_sound n w e s (a0 a : @Arena R) :
  may_fire n (weapon_bullets w) e ->
  sound n a0 a -> sound n a0 (snd (Weapon_fire w e s a)).
Proof.
  intros M V. unfold Weapon_fire.
  set (grp := weapon_bullets w) in *.
  destruct (kind (get_weapon w a)).
  - now apply shoot_sound.
  - unfold Burst_fire. cbn [snd]. apply shoot_sound; [exact M|].
    now apply shoot_sound.
  - unfold Burst3_fire. cbn [snd]. apply shoot_sound; [exact M|].
    apply shoot_sound; [exact M|]. now apply shoot_sound.
  - unfold Blunderbuss_fire. cbn zeta.
    match goal with |- context [Blunderbuss_loop ?k ?g0 ?e0 ?r ?ox ?oy ?f ?s0 ?a1] =>
      pose proof (Blunderbuss_loop_sound n k g0 e0 r ox oy a0 M f s0 a1 V) as V1;
      destruct (Blunderbuss_loop k g0 e0 r ox oy f s0 a1) as [s2 a2] end.
    exact V1.
  - unfold Shotgun_fire. cbn zeta.
    pose proof (fun rt r => take_and_fire_sound n grp e s rt r a0 a M V) as V1.
    destruct (getFirstExists grp a) as [i1 a1]. cbn [draw fst snd] in *.
    match goal with |- context [Bullet_fire (grp, i1) e s ?rt (set_rnd ?r a1)] =>
      specialize (V1 rt r); set (a2 := Bullet_fire (grp, i1) e s rt (set_rnd r a1)) in *
    end.
    pose proof (fun rt r => take_and_fire_sound n grp e s rt r a0 a2 M V1) as V2.
    destruct (getFirstExists grp a2) as [i2 a3]. cbn [draw fst snd] in *.
    match goal with |- context [Bullet_fire (grp, i2) e s ?rt (set_rnd ?r a3)] =>
      specialize (V2 rt r); set (a4 := Bullet_fire (grp, i2) e s rt (set_rnd r a3)) in *
    end.
    pose proof (fun rt r => take_and_fire_sound n grp e s rt r a0 a4 M V2) as V3.
    destruct (getFirstExists grp a4) as [i3 a5]. cbn [draw fst snd] in *.
    apply V3.
  - unfold DbShotgun_fire. cbn zeta.
    match goal with |- context [DbShotgun_loop ?st ?g0 ?e0 ?x0 ?y0 ?r ?ox ?oy ?s0 ?a1] =>
      pose proof (DbShotgun_loop_sound n st g0 e0 x0 y0 r ox oy a0 M s0 a1 V) as V1;
      destruct (DbShotgun_loop st g0 e0 x0 y0 r ox oy s0 a1) as [s2 a2] end.
    exact V1.
  - unfold Rifle_fire. cbn [draw fst snd]. cbn zeta.
    match goal with |- context [shoot grp ?e0 ?s0 ?r ?a1] =>
      assert (V1 : sound n a0 (shoot grp e0 s0 r a1))
        by (apply shoot_sound; [exact M|now apply set_rnd_sound]);
      set (a2 := shoot grp e0 s0 r a1) in * end.
    destruct (0 <? _)%Z; cbn [draw fst snd]; apply put_weapon_sound;
      [now apply set_rnd_sound|exact V1].
Qed.

Lemma LiveSprite_fire_sound n e s (a0 a : @Arena R) :
  (forall w, weapon s = Some w -> may_fire n (weapon_bullets w) e) ->
  sound n a0 a -> sound n a0 (snd (LiveSprite_fire e s a)).
Proof.
  intros M V. unfold LiveSprite_fire. destruct (weapon s) as [w|].
  - pose proof (Weapon_fire_sound n w e s a0 a (M w eq_refl) V) as V1.
    destruct (Weapon_fire w e s a) as [s1 a1]. exact V1.
  - revert V. apply sound_same. intros []; reflexivity.
Qed.

Lemma bot_may_fire n i s :
  (i < n)%nat -> weapon s <> Some PlayerWeapon ->
  forall w, weapon s = Some w -> may_fire n (weapon_bullets w) (BotRef i).
Proof. intros L N w E. destruct w; [congruence|exact L]. Qed.

Lemma Bot_fire_sound n i s (a0 a : @Arena R) :
  (i < n)%nat -> weapon s <> Some PlayerWeapon ->
  sound n a0 a -> sound n a0 (snd (Bot_fire i s a)).
Proof.
  intros L N V. unfold Bot_fire. cbn [draw fst snd]. cbn zeta.
  match goal with |- context [LiveSprite_fire ?e0 ?s0 ?a1] =>
    pose proof (LiveSprite_fire_sound n e0 s0 a0 a1 (bot_may_fire n i s0 L N)
                  (set_rnd_sound n _ a0 a V)) as V1;
    destruct (LiveSprite_fire e0 s0 a1) as [s1 a2] end.
  exact V1.
Qed.

Lemma Bot__fire_sound n i lvl s (a0 a : @Arena R) :
  (i < n)%nat -> weapon s <> Some PlayerWeapon ->
  sound n a0 a -> sound n a0 (snd (Bot__fire i lvl s a)).
Proof.
  intros L N V. unfold Bot__fire. cbn [draw fst snd].
  destruct (Qleb _ _).
  - destruct (weapon s); cbn [draw fst snd].
    + do 2 apply set_rnd_sound. exact V.
    + revert V. apply sound_same. intros []; reflexivity.
  - apply Bot_fire_sound; [exact L|exact N|now apply set_rnd_sound].
Qed.

Lemma Bot_advance_sound n i inp e speed lvl player fired b (a0 a : @Arena R) :
  (i < n)%nat -> bot_armed b ->
  sound n a0 a ->
  sound n a0 (snd (Bot_advance i inp e speed lvl player fired b a)).
Proof.
  intros L N V. unfold Bot_advance.
  set (s := Bot_aim e player (bot_sprite b)).
  assert (V1 : sound n a0
                 (snd (if Bot_ready player s then Bot__fire i lvl s a else (s, a)))).
  { destruct (Bot_ready player s); [|exact V]. now apply Bot__fire_sound. }
  destruct (if Bot_ready player s then Bot__fire i lvl s a else (s, a)) as [s1 a1].
  cbn [snd] in V1.
  destruct (Bot_steer_vitals inp e speed lvl player fired (move b) s1 a1) as (_ & M & _).
  destruct (Bot_steer inp e speed lvl player fired (move b) s1 a1) as [s2 a2].
  cbn [snd] in *. revert V1. apply sound_same. now apply munitions_bullets.
Qed.

Lemma BotGroup_advance_child_kept inp e speed lvl fired a0 (g : @Game R) i :
  kept_from a0 g -> kept_from a0 (BotGroup_advance_child inp e speed lvl fired g i).
Proof.
  intros [(V & W & Arm) K]. unfold BotGroup_advance_child.
  destruct (_groups_bots g !! i) as [b|] eqn:E; [|now repeat split].
  destruct (alive (bot_sprite b)); [|now repeat split].
  assert (L : (i < length (_groups_bots g))%nat)
    by (apply lookup_lt_is_Some; now exists b).
  assert (Ab : bot_armed b) by exact (proj1 (Forall_lookup _ _) Arm i b E).
  pose proof (Bot_advance_sound _ i inp e speed lvl
                (player_sprite (_sprites_player g)) fired b a0 (arena g) L Ab
                (conj V K)) as [V1 K1].
  destruct (Bot_advance_bot i inp e speed lvl (player_sprite (_sprites_player g))
              fired b (arena g)) as (_ & Wb & _).
  destruct (Bot_advance i inp e speed lvl (player_sprite (_sprites_player g)) fired b
              (arena g)) as [b' a'].
  cbn [fst snd] in *. unfold kept_from, owners_kept.
  cbn [_groups_bots arena _sprites_player set__groups_bots set_arena].
  rewrite length_insert. split; [|exact K1]. split; [exact V1|]. split; [exact W|].
  apply Forall_insert; [exact Arm|]. unfold bot_armed in *. now rewrite Wb.
Qed.

Lemma BotGroup_advance_kept inp e speed lvl fired a0 (g : @Game R) :
  kept_from a0 g -> kept_from a0 (BotGroup_advance inp e speed lvl fired g).
Proof.
  unfold BotGroup_advance. generalize (seq 0 (length (_groups_bots g))).
  intros idx. revert g. induction idx as [|i idx IH]; intros g K; [exact K|].
  cbn [fold_left]. apply IH. now apply BotGroup_advance_child_kept.
Qed.

Lemma update_fire_kept inp a0 (g : @Game R) :
  kept_from a0 g -> kept_from a0 (snd (update_fire inp g)).
Proof.
  intros [(V & W & Arm) K]. unfold update_fire.
  destruct (_ || _); [|now repeat split].
  unfold _firePlayerBullet. destruct (_ || _); [now repeat split|].
  assert (M : forall w, weapon (player_sprite (_sprites_player g)) = Some w ->
                        may_fire (length (_groups_bots g)) (weapon_bullets w) PlayerRef).
  { intros w E. rewrite W in E. injection E as <-. exact I. }
  pose proof (LiveSprite_fire_sound _ PlayerRef _ a0 (arena g) M (conj V K)) as [V1 K1].
  pose proof (LiveSprite_fire_stance PlayerRef (player_sprite (_sprites_player g))
                (arena g)) as St.
  destruct (LiveSprite_fire PlayerRef (player_sprite (_sprites_player g)) (arena g))
    as [s a].
  cbn [fst snd] in *. unfold stance in St. injection St as _ Ws _ _ _ _.
  split; [|exact K1]. split; [exact V1|]. split; [|exact Arm].
  cbn. congruence.
Qed.

Lemma update_player_kept inp moved e a0 (g : @Game R) :
  kept_from a0 g -> kept_from a0 (snd (update_player inp moved e g)).
Proof.
  intros K. unfold update_player.
  destruct (alive (player_sprite (_sprites_player g))); [|exact K].
  pose proof (update_fire_kept inp a0 g K) as K1.
  destruct (update_fire inp g) as [fired g1]. cbn [snd] in *.
  destruct K1 as [(V & W & Arm) K1].
  split; [|exact K1]. split; [exact V|]. split; [|exact Arm].
  cbn [_sprites_player set__sprites_player].
  match goal with |- context [Player_advance ?m ?d ?t ?p] =>
    destruct (Player_advance_spec m d t p) as (_ & _ & -> & _) end.
  destruct (_ && _); [|exact W].
  destruct (Player_dodge_spec (Math_atan2 (0 - verVec_y inp) (horVec_x inp - 0))
              (_sprites_player g1)) as (Vi & _).
  unfold vitals in Vi. injection Vi as _ Wd _ _. congruence.
Qed.

Lemma _spawnBot_kept closer a0 (g : @Game R) :
  kept_from a0 g -> kept_from a0 (_spawnBot closer g).
Proof.
  intros [(V & W & Arm) K].
  destruct (_spawnBot_spec closer g) as (r & L & -> & _ & Len & _ & New).
  unfold kept_from, owners_kept.
  cbn [_groups_bots arena _sprites_player set__groups_bots set_arena set__counts_bots].
  destruct (set_rnd_sound (length L) r a0 (arena g)
              (sound_mono _ _ a0 (arena g) Len (conj V K))) as [V1 K1].
  split; [|exact K1]. split; [exact V1|]. split; [exact W|].
  apply Forall_lookup. intros j b E. destruct (New j b E) as [[k Wk]|Old].
  - unfold bot_armed. rewrite Wk. discriminate.
  - exact (proj1 (Forall_lookup _ _) Arm j b Old).
Qed.

Lemma update_spawn_kept e a0 (g : @Game R) :
  kept_from a0 g -> kept_from a0 (update_spawn e g).
Proof.
  intros K. unfold update_spawn.
  destruct (0 <? _counts_bots g)%Z; [|exact K].
  cbn zeta. destruct (Qleb _ _); [|exact K].
  match goal with |- context [_spawnBot false ?g0] =>
    assert (K1 : kept_from a0 (_spawnBot false g0)) by (apply _spawnBot_kept; exact K);
    set (g1 := _spawnBot false g0) in * end.
  cbn [draws draw fst snd]. destruct K1 as [(V & W & Arm) K1].
  destruct (set_rnd_sound _ (snd (realInRange
              (Math_max (12 / 10 - 10 / 1000 * inject_Z (level g1)) (5 / 10))
              (Math_max (18 / 10 - 15 / 1000 * inject_Z (level g1)) (5 / 10))
              (rnd (arena g1)))) a0 (arena g1) (conj V K1)) as [V2 K2].
  split; [|exact K2]. split; [exact V2|]. split; [exact W|exact Arm].
Qed.

Lemma BulletGroup_advance_owned n grp speed l :
  Forall (owned n grp) l -> Forall (owned n grp) (BulletGroup_advance speed l).
Proof.
  intros F. unfold BulletGroup_advance. induction F as [|b l O F IH]; [constructor|].
  cbn [map]. apply Forall_cons. split; [|exact IH].
  destruct (bullet_alive b) eqn:A; exact O.
Qed.

Lemma BulletGroup_advance_lookup speed l : forall i b,
  l !! i = Some b ->
  exists b', BulletGroup_advance speed l !! i = Some b' /\ owner b' = owner b.
Proof.
  unfold BulletGroup_advance. induction l as [|c l IH]; intros i b E; [discriminate|].
  destruct i as [|i]; cbn [map].
  - injection E as ->. eexists. split; [reflexivity|].
    destruct (bullet_alive b); reflexivity.
  - now apply IH.
Qed.

Lemma update_kept inp (g : @Game R) :
  owners_kept g -> owners_kept (update inp g) /\ owners_stay g (update inp g).
Proof.
  intros K. unfold update. destruct (superhot g).
  { split; [exact K|]. intros grp i b E _. now exists b. }
  cbn zeta. fold (update_turned inp g).
  assert (K0 : kept_from (arena g) (update_turned inp g)).
  { destruct K as (V & W & Arm). split; [|intros grp i b E _; exact E].
    split; [exact V|]. split; [exact W|exact Arm]. }
  pose proof (update_player_kept inp (playerMoved_of inp g) (elapsedTime_of inp g)
                (arena g) (update_turned inp g) K0) as K1.
  destruct (update_player inp (playerMoved_of inp g) (elapsedTime_of inp g)
              (update_turned inp g)) as [fired g2].
  cbn [snd] in K1.
  set (g3 := if negb (_hotswitching g2) then _ else g2).
  assert (K3 : kept_from (arena g) g3) by (subst g3; destruct (negb _); exact K1).
  pose proof (update_spawn_kept (elapsedTime_of inp g) (arena g) g3 K3) as K4.
  set (g4 := update_spawn (elapsedTime_of inp g) g3) in *.
  pose proof (BotGroup_advance_kept inp (elapsedTime_of inp g) (botSpeed_of inp g)
                (level g4) fired (arena g) g4 K4) as [(V & W & Arm) K5].
  set (g5 := BotGroup_advance _ _ _ _ _ g4) in *.
  split.
  - split; [|split; [exact W|exact Arm]].
    intros grp. pose proof (V PlayerBullets) as VP. pose proof (V BotBullets) as VB.
    destruct grp; cbn; now apply BulletGroup_advance_owned.
  - intros grp i b E A. pose proof (K5 grp i b E A) as E5.
    destruct grp; cbn; now apply BulletGroup_advance_lookup.
Qed.

Lemma Bullet_kill_stay ref (a : @Arena R) grp i b :
  get_bullets grp a !! i = Some b ->
  exists b', get_bullets grp (Bullet_kill ref a) !! i = Some b' /\ owner b' = owner b.
Proof.
  intros E. unfold Bullet_kill.
  destruct (get_bullets ref.1 a !! ref.2) as [d|] eqn:Ed; [|now exists b].
  rewrite get_bullets_set_painter.
  destruct (decide (ref.1 = grp)) as [<-|N].
  - rewrite get_set_bullets. destruct (decide (ref.2 = i)) as [<-|Ni].
    + exists (set_bullet_alive false d).
      split; [|rewrite E in Ed; injection Ed as ->; reflexivity].
      apply list_lookup_insert_eq. apply lookup_lt_is_Some. now exists d.
    + exists b. now rewrite list_lookup_insert_ne.
  - exists b. now rewrite get_set_bullets_ne.
Qed.

Lemma owners_stay_refl (g g' : @Game R) : arena g' = arena g -> owners_stay g g'.
Proof. intros E grp i b Eb _. exists b. now rewrite E. Qed.

Lemma owners_stay_trans (g1 g2 g3 : @Game R) :
  (forall grp i b, get_bullets grp (arena g2) !! i = Some b ->
     exists b', get_bullets grp (arena g3) !! i = Some b' /\ owner b' = owner b) ->
  owners_stay g1 g2 -> owners_stay g1 g3.
Proof.
  intros S23 S12 grp i b E A. destruct (S12 grp i b E A) as (b2 & E2 & O2).
  destruct (S23 grp i b2 E2) as (b3 & E3 & O3). exists b3. split; [exact E3|congruence].
Qed.

Lemma _lose_kept bullet (g : @Game R) : owners_kept g -> owners_kept (_lose bullet g).
Proof.
  intros (V & W & Arm). unfold _lose.
  destruct (get_bullets _ _ !! _); [|now split].
  cbn zeta.
  repeat match goal with |- context [if ?c then _ else _] => destruct c end;
    (split; [first [exact V | exact (Bullet_kill_owners _ bullet _ V)]
            |split; [exact W|exact Arm]]).
Qed.

Lemma _botKillHandler_kept bot bullet (g : @Game R) :
  owners_kept g -> owners_kept (_botKillHandler bot bullet g).
Proof.
  intros (V & W & Arm). unfold _botKillHandler.
  destruct (_groups_bots g !! bot); [|now split].
  destruct (negb _); [now split|]. cbn zeta.
  assert (K : owners_kept (set_arena (Bullet_kill bullet (arena (kill_bot bot g)))
                             (kill_bot bot g))).
  { unfold owners_kept, kill_bot.
    cbn [_groups_bots arena _sprites_player set__groups_bots set_arena].
    rewrite length_alter. split; [now apply Bullet_kill_owners|].
    split; [exact W|]. apply Forall_alter; [exact Arm|].
    intros c _ A. exact A. }
  destruct (superhot _); [|exact K].
  destruct K as (V1 & W1 & Arm1). split; [exact V1|]. split; [exact W1|exact Arm1].
Qed.

Lemma groupCallback_kept a b (g : @Game R) :
  owners_kept g -> owners_kept (groupCallback a b g).
Proof.
  intros K. unfold groupCallback.
  destruct a as [|i|m], b as [|j|o]; try exact K.
  - destruct (bool_decide _); [now apply _lose_kept|exact K].
  - now apply _botKillHandler_kept.
  - destruct K as (V & W & Arm). split; [|split; [exact W|exact Arm]].
    exact (Bullet_kill_owners _ m _ V).
Qed.

(** A contact kills bullets and changes nothing else about them. *)
Lemma groupCallback_stay a b (g : @Game R) grp i c :
  get_bullets grp (arena g) !! i = Some c ->
  exists c', get_bullets grp (arena (groupCallback a b g)) !! i = Some c'
             /\ owner c' = owner c.
Proof.
  intros E. unfold groupCallback.
  destruct a as [|j|m], b as [|k|o]; try (now exists c).
  - destruct (bool_decide _); [|now exists c].
    unfold _lose. destruct (get_bullets o.1 (arena g) !! o.2); [|now exists c].
    cbn zeta.
    repeat match goal with |- context [if ?t then _ else _] => destruct t end;
      first [now exists c | exact (Bullet_kill_stay _ (arena g) grp i c E)].
  - unfold _botKillHandler. destruct (_groups_bots g !! j); [|now exists c].
    destruct (negb _); [now exists c|]. cbn zeta.
    destruct (superhot _); exact (Bullet_kill_stay _ (arena g) grp i c E).
  - exact (Bullet_kill_stay _ (arena g) grp i c E).
Qed.

Lemma set_bullet_pos_owned n grp px py l i :
  Forall (owned n grp) l -> Forall (owned n grp) (alter (set_bullet_pos px py) i l).
Proof. intros F. apply Forall_alter; [exact F|]. intros b _ O. exact O. Qed.

Lemma step_kept (g : @Game R) ev :
  owners_kept g -> owners_kept (step g ev) /\ owners_stay g (step g ev).
Proof.
  intros K. destruct ev as [inp|a b|bot ptr| |bullet|who px py]; cbn [step].
  - now apply update_kept.
  - unfold impact. split; [now do 2 apply groupCallback_kept|].
    apply (owners_stay_trans g (groupCallback a b g)).
    + intros grp i c. apply groupCallback_stay.
    + intros grp i c E _. now apply groupCallback_stay.
  - split; [|apply owners_stay_refl];
      unfold onChildInputDown_dispatch, hotswitch;
      repeat match goal with
             | |- context [if ?c then _ else _] => destruct c
             | |- context [match ?c with Some _ => _ | None => _ end] => destruct c
             end; first [exact K|reflexivity].
  - unfold tween_onComplete.
    destruct (hotswitch_tween g) as [[[] i]|];
      try (split; [exact K|now apply owners_stay_refl]).
    unfold swap. destruct (_groups_bots g !! i) as [b|] eqn:E;
      [|split; [exact K|now apply owners_stay_refl]].
    split; [|now apply owners_stay_refl].
    destruct K as (V & W & Arm). unfold owners_kept. cbn zeta.
    cbn [_groups_bots arena _sprites_player set__groups_bots set_arena
         set_hotswitch_tween set__next_hotSwitch set_calls set__sprites_player].
    rewrite length_insert. split; [exact V|]. split; [exact W|].
    apply Forall_insert; [exact Arm|].
    exact (proj1 (Forall_lookup _ _) Arm i b E).
  - destruct K as (V & W & Arm). cbn [arena set_arena _groups_bots].
    unfold Bullet_preUpdate_outside.
    destruct (get_bullets _ _ !! _) as [b|];
      [|split; [now repeat split|now apply owners_stay_refl]].
    destruct (bullet_alive b);
      [|split; [now repeat split|now apply owners_stay_refl]].
    split.
    + split; [|split; [exact W|exact Arm]]. now apply Bullet_kill_owners.
    + intros grp i c E _. now apply Bullet_kill_stay.
  - destruct K as (V & W & Arm). unfold moved. destruct who as [|i|bullet].
    + split; [|now apply owners_stay_refl].
      split; [exact V|]. split; [exact W|exact Arm].
    + split; [|now apply owners_stay_refl]. unfold owners_kept.
      cbn [_groups_bots arena _sprites_player set__groups_bots].
      rewrite length_alter. split; [exact V|]. split; [exact W|].
      apply Forall_alter; [exact Arm|]. intros b _ A. exact A.
    + split.
      * split; [|split; [exact W|exact Arm]].
        cbn [arena set_arena _groups_bots]. intros grp.
        destruct (decide (bullet.1 = grp)) as [<-|N].
        -- rewrite get_set_bullets. apply set_bullet_pos_owned, V.
        -- rewrite get_set_bullets_ne by exact N. apply V.
      * intros grp i c E _. cbn [arena set_arena].
        destruct (decide (bullet.1 = grp)) as [<-|N].
        -- rewrite get_set_bullets. destruct (decide (bullet.2 = i)) as [<-|Ni].
           ++ rewrite list_lookup_alter_eq, E. eexists. split; reflexivity.
           ++ rewrite list_lookup_alter_ne by exact Ni. now exists c.
        -- rewrite get_set_bullets_ne by exact N. now exists c.
Qed.

Lemma start_kept (r : R) stored lvl muts guns :
  owners_kept (start r stored lvl muts guns).
Proof.
  destruct (start_spec r stored lvl muts guns)
    as (_ & _ & _ & _ & _ & _ & _ & _ & PB & BB & _ & W & Arm).
  split; [|split; [exact W|exact Arm]].
  intros []; cbn [get_bullets]; [rewrite PB|rewrite BB]; constructor.
Qed.

Lemma run_kept (r : R) stored lvl muts guns evs :
  owners_kept (run evs (start r stored lvl muts guns)).
Proof.
  apply (run_invariant owners_kept); [intros g ev K; now apply step_kept|].
  apply start_kept.
Qed.



End Properties.

(** * Further properties of the simulation *)

Section Further.

Context {R : Type} `{RandomDataGenerator R} `{Trigonometry}.

(** ** Time *)

Lemma speed_ratio (g : @Game R) a m r :
  0 <= _getSpeed g a m r speeds_bullet / normal speeds_bullet
  /\ _getSpeed g a m r speeds_bullet / normal speeds_bullet <= 1
  /\ 0 <= _getSpeed g a m r speeds_bot
  /\ _getSpeed g a m r speeds_bot <= normal speeds_bot.
Proof.
  unfold _getSpeed.
  destruct a, m, (freezetime (_mutators g)), (fasttime (_mutators g)), r;
    cbn [negb]; repeat split; vm_compute; discriminate.
Qed.

(** X1: the game's clock never runs backwards and never faster than the
    physics clock: the elapsed time that [update] computes lies between
    zero and the physics time of the frame, whatever the controls and the
    mutators.  It is the physics time itself when the living player moves
    (or dodges), and the bots never move faster than their normal speed. *)
Theorem dilated_time_within_physics_time :
  forall (inp : Input) (g : @Game R),
    0 <= physicsElapsed inp ->
    0 <= elapsedTime_of inp g
    /\ elapsedTime_of inp g <= physicsElapsed inp
    /\ (alive (player_sprite (_sprites_player g)) = true ->
        playerMoved_of inp g = true ->
        elapsedTime_of inp g == physicsElapsed inp)
    /\ 0 <= botSpeed_of inp g
    /\ botSpeed_of inp g <= normal speeds_bot.
Proof.
  intros inp g P. unfold elapsedTime_of, bulletSpeed_of, botSpeed_of.
  destruct (speed_ratio g (alive (player_sprite (_sprites_player g)))
              (playerMoved_of inp g) (playerRotated_of inp g)) as (Lo & Hi & BLo & BHi).
  set (q := _getSpeed g _ _ _ speeds_bullet / normal speeds_bullet) in *.
  split; [nra|]. split; [nra|]. split; [|split; [exact BLo|exact BHi]].
  intros A M. subst q. rewrite A, M. unfold _getSpeed. cbn [negb].
  assert (One : normal speeds_bullet / normal speeds_bullet == 1)
    by (vm_compute; reflexivity).
  rewrite One. ring.
Qed.

(** ** A bot that is not ready *)

(** X2: a bot that, once its cooldown has run for the frame, is still
    cooling down, or that is not closer to the player than the firing
    range, fires nothing: the bullet groups, the weapons, the trails and
    the bullet counter are as before, and its cooldown is the old one less
    the elapsed time. *)
Theorem bot_not_ready_holds_fire :
  forall (i : nat) (inp : Input) (e speed : Q) (lvl : Z) (player : LiveSprite)
         (fired : bool) (b : Bot) (a : @Arena R),
    (NATIVE_WIDTH + NATIVE_HEIGHT) / 2 <= distanceBetween (bot_sprite b) player
    \/ 0 < remainingTime (bot_sprite b) - e ->
    munitions (snd (Bot_advance i inp e speed lvl player fired b a)) = munitions a
    /\ remainingTime (bot_sprite (fst (Bot_advance i inp e speed lvl player fired b a)))
       = remainingTime (bot_sprite b) - e
    /\ alive (bot_sprite (fst (Bot_advance i inp e speed lvl player fired b a)))
       = alive (bot_sprite b)
    /\ weapon (bot_sprite (fst (Bot_advance i inp e speed lvl player fired b a)))
       = weapon (bot_sprite b).
Proof.
  intros i inp e speed lvl player fired b a Far. unfold Bot_advance.
  assert (NR : Bot_ready player (Bot_aim e player (bot_sprite b)) = false).
  { unfold Bot_ready. destruct Far as [F|C].
    - assert (Qltb (distanceBetween (Bot_aim e player (bot_sprite b)) player)
                ((NATIVE_WIDTH + NATIVE_HEIGHT) / 2) = false) as ->; [|reflexivity].
      destruct (Qltb _ _) eqn:E; [|reflexivity].
      apply Qltb_spec in E. exfalso.
      apply (Qlt_irrefl (distanceBetween (bot_sprite b) player)).
      eapply Qlt_le_trans; [exact E|exact F].
    - assert (Qleb (remainingTime (Bot_aim e player (bot_sprite b))) 0 = false) as ->;
        [|apply andb_false_r].
      destruct (Qleb _ _) eqn:E; [|reflexivity].
      apply Qleb_spec in E. exfalso.
      apply (Qlt_irrefl 0). eapply Qlt_le_trans; [exact C|exact E]. }
  rewrite NR.
  destruct (Bot_steer_vitals inp e speed lvl player fired (move b)
              (Bot_aim e player (bot_sprite b)) a) as (V & M & _).
  destruct (Bot_steer inp e speed lvl player fired (move b)
              (Bot_aim e player (bot_sprite b)) a) as [s2 a2].
  cbn [fst snd bot_sprite] in *. unfold vitals in V.
  injection V as Va Vw _ Vr.
  split; [exact M|]. split; [exact Vr|]. split; [exact Va|exact Vw].
Qed.

(** ** Shots *)

Lemma living_app l1 l2 : living (l1 ++ l2) = (living l1 + living l2)%nat.
Proof. unfold living. now rewrite List.filter_app, length_app. Qed.

Lemma living_insert_dead l : forall i d b',
  l !! i = Some d -> bullet_alive d = false -> bullet_alive b' = true ->
  living (<[i := b']> l) = S (living l).
Proof.
  induction l as [|c l IH]; intros i d b' E D A; [discriminate|].
  destruct i as [|i].
  - injection E as ->. unfold living. cbn. now rewrite D, A.
  - change (<[S i := b']> (c :: l)) with (c :: <[i := b']> l).
    change (living (c :: <[i := b']> l))
      with (living ([c] ++ <[i := b']> l)).
    change (living (c :: l)) with (living ([c] ++ l)).
    rewrite !living_app, (IH i d b' E D A). lia.
Qed.

Lemma shoot_eq grp e s rot (a : @Arena R) :
  shoot grp e s rot a
  = Bullet_fire (grp, fst (getFirstExists grp a)) e s rot (snd (getFirstExists grp a)).
Proof. unfold shoot. now destruct (getFirstExists grp a). Qed.

(** [getFirstExists] hands out a dead bullet of the group as it is, or
    makes one. *)
Lemma getFirstExists_cases grp (a : @Arena R) :
  (exists d, snd (getFirstExists grp a) = a
             /\ get_bullets grp a !! fst (getFirstExists grp a) = Some d
             /\ bullet_alive d = false)
  \/ (getFirstExists grp a = BulletGroup_create grp a).
Proof.
  unfold getFirstExists. destruct (list_find _ _) as [[i b]|] eqn:F; [left|now right].
  apply list_find_Some in F as (E & D & _). now exists b.
Qed.

Lemma BulletGroup_create_bullets grp (a : @Arena R) :
  get_bullets grp (snd (BulletGroup_create grp a))
  = get_bullets grp a ++ [new_Bullet (Bullet_count a)]
  /\ (forall grp', grp <> grp' ->
        get_bullets grp' (snd (BulletGroup_create grp a)) = get_bullets grp' a)
  /\ get_bullets grp (snd (BulletGroup_create grp a))
       !! fst (BulletGroup_create grp a)
     = Some (new_Bullet (Bullet_count a)).
Proof.
  assert (E : get_bullets grp (snd (BulletGroup_create grp a))
              = get_bullets grp a ++ [new_Bullet (Bullet_count a)])
    by (destruct grp; reflexivity).
  split; [exact E|]. split.
  - intros grp' N. destruct grp, grp'; try reflexivity; congruence.
  - rewrite E. now apply list_lookup_middle.
Qed.

Lemma getFirstExists_dead grp (a : @Arena R) :
  exists d,
    get_bullets grp (snd (getFirstExists grp a)) !! fst (getFirstExists grp a) = Some d
    /\ bullet_alive d = false.
Proof.
  destruct (getFirstExists_cases grp a) as [(d & -> & E & D) | ->]; [now exists d|].
  exists (new_Bullet (Bullet_count a)). split; [apply BulletGroup_create_bullets|].
  reflexivity.
Qed.

Lemma getFirstExists_living grp (a : @Arena R) :
  living (get_bullets grp (snd (getFirstExists grp a))) = living (get_bullets grp a)
  /\ (forall grp', grp <> grp' ->
        get_bullets grp' (snd (getFirstExists grp a)) = get_bullets grp' a).
Proof.
  destruct (getFirstExists_cases grp a) as [(d & -> & _) | ->]; [now split|].
  destruct (BulletGroup_create_bullets grp a) as (-> & O & _).
  split; [|exact O]. rewrite living_app. unfold living at 2. cbn. lia.
Qed.

(** What a run of shots does to the groups and leaves of the rest. *)
Lemma fires_living grp e n (a a' : @Arena R) :
  fires grp e n a a' ->
  living (get_bullets grp a') = (living (get_bullets grp a) + n)%nat
  /\ (forall grp', grp <> grp' -> get_bullets grp' a' = get_bullets grp' a)
  /\ player_weapon a' = player_weapon a
  /\ _weapons a' = _weapons a
  /\ thrown a' = thrown a.
Proof.
  assert (Shot : forall s rot (a1 a2 : @Arena R),
             (forall grp', get_bullets grp' a2
                           = get_bullets grp' (snd (getFirstExists grp a1))) ->
             living (get_bullets grp
                       (Bullet_fire (grp, fst (getFirstExists grp a1)) e s rot a2))
             = S (living (get_bullets grp a1))
             /\ (forall grp', grp <> grp' ->
                   get_bullets grp'
                     (Bullet_fire (grp, fst (getFirstExists grp a1)) e s rot a2)
                   = get_bullets grp' a1)).
  { intros s rot a1 a2 Same.
    destruct (getFirstExists_dead grp a1) as (d & Ed & Dd).
    destruct (getFirstExists_living grp a1) as (L1 & O1).
    unfold Bullet_fire. cbn [fst snd]. rewrite (Same grp), Ed. split.
    - rewrite get_bullets_set_painter, get_set_bullets.
      rewrite (living_insert_dead _ _ d (fired_Bullet e s rot d) Ed Dd eq_refl).
      now rewrite L1.
    - intros grp' N. rewrite get_bullets_set_painter, get_set_bullets_ne by exact N.
      rewrite (Same grp'). now apply O1. }
  induction 1 as [a|n r a a' F IH|n s rot a a' F IH|n s rot r a a' F IH].
  - repeat split; try reflexivity. lia.
  - destruct IH as (L & O & PW & Ws & Th).
    rewrite get_bullets_set_rnd. split; [exact L|].
    split; [intros grp' N; rewrite get_bullets_set_rnd; now apply O|].
    split; [exact PW|]. split; [exact Ws|exact Th].
  - destruct IH as (L & O & PW & Ws & Th).
    destruct (Shot s rot a' (snd (getFirstExists grp a')) (fun _ => eq_refl))
      as (L1 & O1).
    pose proof (getFirstExists_kit grp a') as K1.
    pose proof (Bullet_fire_kit (grp, fst (getFirstExists grp a')) e s rot
                  (snd (getFirstExists grp a'))) as K2.
    unfold kit in K1, K2. injection K1 as _ K1a K1b K1c.
    injection K2 as _ K2a K2b K2c.
    split; [rewrite L1, L; lia|].
    split; [intros grp' N; rewrite (O1 grp' N); now apply O|].
    split; [congruence|]. split; congruence.
  - destruct IH as (L & O & PW & Ws & Th).
    destruct (Shot s rot a' (set_rnd r (snd (getFirstExists grp a')))
                (fun g0 => get_bullets_set_rnd g0 r _)) as (L1 & O1).
    pose proof (getFirstExists_kit grp a') as K1.
    pose proof (Bullet_fire_kit (grp, fst (getFirstExists grp a')) e s rot
                  (set_rnd r (snd (getFirstExists grp a')))) as K2.
    unfold kit in K1, K2. injection K1 as _ K1a K1b K1c.
    injection K2 as _ K2a K2b K2c. cbn in K2a, K2b, K2c.
    split; [rewrite L1, L; lia|].
    split; [intros grp' N; rewrite (O1 grp' N); now apply O|].
    split; [congruence|]. split; congruence.
Qed.

Lemma Blunderbuss_loop_fires k grp e rot ox oy (a0 : @Arena R) :
  forall n f s a,
    fires grp e n a0 a ->
    fires grp e (n + k) a0 (snd (Blunderbuss_loop k grp e rot ox oy f s a)).
Proof.
  induction k as [|k IH]; intros n f s a F.
  - rewrite Nat.add_0_r. exact F.
  - cbn [Blunderbuss_loop].
    pose proof (fun rt r => fires_shot_drawn grp e n s rt r a0 a F) as F1.
    destruct (getFirstExists grp a) as [i a1]. cbn [draw fst snd] in *.
    replace (n + S k)%nat with (S n + k)%nat by lia.
    apply IH. apply F1.
Qed.

Lemma DbShotgun_loop_fires steps grp e x0 y0 rot ox oy (a0 : @Arena R) :
  forall n s a,
    fires grp e n a0 a ->
    fires grp e (n + length steps) a0
      (snd (DbShotgun_loop steps grp e x0 y0 rot ox oy s a)).
Proof.
  induction steps as [|z steps IH]; intros n s a F.
  - cbn [length]. rewrite Nat.add_0_r. exact F.
  - cbn [DbShotgun_loop length]. cbn zeta.
    pose proof (fun s1 rt r => fires_shot_drawn grp e n s1 rt r a0 a F) as F1.
    destruct (getFirstExists grp a) as [i a1]. cbn [draw fst snd] in *.
    replace (n + S (length steps))%nat with (S n + length steps)%nat by lia.
    apply IH. apply F1.
Qed.

(** Every gun is a run of as many shots as it has barrels; the rifle
    writes its next fire rate back after the shot. *)
Lemma Weapon_fire_fires w e s (a : @Arena R) :
  exists a1,
    fires (weapon_bullets w) e (bullets_per_shot (kind (get_weapon w a))) a a1
    /\ (snd (Weapon_fire w e s a) = a1
        \/ (kind (get_weapon w a) = Rifle
            /\ exists o, snd (Weapon_fire w e s a) = put_weapon w o a1)).
Proof.
  unfold Weapon_fire. set (grp := weapon_bullets w).
  destruct (kind (get_weapon w a)) eqn:K; cbn [bullets_per_shot].
  - eexists. split; [|left; unfold Pistol_fire; cbn [snd]; apply shoot_eq].
    apply fires_shot, fires_none.
  - eexists. split; [|left; unfold Burst_fire; cbn [snd]; rewrite !shoot_eq;
                      reflexivity].
    apply fires_shot, fires_shot, fires_none.
  - eexists. split; [|left; unfold Burst3_fire; cbn [snd]; rewrite !shoot_eq;
                      reflexivity].
    apply fires_shot, fires_shot, fires_shot, fires_none.
  - unfold Blunderbuss_fire. cbn zeta.
    match goal with |- context [Blunderbuss_loop ?k ?g0 ?e0 ?r ?ox ?oy ?f ?s0 ?a1] =>
      pose proof (Blunderbuss_loop_fires k g0 e0 r ox oy a 0 f s0 a1
                    (fires_none g0 e0 a)) as F;
      destruct (Blunderbuss_loop k g0 e0 r ox oy f s0 a1) as [s2 a2] end.
    exists a2. split; [exact F|now left].
  - unfold Shotgun_fire. cbn zeta.
    pose proof (fun rt r => fires_shot_drawn grp e 0 s rt r a a (fires_none grp e a))
      as F1.
    destruct (getFirstExists grp a) as [i1 a1]. cbn [draw fst snd] in *.
    match goal with |- context [Bullet_fire (grp, i1) e s ?rt (set_rnd ?r a1)] =>
      specialize (F1 rt r); set (a2 := Bullet_fire (grp, i1) e s rt (set_rnd r a1)) in *
    end.
    pose proof (fun rt r => fires_shot_drawn grp e 1 s rt r a a2 F1) as F2.
    destruct (getFirstExists grp a2) as [i2 a3]. cbn [draw fst snd] in *.
    match goal with |- context [Bullet_fire (grp, i2) e s ?rt (set_rnd ?r a3)] =>
      specialize (F2 rt r); set (a4 := Bullet_fire (grp, i2) e s rt (set_rnd r a3)) in *
    end.
    pose proof (fun rt r => fires_shot_drawn grp e 2 s rt r a a4 F2) as F3.
    destruct (getFirstExists grp a4) as [i3 a5]. cbn [draw fst snd] in *.
    eexists. split; [apply F3|now left].
  - unfold DbShotgun_fire. cbn zeta.
    match goal with |- context [DbShotgun_loop ?st ?g0 ?e0 ?x0 ?y0 ?r ?ox ?oy ?s0 ?a1] =>
      pose proof (DbShotgun_loop_fires st g0 e0 x0 y0 r ox oy a 0 s0 a1
                    (fires_none g0 e0 a)) as F;
      destruct (DbShotgun_loop st g0 e0 x0 y0 r ox oy s0 a1) as [s2 a2] end.
    exists a2. split; [exact F|now left].
  - unfold Rifle_fire. cbn [draw fst snd]. cbn zeta.
    match goal with |- context [shoot grp e ?s0 ?r (set_rnd ?r0 a)] =>
      assert (F : fires grp e 1 a (shoot grp e s0 r (set_rnd r0 a)))
        by (rewrite shoot_eq; apply fires_shot, fires_draw, fires_none);
      set (a1 := shoot grp e s0 r (set_rnd r0 a)) in * end.
    destruct (0 <? _)%Z; cbn [draw fst snd].
    + eexists. split; [apply fires_draw, F|]. right. split; [reflexivity|].
      eexists. reflexivity.
    + exists a1. split; [exact F|]. right. split; [reflexivity|].
      eexists. reflexivity.
Qed.

(** X3: whatever the state of the pool, a gun that fires adds to the
    living bullets of its own group exactly as many as it has barrels
    (pistol 1, burst 2, three-round burst 3, blunderbuss 4, shotgun 3,
    double-barreled shotgun 5, rifle 1); the other group keeps its
    bullets, and the error flag is not raised. *)
Theorem weapon_fires_its_bullets :
  forall (w : WeaponRef) (e : EntityRef) (s : LiveSprite) (a : @Arena R),
    living (get_bullets (weapon_bullets w) (snd (Weapon_fire w e s a)))
    = (living (get_bullets (weapon_bullets w) a)
       + bullets_per_shot (kind (get_weapon w a)))%nat
    /\ (forall grp, weapon_bullets w <> grp ->
          get_bullets grp (snd (Weapon_fire w e s a)) = get_bullets grp a)
    /\ thrown (snd (Weapon_fire w e s a)) = thrown a.
Proof.
  intros w e s a.
  destruct (Weapon_fire_fires w e s a) as (a1 & F & [->|(_ & o & ->)]);
    destruct (fires_living _ _ _ _ _ F) as (L & O & _ & _ & Th).
  - split; [exact L|]. split; [exact O|exact Th].
  - assert (B : forall grp, get_bullets grp (put_weapon w o a1) = get_bullets grp a1)
      by (intros []; destruct w; reflexivity).
    rewrite !B. split; [exact L|]. split; [intros grp N; rewrite B; now apply O|].
    destruct w; exact Th.
Qed.

(** X4: every gun but the rifle hands the entity back exactly as it took
    it (the burst guns, the blunderbuss and the double-barreled shotgun
    move it while the bullets leave and put it back in place) and leaves
    the weapon objects alone; [LiveSprite.fire] then changes the cooldown
    only, to the fire rate of the weapon. *)
Theorem fire_puts_the_entity_back :
  forall (w : WeaponRef) (e : EntityRef) (s : LiveSprite) (a : @Arena R),
    kind (get_weapon w a) <> Rifle ->
    fst (Weapon_fire w e s a) = s
    /\ (forall w', get_weapon w' (snd (Weapon_fire w e s a)) = get_weapon w' a)
    /\ (weapon s = Some w ->
        fst (LiveSprite_fire e s a)
        = set_remainingTime (fireRate (get_weapon w a)) s).
Proof.
  intros w e s a NR.
  assert (Back : fst (Weapon_fire w e s a) = s).
  { pose proof (Weapon_fire_gear w e s a) as G.
    assert (XY : x (fst (Weapon_fire w e s a)) = x s
                 /\ y (fst (Weapon_fire w e s a)) = y s).
    { unfold Weapon_fire. destruct (kind (get_weapon w a)); try contradiction.
      - split; reflexivity.
      - split; reflexivity.
      - split; reflexivity.
      - unfold Blunderbuss_fire.
        match goal with |- context [Blunderbuss_loop ?n ?g ?e0 ?r ?ox ?oy ?f ?s1 ?a1] =>
          destruct (Blunderbuss_loop n g e0 r ox oy f s1 a1) as [s2 a2] end.
        split; reflexivity.
      - unfold Shotgun_fire.
        repeat match goal with |- context [getFirstExists ?g ?a1] =>
          destruct (getFirstExists g a1) as [? ?]; cbn [draw] end.
        split; reflexivity.
      - unfold DbShotgun_fire.
        match goal with
        | |- context [DbShotgun_loop ?st ?g ?e0 ?x0 ?y0 ?r ?ox ?oy ?s1 ?a1] =>
          destruct (DbShotgun_loop st g e0 x0 y0 r ox oy s1 a1) as [s2 a2] end.
        split; reflexivity. }
    destruct XY as [X Y]. unfold gear in G.
    destruct (fst (Weapon_fire w e s a)) as [x1 y1 b1 al1 r1 t1 w1 d1 dr1 du1].
    destruct s as [x0 y0 b0 al0 r0 t0 w0 d0 dr0 du0].
    cbn in X, Y, G. injection G as -> -> -> -> -> -> -> ->. subst. reflexivity. }
  assert (Ws : forall w', get_weapon w' (snd (Weapon_fire w e s a)) = get_weapon w' a).
  { intros w'.
    destruct (Weapon_fire_fires w e s a) as (a1 & F & [->|(Rf & _)]); [|contradiction].
    destruct (fires_living _ _ _ _ _ F) as (_ & _ & PW & W1 & _).
    destruct w'; cbn [get_weapon]; congruence. }
  split; [exact Back|]. split; [exact Ws|].
  intros W. unfold LiveSprite_fire. rewrite W.
  specialize (Ws w).
  destruct (Weapon_fire w e s a) as [s1 a1]. cbn [fst snd] in *.
  now rewrite Back, Ws.
Qed.

(** ** Every event works on the arena through its operations *)

















(** ** Names and trails *)





(** A living bullet has an entry, so a bullet without entry is dead. *)
Lemma no_entry_dead (a : @Arena R) grp i b :
  trails_follow a -> get_bullets grp a !! i = Some b ->
  _liveTrails (_bulletTrailPainter a) !! bullet_name b = None ->
  bullet_alive b = false.
Proof.
  intros [T1 _] E Nn. destruct (bullet_alive b) eqn:A; [|reflexivity].
  destruct (T1 grp i b E A) as (k & t & Ek & _). congruence.
Qed.










(** ** Spawning *)

Lemma div_const (v : Q) (n : positive) : v / inject_Z (Zpos n) == v * (1 # n).
Proof. unfold Qdiv. reflexivity. Qed.

Lemma clamp_bounds px lo hi :
  lo <= 0 -> 0 <= hi ->
  lo <= (if Qltb px 0 then Math_max px lo else Math_min px hi)
  /\ (if Qltb px 0 then Math_max px lo else Math_min px hi) <= hi.
Proof.
  intros Lo Hi. unfold Math_max, Math_min.
  destruct (Qltb px 0) eqn:N.
  - apply Qltb_spec in N. destruct (Qltb px lo) eqn:M.
    + split; lra.
    + apply Qltb_false in M. split; lra.
  - apply Qltb_false in N. destruct (Qltb hi px) eqn:M.
    + split; lra.
    + apply Qltb_false in M. split; lra.
Qed.

(** X6: wherever the player stands and whatever angle is drawn, the bot
    that [_spawnBot] brings in is alive and inside the world bounds, its
    body is at the same point, it has its initial fire delay, is not
    dodging and holds one of the bots' weapons; the place it takes in the
    group is a new one or that of a dead bot. *)
Theorem spawned_bot_inside_the_world :
  forall (closer : bool) (g : @Game R),
    exists i b,
      _groups_bots (_spawnBot closer g) !! i = Some b
      /\ alive (bot_sprite b) = true
      /\ bounds_left <= x (bot_sprite b) /\ x (bot_sprite b) <= bounds_right
      /\ bounds_top <= y (bot_sprite b) /\ y (bot_sprite b) <= bounds_bottom
      /\ body_x (body (bot_sprite b)) = x (bot_sprite b)
      /\ body_y (body (bot_sprite b)) = y (bot_sprite b)
      /\ remainingTime (bot_sprite b) = initFireDelay
      /\ dodging (bot_sprite b) = false
      /\ (exists k, weapon (bot_sprite b) = Some (BotWeapon k))
      /\ (forall b0, _groups_bots g !! i = Some b0 -> alive (bot_sprite b0) = false).
Proof.
  intros closer g. unfold _spawnBot. cbn [draws draw fst snd].
  set (g1 := set__counts_bots _ _).
  match goal with |- context [getFirstDead ?px ?py g1] =>
    set (PX := px); set (PY := py) end.
  assert (BX : bounds_left <= PX /\ PX <= bounds_right)
    by (apply clamp_bounds; vm_compute; discriminate).
  assert (BY : bounds_top <= PY /\ PY <= bounds_bottom)
    by (apply clamp_bounds; vm_compute; discriminate).
  assert (S1 : exists i b1 L1,
             getFirstDead PX PY g1 = (i, set__groups_bots L1 g1)
             /\ L1 !! i = Some b1
             /\ (forall b0, _groups_bots g !! i = Some b0 ->
                            alive (bot_sprite b0) = false)
             /\ alive (bot_sprite b1) = true
             /\ x (bot_sprite b1) = PX /\ y (bot_sprite b1) = PY
             /\ body_x (body (bot_sprite b1)) = PX
             /\ body_y (body (bot_sprite b1)) = PY
             /\ remainingTime (bot_sprite b1) = initFireDelay
             /\ dodging (bot_sprite b1) = false).
  { unfold getFirstDead. change (_groups_bots g1) with (_groups_bots g).
    destruct (list_find _ (_groups_bots g)) as [[i b]|] eqn:F.
    - apply list_find_Some in F. destruct F as (F1 & F2 & _).
      exists i, (Bot_reset PX PY b), (<[i := Bot_reset PX PY b]> (_groups_bots g)).
      split; [reflexivity|]. split.
      { apply list_lookup_insert_eq. eapply lookup_lt_Some, F1. }
      split; [intros b0 E; congruence|]. repeat split; reflexivity.
    - exists (length (_groups_bots g)), (new_Bot PX PY (_spriteScale g1)),
        (_groups_bots g ++ [new_Bot PX PY (_spriteScale g1)]).
      split; [reflexivity|]. split; [now apply list_lookup_middle|].
      split.
      { intros b0 E. apply lookup_lt_Some in E. lia. }
      repeat split; reflexivity. }
  destruct S1 as (i & b1 & L1 & -> & E1 & Dead & A1 & X1 & Y1 & BX1 & BY1 & T1 & D1).
  destruct (_setBotMovement_state
              (snd (_assignBotWeapon (set__groups_bots L1 g1)))) as [r2 ST].
  destruct (_assignBotWeapon (set__groups_bots L1 g1)) as [k g2] eqn:AW.
  pose proof (_assignBotWeapon_state (set__groups_bots L1 g1)) as AS.
  rewrite AW in AS. cbn [snd] in AS, ST.
  destruct (_setBotMovement g2) as [m g3]. cbn [snd] in ST. subst g3 g2.
  cbn [_groups_bots set_arena draws snd set__groups_bots].
  exists i. eexists. split; [rewrite list_lookup_alter_eq, E1; reflexivity|].
  cbn [bot_sprite alive x y body remainingTime dodging weapon set_weapon].
  rewrite A1, X1, Y1, BX1, BY1, T1, D1.
  repeat split; first [reflexivity | tauto | now exists k].
Qed.

(** X7: on the six boss levels every bot is given the gun of that level
    (burst at 9, blunderbuss at 19, shotgun at 29, three-round burst at
    39, double-barreled shotgun at 49, rifle at 74), whatever is drawn.
    From level 35 on no bot is given a pistol, and from level 81 on every
    bot is given a shotgun, a double-barreled shotgun or a rifle. *)
Theorem bots_guns_by_level :
  forall `{!RandomRanges R} (g : @Game R),
    let k := fst (_assignBotWeapon g) in
    (level g = 9%Z -> k = Burst)
    /\ (level g = 19%Z -> k = Blunderbuss)
    /\ (level g = 29%Z -> k = Shotgun)
    /\ (level g = 39%Z -> k = Burst3)
    /\ (level g = 49%Z -> k = DbShotgun)
    /\ (level g = 74%Z -> k = Rifle)
    /\ ((35 <= level g)%Z -> k <> Pistol)
    /\ ((81 <= level g)%Z -> k = Shotgun \/ k = DbShotgun \/ k = Rifle).
Proof.
  intros RR g k. subst k. unfold _assignBotWeapon. cbn [draws draw fst snd].
  change (level (set_arena _ g)) with (level g).
  destruct (frac_range (rnd (arena g))) as [C0 C1].
  set (c := fst (frac (rnd (arena g)))) in *.
  set (f := Math_max (2 / 10) (1 - (inject_Z (level g) - 1) / 100)).
  assert (F35 : (35 <= level g)%Z -> c * f < 66 / 100).
  { intros L. rewrite Zle_Qle in L. subst f. unfold Math_max.
    change 100 with (inject_Z 100) in *. change 10 with (inject_Z 10) in *.
    destruct (Qltb _ _) eqn:M; rewrite ?div_const in *;
      change (inject_Z 35) with 35 in L; nra. }
  assert (F81 : (81 <= level g)%Z -> c * f < 20 / 100).
  { intros L. rewrite Zle_Qle in L. subst f. unfold Math_max.
    destruct (Qltb _ _) eqn:M.
    - apply Qltb_spec in M.
      change 100 with (inject_Z 100) in *. change 10 with (inject_Z 10) in *.
      rewrite ?div_const in *. change (inject_Z 81) with 81 in L. nra.
    - change 100 with (inject_Z 100) in *. change 10 with (inject_Z 10) in *.
      rewrite ?div_const in *. nra. }
  repeat split.
  - now intros ->.
  - now intros ->.
  - now intros ->.
  - now intros ->.
  - now intros ->.
  - now intros ->.
  - intros L. specialize (F35 L). apply Qltb_spec in F35.
    repeat match goal with |- context [if ?t then _ else _] =>
      destruct t; try discriminate end.
  - intros L. specialize (F81 L). apply Qltb_spec in F81.
    destruct (level g =? 9)%Z eqn:B1; [apply Z.eqb_eq in B1; lia|].
    destruct (level g =? 19)%Z eqn:B2; [apply Z.eqb_eq in B2; lia|].
    destruct (level g =? 29)%Z eqn:B3; [apply Z.eqb_eq in B3; lia|].
    destruct (level g =? 39)%Z eqn:B4; [apply Z.eqb_eq in B4; lia|].
    destruct (level g =? 49)%Z eqn:B5; [apply Z.eqb_eq in B5; lia|].
    destruct (level g =? 74)%Z eqn:B6; [apply Z.eqb_eq in B6; lia|].
    repeat match goal with |- context [if ?t then _ else _] =>
      destruct t; try discriminate; try tauto end.
Qed.

(** X8: the bot keeps between 300 and 450 pixels from the player when it
    is told to keep its distance (between 300 and 400 from level 20 on);
    before level 20 no bot is told to strafe without keeping its distance;
    and a bot that strafes does so at a right angle, to the left or to the
    right. *)
Theorem bots_movers_by_level :
  forall `{!RandomRanges R} `{!RandomSigns R} (g : @Game R),
    match fst (_setBotMovement g) with
    | ForwardMover => True
    | DistantMover d =>
        300 <= d /\ d <= (if (20 <=? level g)%Z then 400 else 450)
    | StrafingMover d dir =>
        (20 <= level g)%Z /\ 300 <= d /\ d <= 400
        /\ (dir = 1 * Math_PI / 2 \/ dir = - (1) * Math_PI / 2)
    | StrafingDistantMover d dir =>
        300 <= d /\ d <= (if (20 <=? level g)%Z then 400 else 450)
        /\ (dir = 1 * Math_PI / 2 \/ dir = - (1) * Math_PI / 2)
    end.
Proof.
  intros RR RS g. unfold _setBotMovement. cbn [draws draw fst snd].
  change (level (set_arena _ g)) with (level g).
  assert (B100 : forall r, 300 <= fst (between 300 (300 + 100) r)
                           /\ fst (between 300 (300 + 100) r) <= 400).
  { intros r. destruct (between_range 300 (300 + 100) r) as [Lo Hi];
      [vm_compute; discriminate|]. split; [exact Lo|].
    eapply Qle_trans; [exact Hi|vm_compute; discriminate]. }
  assert (B150 : forall r, 300 <= fst (between 300 (300 + 150) r)
                           /\ fst (between 300 (300 + 150) r) <= 450).
  { intros r. destruct (between_range 300 (300 + 150) r) as [Lo Hi];
      [vm_compute; discriminate|]. split; [exact Lo|].
    eapply Qle_trans; [exact Hi|vm_compute; discriminate]. }
  assert (Sg : forall r, fst (sign r) * Math_PI / 2 = 1 * Math_PI / 2
                         \/ fst (sign r) * Math_PI / 2 = - (1) * Math_PI / 2).
  { intros r. destruct (sign_values r) as [-> | ->]; [now left|now right]. }
  destruct (20 <=? level g)%Z eqn:L20.
  - apply Z.leb_le in L20.
    repeat match goal with |- context [if ?t then _ else _] =>
      destruct t; cbn [draws draw fst snd] end.
    + split; [exact L20|]. split; [apply B100|]. split; [apply B100|apply Sg].
    + split; [apply B100|]. split; [apply B100|apply Sg].
    + split; apply B100.
    + exact I.
  - repeat match goal with |- context [if ?t then _ else _] =>
      destruct t; cbn [draws draw fst snd] end.
    + split; [apply B150|]. split; [apply B150|apply Sg].
    + split; apply B150.
    + exact I.
Qed.

(** ** Where the player starts *)

Lemma draws_value (f : R -> Q * R) (g g' : @Game R) q :
  draws f g = (q, g') -> q = fst (f (rnd (arena g))).
Proof. unfold draws, draw. cbn [fst snd]. congruence. Qed.

Lemma create_player guns (g : @Game R) :
  let hx := bounds_right - PADDING_width - player_radius * _spriteScale g in
  let hy := bounds_bottom - PADDING_height - player_radius * _spriteScale g in
  exists r1 r2 r3 r4,
    let px := fst (sign r1) * fst (between 0 hx r2) in
    let py := fst (sign r3) * fst (between 0 hy r4) in
    _sprites_player (create guns g)
    = set_player_sprite
        (set_weapon (Some PlayerWeapon) (player_sprite (new_Player px py)))
        (new_Player px py)
    /\ onChildInputDown (create guns g) = true
    /\ player_collides (create guns g) = [PlayerBullets; BotBullets].
Proof.
  intros hx hy. remember (create guns g) as c' eqn:E. unfold create in E.
  cbv zeta in E. fold hx hy in E.
  destruct (draws sign _) as [sx g2] eqn:D1 in E.
  pose proof (draws_value _ _ _ _ D1) as V1. apply draws_inv in D1.
  destruct (draws _ g2) as [bx g3] eqn:D2 in E.
  pose proof (draws_value _ _ _ _ D2) as V2. apply draws_inv in D2.
  destruct (draws sign g3) as [sy g4] eqn:D3 in E.
  pose proof (draws_value _ _ _ _ D3) as V3. apply draws_inv in D3.
  destruct (draws _ g4) as [by_ g5] eqn:D4 in E.
  pose proof (draws_value _ _ _ _ D4) as V4. apply draws_inv in D4.
  match type of E with context [_spawnBot true ?a] =>
    destruct (_spawnBot_spec true a) as (r' & L & S & _);
    rewrite S in E end.
  destruct (draws _ _) as [t g7] eqn:D5 in E. apply draws_inv in D5.
  eexists _, _, _, _. cbv zeta. rewrite <- V1, <- V2, <- V3, <- V4.
  split; [|split]; rewrite E, D5; reflexivity.
Qed.


(** ** After the player has died *)

Lemma update_alive inp (g : @Game R) :
  alive (player_sprite (_sprites_player (update inp g)))
  = alive (player_sprite (_sprites_player g)).
Proof.
  destruct (superhot g) eqn:W; [now rewrite update_won|].
  destruct (update_spec inp g W) as (_ & _ & _ & _ & -> & _).
  destruct (update_player_spec inp (playerMoved_of inp g) (elapsedTime_of inp g)
              (update_turned inp g)) as (_ & _ & _ & -> & _).
  reflexivity.
Qed.

Lemma dead_player_holds_fire inp (g : @Game R) :
  alive (player_sprite (_sprites_player g)) = false -> playerFired_of inp g = false.
Proof.
  intros D. unfold playerFired_of.
  destruct (update_player_spec inp (playerMoved_of inp g) (elapsedTime_of inp g)
              (update_turned inp g)) as (_ & _ & _ & _ & _ & Dead & _).
  rewrite (Dead D). apply andb_false_r.
Qed.

(** The player's life, the hotswitch listener and the number of game-over
    calls, across [_lose]: a dead player stays dead, a detached listener
    stays detached, and the player dies only together with the listener
    being detached. *)
Lemma _lose_dead bullet (g : @Game R) :
  let g' := _lose bullet g in
  (alive (player_sprite (_sprites_player g)) = false ->
   alive (player_sprite (_sprites_player g')) = false
   /\ lose_calls (calls g') = lose_calls (calls g))
  /\ (onChildInputDown g = false -> onChildInputDown g' = false)
  /\ (alive (player_sprite (_sprites_player g)) = true ->
      alive (player_sprite (_sprites_player g')) = false ->
      onChildInputDown g' = false).
Proof.
  cbn zeta. unfold _lose.
  destruct (get_bullets bullet.1 (arena g) !! bullet.2) as [b|];
    [|split; [tauto|split; [tauto|congruence]]].
  destruct (bullet_alive b); cbn [negb]; [|split; [tauto|split; [tauto|congruence]]].
  cbn [_sprites_player set_arena _mutators].
  destruct (alive (player_sprite (_sprites_player g))) eqn:A; cbn [negb].
  2: { split; [tauto|split; [tauto|congruence]]. }
  destruct (secondchance (_mutators g)).
  { cbn. rewrite A. split; [discriminate|split; [tauto|discriminate]]. }
  destruct (superhot _ || godmode (_mutators g)).
  { cbn. rewrite A. split; [discriminate|split; [tauto|discriminate]]. }
  cbn. split; [discriminate|split; reflexivity].
Qed.

Lemma _botKillHandler_player bot bullet (g : @Game R) :
  let g' := _botKillHandler bot bullet g in
  alive (player_sprite (_sprites_player g')) = alive (player_sprite (_sprites_player g))
  /\ onChildInputDown g' = onChildInputDown g
  /\ lose_calls (calls g') = lose_calls (calls g).
Proof.
  cbn zeta. unfold _botKillHandler.
  destruct (_groups_bots g !! bot) as [b|]; [|repeat split].
  destruct (alive (bot_sprite b)); cbn [negb]; [|repeat split].
  destruct (superhot _); repeat split.
Qed.

Lemma groupCallback_dead a b (g : @Game R) :
  let g' := groupCallback a b g in
  (alive (player_sprite (_sprites_player g)) = false ->
   alive (player_sprite (_sprites_player g')) = false
   /\ lose_calls (calls g') = lose_calls (calls g))
  /\ (onChildInputDown g = false -> onChildInputDown g' = false)
  /\ (alive (player_sprite (_sprites_player g)) = true ->
      alive (player_sprite (_sprites_player g')) = false ->
      onChildInputDown g' = false).
Proof.
  cbn zeta. destruct a as [|i|mine], b as [|j|other]; cbn [groupCallback];
    try (split; [tauto|split; [tauto|congruence]]).
  - destruct (bool_decide _); [apply _lose_dead|split; [tauto|split; [tauto|congruence]]].
  - destruct (_botKillHandler_player i other g) as (-> & -> & ->).
    split; [tauto|split; [tauto|congruence]].
  - unfold bulletHandler. cbn. split; [tauto|split; [tauto|congruence]].
Qed.

(** The same across any event. *)
Lemma step_dead (g : @Game R) ev :
  (alive (player_sprite (_sprites_player g)) = false ->
   alive (player_sprite (_sprites_player (step g ev))) = false
   /\ lose_calls (calls (step g ev)) = lose_calls (calls g))
  /\ (onChildInputDown g = false -> onChildInputDown (step g ev) = false)
  /\ (alive (player_sprite (_sprites_player g)) = true ->
      alive (player_sprite (_sprites_player (step g ev))) = false ->
      onChildInputDown (step g ev) = false).
Proof.
  destruct ev as [inp|a b|bot ptr| |bullet|who px py]; cbn [step].
  - rewrite update_alive. pose proof (update_settings inp g) as S.
    unfold settings in S. injection S as _ _ _ -> _ _ _ ->.
    split; [tauto|split; [first [tauto|congruence]|congruence]].
  - unfold impact.
    destruct (groupCallback_dead a b g) as (D1 & L1 & K1).
    destruct (groupCallback_dead b a (groupCallback a b g)) as (D2 & L2 & K2).
    cbv zeta in *.
    split; [|split].
    + intros D. destruct (D1 D) as [D' C']. destruct (D2 D') as [D'' C''].
      split; [exact D''|congruence].
    + intros L. apply L2, L1, L.
    + intros A D.
      destruct (alive (player_sprite (_sprites_player (groupCallback a b g)))) eqn:A1.
      * apply K2; [reflexivity|exact D].
      * apply L2, K1; [exact A|reflexivity].
  - unfold onChildInputDown_dispatch.
    destruct (onChildInputDown g) eqn:L; [|split; [tauto|split; [first [tauto|congruence]|congruence]]].
    destruct (_groups_bots g !! bot); [|split; [tauto|split; [first [tauto|congruence]|congruence]]].
    unfold hotswitch.
    repeat match goal with |- context [if ?c then _ else _] => destruct c end;
      cbn; (split; [tauto|split; [first [tauto|congruence]|congruence]]).
  - unfold tween_onComplete, endHotswitch. destruct (hotswitch_tween g) as [[[] i]|];
      try (cbn; split; [tauto|split; [first [tauto|congruence]|congruence]]).
    unfold swap. destruct (_groups_bots g !! i);
      cbn; (split; [tauto|split; [first [tauto|congruence]|congruence]]).
  - cbn. split; [tauto|split; [first [tauto|congruence]|congruence]].
  - destruct who; cbn; (split; [tauto|split; [first [tauto|congruence]|congruence]]).
Qed.

Lemma run_listener_follows_life (r : R) stored lvl muts guns evs :
  let g := run evs (start r stored lvl muts guns) in
  alive (player_sprite (_sprites_player g)) = false -> onChildInputDown g = false.
Proof.
  cbv zeta. apply run_invariant.
  - intros g ev J D. destruct (step_dead g ev) as (_ & L & K).
    destruct (alive (player_sprite (_sprites_player g))) eqn:A.
    + now apply K.
    + apply L, J. reflexivity.
  - unfold start.
    destruct (create_player guns (init lvl muts (new_Game r stored)))
      as (r1 & r2 & r3 & r4 & P & _).
    intros D. rewrite P in D. discriminate D.
Qed.

Lemma run_dead evs : forall g : @Game R,
  alive (player_sprite (_sprites_player g)) = false ->
  onChildInputDown g = false ->
  alive (player_sprite (_sprites_player (run evs g))) = false
  /\ onChildInputDown (run evs g) = false
  /\ lose_calls (calls (run evs g)) = lose_calls (calls g)
  /\ shots evs g = 0%nat.
Proof.
  induction evs as [|ev evs IH]; intros g D L; [repeat split; assumption|].
  cbn [run fold_left shots]. fold (run evs (step g ev)).
  destruct (step_dead g ev) as (D1 & L1 & _).
  destruct (D1 D) as [D' C'].
  destruct (IH (step g ev) D' (L1 L)) as (D2 & L2 & C2 & S2).
  split; [exact D2|]. split; [exact L2|]. split; [congruence|].
  rewrite S2. destruct ev; try reflexivity.
  now rewrite dead_player_holds_fire.
Qed.

(** X10: once the player has died in a level, nothing that happens brings
    them back: in every later state the player is dead, the game-over
    sequence has not run again, the player has fired no shot and the
    bullet budget is what it was, and a click on a bot, with whatever
    buttons, changes nothing (the hotswitch listener is gone). *)
Theorem dead_player_stays_dead :
  forall (r : R) (stored lvl : Z) (muts : Mutators) (guns : Guns)
         (evs later : list Event),
    let g := run evs (start r stored lvl muts guns) in
    let g' := run later g in
    alive (player_sprite (_sprites_player g)) = false ->
    alive (player_sprite (_sprites_player g')) = false
    /\ lose_calls (calls g') = lose_calls (calls g)
    /\ shots later g = 0%nat
    /\ _counts_bullets g' = _counts_bullets g
    /\ (forall bot pointer, step g' (InputDown bot pointer) = g').
Proof.
  intros r stored lvl muts guns evs later g g' D.
  pose proof (run_listener_follows_life r stored lvl muts guns evs D) as L.
  fold g in L. clearbody g.
  destruct (run_dead later g D L) as (D' & L' & C' & S').
  destruct (run_counts_bullets later g) as (B' & _).
  rewrite S' in B'. change (Z.of_nat 0) with 0%Z in B'. rewrite Z.sub_0_r in B'.
  subst g'.
  split; [exact D'|]. split; [exact C'|]. split; [exact S'|]. split; [exact B'|].
  intros bot pointer. cbn [step]. unfold onChildInputDown_dispatch.
  now rewrite L'.
Qed.

(** ** How many bots a level brings *)

Lemma level_bots_bounds lvl :
  (1 <= lvl)%Z -> (5 <= level_bots lvl)%Z /\ (level_bots lvl <= lvl + 6)%Z.
Proof.
  intros L. unfold level_bots.
  destruct (_ || _)%bool; [lia|].
  destruct (lvl mod 10 =? 0)%Z eqn:M.
  - apply Z.eqb_eq in M. assert (lvl <> 0 -> 10 <= lvl)%Z; [|lia].
    intros N. pose proof (Z.mod_divide lvl 10 ltac:(lia)) as [D _].
    destruct (D M) as [k ->]. lia.
  - assert (F : (0 <= Qfloor (inject_Z lvl * (666 / 1000)))%Z
                /\ (Qfloor (inject_Z lvl * (666 / 1000)) <= lvl)%Z); [|lia].
    assert (P : 0 <= inject_Z lvl).
    { change 0 with (inject_Z 0). rewrite <- Zle_Qle. lia. }
    split.
    + apply Qfloor_nonneg. apply Qmult_le_0_compat; [exact P|vm_compute; discriminate].
    + rewrite <- (Qfloor_Z lvl) at 2. apply Qfloor_resp_le.
      assert (E : 666 / 1000 == 333 # 500) by reflexivity.
      rewrite E. set (v := inject_Z lvl) in *. lra.
Qed.

Lemma step_bots_total (g : @Game R) ev :
  (Z.of_nat (countLiving (_groups_bots (step g ev))) + _counts_bots (step g ev)
   <= Z.of_nat (countLiving (_groups_bots g)) + _counts_bots g)%Z
  /\ level (step g ev) = level g.
Proof.
  assert (Same : forall g' : @Game R,
             standing g' = standing g -> level g' = level g ->
             (Z.of_nat (countLiving (_groups_bots g')) + _counts_bots g'
              <= Z.of_nat (countLiving (_groups_bots g)) + _counts_bots g)%Z
             /\ level g' = level g).
  { intros g' S Lv. unfold standing in S. injection S as -> -> _. split; [lia|exact Lv]. }
  destruct ev as [inp|a b|bot ptr| |bullet|who px py]; cbn [step].
  - destruct (superhot g) eqn:W; [rewrite update_won by exact W; split; [lia|reflexivity]|].
    destruct (update_spec inp g W) as (S & _ & _ & _ & _ & Due & _).
    unfold settings in S. injection S as -> _ _ _ _ _ _ _.
    split; [|reflexivity].
    destruct (_ && _).
    + destruct Due as [-> ->]. lia.
    + destruct Due as (-> & -> & _). lia.
  - unfold impact.
    assert (G : forall a b (g1 : @Game R),
               (Z.of_nat (countLiving (_groups_bots (groupCallback a b g1)))
                + _counts_bots (groupCallback a b g1)
                <= Z.of_nat (countLiving (_groups_bots g1)) + _counts_bots g1)%Z
               /\ level (groupCallback a b g1) = level g1).
    { clear. intros a b g1.
      destruct a as [|i|mine], b as [|j|other]; cbn [groupCallback];
        try (split; [lia|reflexivity]).
      - destruct (bool_decide _); [|split; [lia|reflexivity]].
        pose proof (_lose_standing other g1) as S.
        unfold standing in S. injection S as -> -> _. split; [lia|].
        unfold _lose.
        repeat match goal with
               | |- context [match ?t with Some _ => _ | None => _ end] => destruct t
               | |- context [if ?t then _ else _] => destruct t
               end; reflexivity.
      - destruct (_botKillHandler_standing i other g1) as (-> & [(_ & -> & _)| ->]);
          (split; [lia|]);
          unfold _botKillHandler;
          repeat match goal with
                 | |- context [match ?t with Some _ => _ | None => _ end] => destruct t
                 | |- context [if ?t then _ else _] => destruct t
                 end; reflexivity.
      - split; [apply Z.le_refl|reflexivity]. }
    destruct (G a b g) as [T1 L1].
    destruct (G b a (groupCallback a b g)) as [T2 L2].
    split; [lia|congruence].
  - unfold onChildInputDown_dispatch.
    destruct (onChildInputDown g); [|split; [lia|reflexivity]].
    destruct (_groups_bots g !! bot); [|split; [lia|reflexivity]].
    unfold hotswitch.
    repeat match goal with |- context [if ?c then _ else _] => destruct c end;
      (split; [apply Z.le_refl|reflexivity]).
  - unfold tween_onComplete, endHotswitch.
    destruct (hotswitch_tween g) as [[[] i]|];
      try (split; [apply Z.le_refl|reflexivity]).
    apply Same; [apply swap_standing|].
    unfold swap. destruct (_groups_bots g !! i); reflexivity.
  - split; [apply Z.le_refl|reflexivity].
  - apply Same; [apply moved_standing|]. destruct who; reflexivity.
Qed.

(** X11: a level numbered 1 or more brings at least 5 bots and at most
    6 more than its number.  In every state the level reaches, the bots
    alive together with those still to be spawned are at most the bots of
    the level and the number still to be spawned is not negative, so no
    more bots are ever alive than the level has; and the level number
    stays what it was. *)
Theorem bots_within_the_level :
  forall (r : R) (stored lvl : Z) (muts : Mutators) (guns : Guns) (evs : list Event),
    (1 <= lvl)%Z ->
    let g := run evs (start r stored lvl muts guns) in
    (5 <= level_bots lvl)%Z /\ (level_bots lvl <= lvl + 6)%Z
    /\ (0 <= _counts_bots g)%Z
    /\ (Z.of_nat (countLiving (_groups_bots g)) + _counts_bots g <= level_bots lvl)%Z
    /\ (Z.of_nat (countLiving (_groups_bots g)) <= level_bots lvl)%Z
    /\ level g = lvl.
Proof.
  intros r stored lvl muts guns evs L g.
  destruct (level_bots_bounds lvl L) as [B1 B2].
  assert (W : won_once g).
  { apply run_invariant; [intros; now apply step_won_once|now apply start_won_once]. }
  assert (T : (Z.of_nat (countLiving (_groups_bots g)) + _counts_bots g
               <= level_bots lvl)%Z /\ level g = lvl).
  { subst g. apply run_invariant.
    - intros g ev [T Lv]. destruct (step_bots_total g ev) as [T' Lv'].
      split; [lia|congruence].
    - destruct (start_spec r stored lvl muts guns) as (-> & _ & -> & _ & -> & _).
      split; [lia|reflexivity]. }
  destruct W as [W _]. destruct T as [T Lv].
  repeat split; try assumption; lia.
Qed.

(** ** The player's dodge *)

(** X12: a dodge starts only when the player is not dodging and the
    reload has run out; otherwise [dodge] changes nothing.  A dodge that
    starts lasts 75 ms in the direction asked.  While dodging, [advance]
    moves the player in the direction of the dodge at the dodge speed,
    whatever the keys say; on the frame the duration runs out the dodge
    ends and the reload starts afresh, so that the next request is
    refused. *)
Theorem dodge_needs_reload :
  forall (moved : bool) (dir dir' e : Q) (p : Player),
    let s := player_sprite p in
    (dodging s = true \/ 0 < _dodgeRemainingTime p -> Player_dodge dir' p = p)
    /\ (dodging s = false -> _dodgeRemainingTime p <= 0 ->
        let s' := player_sprite (Player_dodge dir' p) in
        dodging s' = true /\ _duration s' = 75 / 1000 /\ _direction s' = dir'
        /\ vitals s' = vitals s /\ body s' = body s)
    /\ (dodging s = true ->
        let p' := Player_advance moved dir e p in
        velocity_x (body (player_sprite p')) = speeds_dodge * Math_cos (_direction s)
        /\ velocity_y (body (player_sprite p')) = speeds_dodge * Math_sin (_direction s)
        /\ _duration (player_sprite p') = _duration s - e
        /\ (0 < _duration s - e ->
            dodging (player_sprite p') = true
            /\ _dodgeRemainingTime p' = _dodgeRemainingTime p - e)
        /\ (_duration s - e <= 0 ->
            dodging (player_sprite p') = false
            /\ _dodgeRemainingTime p' = DODGE_RELOAD_TIME
            /\ Player_dodge dir' p' = p')).
Proof.
  intros moved dir dir' e p s. subst s. split; [|split].
  - unfold Player_dodge. intros [D|T].
    + now rewrite D.
    + destruct (Qleb _ 0) eqn:Le; [|now rewrite andb_false_r].
      apply Qle_bool_iff in Le. lra.
  - intros D T. unfold Player_dodge. rewrite D.
    assert (Le : Qleb (_dodgeRemainingTime p) 0 = true) by now apply Qle_bool_iff.
    rewrite Le. cbn. repeat split; try reflexivity.
  - intros D. unfold Player_advance. cbn [dodging set_remainingTime]. rewrite D.
    unfold moveForward. cbn.
    destruct (Qleb (_duration (player_sprite p) - e) 0) eqn:Le; cbn.
    + apply Qle_bool_iff in Le.
      split; [reflexivity|]. split; [reflexivity|]. split; [reflexivity|].
      split; [intros; lra|]. intros _.
      split; [reflexivity|]. split; [reflexivity|].
      unfold Player_dodge. cbn [player_sprite _dodgeRemainingTime dodging negb andb].
      reflexivity.
    + split; [reflexivity|]. split; [reflexivity|]. split; [reflexivity|].
      split; [intros _; split; [exact D|reflexivity]|].
      intros Le'. apply Qle_bool_iff in Le'. unfold Qleb in Le. congruence.
Qed.

(** ** The player's rate of fire *)

Lemma update_fire_fired inp (g : @Game R) :
  fst (update_fire inp g) = true ->
  weapon (player_sprite (_sprites_player g)) = Some PlayerWeapon ->
  kind (player_weapon (arena g)) <> Rifle ->
  remainingTime (player_sprite (_sprites_player (snd (update_fire inp g))))
  = fireRate (player_weapon (arena g))
  /\ remainingTime (player_sprite (_sprites_player g)) <= 0.
Proof.
  intros F W NR. split; [|now apply (update_fire_spec inp g)].
  revert F. unfold update_fire.
  destruct (_ || fireKey_isDown inp); [|discriminate].
  unfold _firePlayerBullet.
  destruct (Qltb 0 _ || _); [discriminate|]. intros _.
  destruct (LiveSprite_fire PlayerRef (player_sprite (_sprites_player g)) (arena g))
    as [s a1] eqn:LF.
  cbn [snd _sprites_player set__counts_bullets set__sprites_player player_sprite
       set_player_sprite].
  unfold LiveSprite_fire in LF. rewrite W in LF.
  destruct (Weapon_fire_fires PlayerWeapon PlayerRef
              (player_sprite (_sprites_player g)) (arena g))
    as (a2 & Fi & [E|[Rf _]]); [|contradiction].
  destruct (Weapon_fire PlayerWeapon PlayerRef _ (arena g)) as [s1 g1].
  injection LF as <- <-. cbn [snd] in E. subst g1.
  destruct (fires_living _ _ _ _ _ Fi) as (_ & _ & PW & _).
  cbn [remainingTime set_remainingTime get_weapon]. now rewrite PW.
Qed.

Lemma playerFired_of_true inp (g : @Game R) :
  playerFired_of inp g = true ->
  superhot g = false
  /\ alive (player_sprite (_sprites_player g)) = true
  /\ fst (update_fire inp (update_turned inp g)) = true
  /\ remainingTime (player_sprite (_sprites_player g)) <= 0.
Proof.
  unfold playerFired_of. intros F. apply andb_true_iff in F. destruct F as [W F].
  apply negb_true_iff in W. split; [exact W|].
  destruct (update_player_spec inp (playerMoved_of inp g) (elapsedTime_of inp g)
              (update_turned inp g)) as (_ & _ & _ & _ & _ & Dead & Alive).
  destruct (alive (player_sprite (_sprites_player (update_turned inp g)))) eqn:A.
  - destruct (Alive eq_refl) as (Fr & _). split; [exact A|]. rewrite <- Fr.
    split; [exact F|].
    rewrite Fr in F. now apply (update_fire_spec inp (update_turned inp g)).
  - rewrite (Dead eq_refl) in F. discriminate F.
Qed.

(** X13: in a level, with any gun but the rifle, a frame in which the
    player fires finds the cooldown run out and leaves it at the gun's
    fire rate less the time elapsed in the frame, and takes one bullet off
    the budget; so the player fires again on the next frame only when the
    frame lasted, in the game's time, at least the fire rate. *)
Theorem player_fire_rate :
  forall (r : R) (stored lvl : Z) (muts : Mutators) (guns : Guns)
         (evs : list Event) (inp inp' : Input),
    let g := run evs (start r stored lvl muts guns) in
    let g' := update inp g in
    kind (player_weapon (arena g)) <> Rifle ->
    playerFired_of inp g = true ->
    remainingTime (player_sprite (_sprites_player g)) <= 0
    /\ remainingTime (player_sprite (_sprites_player g'))
       = fireRate (player_weapon (arena g)) - elapsedTime_of inp g
    /\ _counts_bullets g' = (_counts_bullets g - 1)%Z
    /\ (playerFired_of inp' g' = true ->
        fireRate (player_weapon (arena g)) <= elapsedTime_of inp g).
Proof.
  intros r stored lvl muts guns evs inp inp' g g' NR F.
  destruct (run_kept r stored lvl muts guns evs) as (_ & PW & _). fold g in PW.
  clearbody g.
  destruct (playerFired_of_true inp g F) as (W & A & Fr & Rm).
  destruct (update_fire_fired inp (update_turned inp g) Fr PW NR) as [Rt _].
  destruct (update_spec inp g W) as (_ & _ & _ & _ & Pl & _).
  destruct (update_player_spec inp (playerMoved_of inp g) (elapsedTime_of inp g)
              (update_turned inp g)) as (_ & _ & _ & _ & _ & _ & Alive).
  destruct (Alive A) as (_ & _ & _ & Rt' & _).
  assert (Rg : remainingTime (player_sprite (_sprites_player g'))
               = fireRate (player_weapon (arena g)) - elapsedTime_of inp g).
  { subst g'. rewrite Pl, Rt'. now rewrite Rt. }
  split; [exact Rm|]. split; [exact Rg|]. split.
  - subst g'. destruct (update_counts_bullets inp g) as [-> _]. now rewrite F.
  - intros F'. destruct (playerFired_of_true inp' g' F') as (_ & _ & _ & Rm').
    rewrite Rg in Rm'. lra.
Qed.

(** ** Nobody fires without a weapon *)

Lemma LiveSprite_fire_thrown e s w (a : @Arena R) :
  weapon s = Some w -> thrown (snd (LiveSprite_fire e s a)) = thrown a.
Proof.
  intros W. unfold LiveSprite_fire. rewrite W.
  destruct (Weapon_fire_fires w e s a) as (a1 & F & Which).
  destruct (fires_living _ _ _ _ _ F) as (_ & _ & _ & _ & T).
  destruct (Weapon_fire w e s a) as [s1 a2]. cbn [snd] in *.
  destruct Which as [-> | (_ & o & ->)]; [exact T|].
  rewrite <- T. destruct w; reflexivity.
Qed.

Lemma Bot__fire_thrown i lvl s w (a : @Arena R) :
  weapon s = Some w -> thrown (snd (Bot__fire i lvl s a)) = thrown a.
Proof.
  intros W. unfold Bot__fire. cbn [draw fst snd].
  destruct (Qleb _ _).
  - rewrite W. reflexivity.
  - unfold Bot_fire. cbn [draw fst snd]. cbn zeta.
    match goal with |- context [LiveSprite_fire ?e0 ?s0 ?a1] =>
      pose proof (LiveSprite_fire_thrown e0 s0 w a1 W) as T;
      destruct (LiveSprite_fire e0 s0 a1) as [s1 a2] end.
    cbn [snd] in *. exact T.
Qed.

Lemma Bot_advance_thrown i inp e speed lvl player fired b w (a : @Arena R) :
  weapon (bot_sprite b) = Some w ->
  thrown (snd (Bot_advance i inp e speed lvl player fired b a)) = thrown a.
Proof.
  intros W. unfold Bot_advance.
  set (s := Bot_aim e player (bot_sprite b)).
  assert (Ws : weapon s = Some w) by exact W.
  assert (T1 : thrown (snd (if Bot_ready player s then Bot__fire i lvl s a else (s, a)))
               = thrown a).
  { destruct (Bot_ready player s); [now apply (Bot__fire_thrown i lvl s w)|reflexivity]. }
  destruct (if Bot_ready player s then Bot__fire i lvl s a else (s, a)) as [s1 a1].
  cbn [snd] in T1.
  destruct (Bot_steer_vitals inp e speed lvl player fired (move b) s1 a1) as (_ & M & _).
  destruct (Bot_steer inp e speed lvl player fired (move b) s1 a1) as [s2 a2].
  cbn [snd] in *. unfold munitions in M. injection M as _ _ _ _ _ _ T2. congruence.
Qed.

Lemma BotGroup_advance_armed inp e speed lvl fired (g : @Game R) :
  Forall has_bot_weapon (_groups_bots g) ->
  thrown (arena (BotGroup_advance inp e speed lvl fired g)) = thrown (arena g)
  /\ Forall has_bot_weapon (_groups_bots (BotGroup_advance inp e speed lvl fired g)).
Proof.
  unfold BotGroup_advance. generalize (seq 0 (length (_groups_bots g))).
  intros idx. revert g.
  induction idx as [|i idx IH]; intros g Arm; [now split|].
  cbn [fold_left].
  assert (St : thrown (arena (BotGroup_advance_child inp e speed lvl fired g i))
               = thrown (arena g)
               /\ Forall has_bot_weapon
                    (_groups_bots (BotGroup_advance_child inp e speed lvl fired g i))).
  { unfold BotGroup_advance_child.
    destruct (_groups_bots g !! i) as [b|] eqn:E; [|now split].
    destruct (alive (bot_sprite b)); [|now split].
    destruct (proj1 (Forall_lookup _ _) Arm i b E) as [k W].
    pose proof (Bot_advance_thrown i inp e speed lvl
                  (player_sprite (_sprites_player g)) fired b _ (arena g) W) as T.
    destruct (Bot_advance_bot i inp e speed lvl
                (player_sprite (_sprites_player g)) fired b (arena g)) as (_ & Wb & _).
    destruct (Bot_advance i inp e speed lvl (player_sprite (_sprites_player g)) fired b
                (arena g)) as [b' a']. cbn [fst snd] in *.
    split; [exact T|]. cbn [_groups_bots set__groups_bots].
    apply Forall_insert; [exact Arm|]. exists k. congruence. }
  destruct St as [T Arm'].
  destruct (IH _ Arm') as [T' Arm'']. split; [congruence|exact Arm''].
Qed.

Lemma update_player_thrown inp moved e (g : @Game R) :
  weapon (player_sprite (_sprites_player g)) = Some PlayerWeapon ->
  thrown (arena (snd (update_player inp moved e g))) = thrown (arena g).
Proof.
  intros W. unfold update_player.
  destruct (alive (player_sprite (_sprites_player g))); [|reflexivity].
  assert (T : thrown (arena (snd (update_fire inp g))) = thrown (arena g)).
  { unfold update_fire. destruct (_ || _); [|reflexivity].
    unfold _firePlayerBullet. destruct (_ || _); [reflexivity|].
    pose proof (LiveSprite_fire_thrown PlayerRef (player_sprite (_sprites_player g))
                  PlayerWeapon (arena g) W) as T.
    destruct (LiveSprite_fire PlayerRef (player_sprite (_sprites_player g)) (arena g))
      as [s a]. exact T. }
  destruct (update_fire inp g) as [fired g1]. exact T.
Qed.

Lemma update_spawn_armed e (g : @Game R) :
  Forall has_bot_weapon (_groups_bots g) ->
  Forall has_bot_weapon (_groups_bots (update_spawn e g)).
Proof.
  intros Arm. unfold update_spawn.
  destruct (0 <? _counts_bots g)%Z; [|exact Arm].
  cbn [_next_botTime set__next_botTime].
  destruct (Qleb _ 0); [|exact Arm].
  destruct (_spawnBot_spec false (set__next_botTime (_next_botTime g - e) g))
    as (r & L & -> & _ & _ & _ & New).
  cbn [draws draw fst snd _groups_bots set__next_botTime set_arena set__groups_bots].
  apply Forall_lookup. intros j b E.
  destruct (New j b E) as [A|Old]; [exact A|].
  exact (proj1 (Forall_lookup _ _) Arm j b Old).
Qed.

Lemma update_armed inp (g : @Game R) : all_armed g -> all_armed (update inp g).
Proof.
  intros (T & W & Arm). unfold update.
  destruct (superhot g); [now repeat split|]. cbn zeta.
  fold (update_turned inp g).
  assert (Wt : weapon (player_sprite (_sprites_player (update_turned inp g)))
               = Some PlayerWeapon) by exact W.
  pose proof (update_player_thrown inp (playerMoved_of inp g) (elapsedTime_of inp g)
                (update_turned inp g) Wt) as T2.
  destruct (update_player_spec inp (playerMoved_of inp g) (elapsedTime_of inp g)
              (update_turned inp g)) as (B2 & _ & _ & _ & W2 & _).
  destruct (update_player inp (playerMoved_of inp g) (elapsedTime_of inp g)
              (update_turned inp g)) as [fired g2].
  cbn [snd] in *. change (arena (update_turned inp g)) with (arena g) in T2.
  assert (Bo2 : _groups_bots g2 = _groups_bots g).
  { unfold beside_player in B2. now injection B2. }
  set (g3 := if negb (_hotswitching g2) then _ else g2).
  assert (E3 : arena g3 = arena g2 /\ _groups_bots g3 = _groups_bots g2
               /\ _sprites_player g3 = _sprites_player g2)
    by (subst g3; destruct (negb _); now repeat split).
  destruct E3 as (A3 & Bo3 & P3).
  destruct (update_spawn_spec (elapsedTime_of inp g) g3) as (S4 & _ & _ & M4 & _).
  assert (Arm4 : Forall has_bot_weapon
                   (_groups_bots (update_spawn (elapsedTime_of inp g) g3))).
  { apply update_spawn_armed. now rewrite Bo3, Bo2. }
  set (g4 := update_spawn (elapsedTime_of inp g) g3) in *.
  destruct (BotGroup_advance_armed inp (elapsedTime_of inp g) (botSpeed_of inp g)
              (level g4) fired g4 Arm4) as [T5 Arm5].
  destruct (BotGroup_advance_spec inp (elapsedTime_of inp g) (botSpeed_of inp g)
              (level g4) fired g4) as (B5 & _).
  set (g5 := BotGroup_advance _ _ _ _ _ g4) in *.
  unfold all_armed. cbn [arena set_arena _sprites_player _groups_bots thrown
                         set__groups_playerBullets set__groups_botBullets].
  split; [|split; [|exact Arm5]].
  - rewrite T5. unfold munitions in M4. injection M4 as _ _ _ _ _ _ T4.
    rewrite T4, A3, T2. exact T.
  - unfold beside_bots in B5. injection B5 as _ _ _ _ _ _ _ _ P5 _ _ _ _ _.
    unfold beside_spawn in S4. injection S4 as _ _ _ _ _ _ P4 _ _ _ _ _.
    rewrite P5, P4, P3, W2. exact W.
Qed.

Lemma groupCallback_armed a b (g : @Game R) :
  all_armed g -> all_armed (groupCallback a b g).
Proof.
  intros (T & W & Arm).
  assert (K : forall ref (g0 : @Game R),
             all_armed g0 -> all_armed (set_arena (Bullet_kill ref (arena g0)) g0)).
  { intros ref g0 (T0 & W0 & Arm0). split; [|split; [exact W0|exact Arm0]].
    cbn [arena set_arena]. pose proof (Bullet_kill_kit ref (arena g0)) as Ki.
    unfold kit in Ki. injection Ki as _ _ _ ->. exact T0. }
  unfold groupCallback.
  destruct a as [|j|m], b as [|k|o]; try (split; [exact T|split; [exact W|exact Arm]]).
  - destruct (bool_decide _); [|split; [exact T|split; [exact W|exact Arm]]].
    unfold _lose.
    destruct (get_bullets o.1 (arena g) !! o.2);
      [|split; [exact T|split; [exact W|exact Arm]]].
    destruct (negb _); [split; [exact T|split; [exact W|exact Arm]]|].
    cbn zeta. pose proof (K o g (conj T (conj W Arm))) as (T1 & W1 & Arm1).
    repeat match goal with |- context [if ?t then _ else _] => destruct t end;
      (split; [exact T1|split; [exact W1|exact Arm1]]).
  - unfold _botKillHandler.
    destruct (_groups_bots g !! j); [|split; [exact T|split; [exact W|exact Arm]]].
    destruct (negb _); [split; [exact T|split; [exact W|exact Arm]]|].
    cbn zeta.
    assert (A1 : all_armed (kill_bot j g)).
    { split; [exact T|split; [exact W|]]. unfold kill_bot.
      cbn [_groups_bots set__groups_bots].
      apply Forall_alter; [exact Arm|]. intros b0 _ A. exact A. }
    pose proof (K o (kill_bot j g) A1) as (T2 & W2 & Arm2).
    destruct (superhot _); split; first [exact T2 | split; [exact W2|exact Arm2]].
  - now apply (K m g).
Qed.

Lemma step_armed (g : @Game R) ev : all_armed g -> all_armed (step g ev).
Proof.
  intros A. destruct ev as [inp|a b|bot ptr| |bullet|who px py]; cbn [step].
  - now apply update_armed.
  - unfold impact. now do 2 apply groupCallback_armed.
  - unfold onChildInputDown_dispatch, hotswitch.
    repeat match goal with
           | |- context [if ?c then _ else _] => destruct c
           | |- context [match ?c with Some _ => _ | None => _ end] => destruct c
           end; exact A.
  - unfold tween_onComplete.
    destruct (hotswitch_tween g) as [[[] i]|]; try exact A.
    unfold swap. destruct (_groups_bots g !! i) as [b|] eqn:E; [|exact A].
    destruct A as (T & W & Arm). split; [exact T|split; [exact W|]].
    cbn [_groups_bots set__groups_bots set_hotswitch_tween set__next_hotSwitch
         set_calls set__sprites_player].
    apply Forall_insert; [exact Arm|].
    exact (proj1 (Forall_lookup _ _) Arm i b E).
  - destruct A as (T & W & Arm). split; [|split; [exact W|exact Arm]].
    cbn [arena set_arena]. unfold Bullet_preUpdate_outside.
    destruct (get_bullets _ _ !! _) as [b|]; [|exact T].
    destruct (bullet_alive b); [|exact T].
    pose proof (Bullet_kill_kit bullet (arena g)) as Ki.
    unfold kit in Ki. injection Ki as _ _ _ ->. exact T.
  - destruct A as (T & W & Arm). unfold moved. destruct who as [|i|bullet].
    + split; [exact T|split; [exact W|exact Arm]].
    + split; [exact T|split; [exact W|]]. cbn [_groups_bots set__groups_bots].
      apply Forall_alter; [exact Arm|]. intros b _ A. exact A.
    + split; [|split; [exact W|exact Arm]]. cbn [arena set_arena].
      destruct bullet as [[] i]; exact T.
Qed.

Lemma create_armed guns (g : @Game R) :
  thrown (arena (create guns g)) = thrown (arena g)
  /\ Forall has_bot_weapon (_groups_bots (create guns g)).
Proof.
  remember (create guns g) as c' eqn:E. unfold create in E. cbv zeta in E.
  destruct (draws sign _) as [sx g2] eqn:D1 in E. apply draws_inv in D1.
  destruct (draws _ g2) as [bx g3] eqn:D2 in E. apply draws_inv in D2.
  destruct (draws sign g3) as [sy g4] eqn:D3 in E. apply draws_inv in D3.
  destruct (draws _ g4) as [by_ g5] eqn:D4 in E. apply draws_inv in D4.
  match type of E with context [_spawnBot true ?a] =>
    destruct (_spawnBot_spec true a) as (r' & L & S & _ & _ & _ & Arm);
    rewrite S in E end.
  destruct (draws _ _) as [t g7] eqn:D5 in E. apply draws_inv in D5.
  cbn [_groups_bots set_onChildInputDown set__groups_bots] in Arm.
  assert (B : _groups_bots c' = L) by (rewrite E, D5; reflexivity).
  split.
  { rewrite E, D5; cbn; rewrite D4; cbn; rewrite D3; cbn; rewrite D2; cbn;
      rewrite D1; reflexivity. }
  rewrite B. apply Forall_lookup. intros j b Eb.
  destruct (Arm j b Eb) as [A|Old]; [exact A|]. destruct j; discriminate.
Qed.

(** X14: in every state a level reaches, the player holds the player's
    weapon and every bot of the group, alive or dead, holds one of the
    bots' weapons; and no call of [fire] has ever been made on a sprite
    without a weapon, which is where [LiveSprite.fire] would raise. *)
Theorem nobody_fires_unarmed :
  forall (r : R) (stored lvl : Z) (muts : Mutators) (guns : Guns) (evs : list Event),
    let g := run evs (start r stored lvl muts guns) in
    thrown (arena g) = false
    /\ weapon (player_sprite (_sprites_player g)) = Some PlayerWeapon
    /\ (forall i b, _groups_bots g !! i = Some b ->
          exists k, weapon (bot_sprite b) = Some (BotWeapon k)).
Proof.
  intros r stored lvl muts guns evs g.
  assert (A : all_armed g).
  { subst g. apply (run_invariant all_armed); [intros g ev; apply step_armed|].
    unfold start. destruct (create_armed guns (init lvl muts (new_Game r stored)))
      as [T Arm].
    split; [rewrite T; reflexivity|]. split; [|exact Arm].
    apply (start_spec r stored lvl muts guns). }
  destruct A as (T & W & Arm). split; [exact T|]. split; [exact W|].
  intros i b E. exact (proj1 (Forall_lookup _ _) Arm i b E).
Qed.

(** ** The bullets in flight and the pace of the spawns *)

Lemma BulletGroup_advance_moves speed l : forall i b,
  BulletGroup_advance speed l !! i = Some b -> bullet_alive b = true ->
  bullet_vx b = speed * Math_cos (bullet_rotation b)
  /\ bullet_vy b = speed * Math_sin (bullet_rotation b).
Proof.
  unfold BulletGroup_advance. induction l as [|c l IH]; intros i b E A; [discriminate|].
  destruct i as [|i]; cbn [map] in E; [|now apply (IH i)].
  injection E as <-. destruct (bullet_alive c) eqn:Ac.
  - now split.
  - cbn in A. congruence.
Qed.

(** X15: after a frame of a level that is not yet won, every living
    bullet of both groups, whoever fired it and whenever, flies along its
    own rotation at the bullet speed of the frame; that speed is never
    negative and never above the normal bullet speed, and it is zero, so
    that all bullets stand still, when the time is frozen and the living
    player does not move. *)
Theorem bullets_fly_at_the_frame_speed :
  forall (inp : Input) (g : @Game R) (grp : BulletGroupRef) (i : nat) (b : Bullet),
    superhot g = false ->
    get_bullets grp (arena (update inp g)) !! i = Some b ->
    bullet_alive b = true ->
    bullet_vx b = bulletSpeed_of inp g * Math_cos (bullet_rotation b)
    /\ bullet_vy b = bulletSpeed_of inp g * Math_sin (bullet_rotation b)
    /\ 0 <= bulletSpeed_of inp g
    /\ bulletSpeed_of inp g <= normal speeds_bullet
    /\ (alive (player_sprite (_sprites_player g)) = true ->
        playerMoved_of inp g = false -> freezetime (_mutators g) = true ->
        bulletSpeed_of inp g = 0).
Proof.
  intros inp g grp i b NW E A.
  assert (V : bullet_vx b = bulletSpeed_of inp g * Math_cos (bullet_rotation b)
              /\ bullet_vy b = bulletSpeed_of inp g * Math_sin (bullet_rotation b)).
  { revert E. unfold update. rewrite NW. cbn zeta.
    destruct (update_player inp (playerMoved_of inp g) (elapsedTime_of inp g) _)
      as [fired g2].
    cbn [arena set_arena]. intros E.
    destruct grp; cbn [get_bullets _groups_playerBullets _groups_botBullets
                       set__groups_playerBullets set__groups_botBullets] in E;
      exact (BulletGroup_advance_moves _ _ i b E A). }
  destruct V as [Vx Vy]. split; [exact Vx|]. split; [exact Vy|].
  unfold bulletSpeed_of, _getSpeed.
  destruct (alive (player_sprite (_sprites_player g))), (playerMoved_of inp g),
    (freezetime (_mutators g)), (fasttime (_mutators g)), (playerRotated_of inp g);
    cbn [negb]; repeat split; intros;
    first [discriminate | reflexivity | (vm_compute; discriminate)].
Qed.

Lemma spawn_range (lvl : Z) :
  let lo := Math_max (12 / 10 - 10 / 1000 * inject_Z lvl) (5 / 10) in
  let hi := Math_max (18 / 10 - 15 / 1000 * inject_Z lvl) (5 / 10) in
  lo <= hi /\ 1 / 2 <= lo /\ ((0 <= lvl)%Z -> hi <= 18 / 10).
Proof.
  cbv zeta. set (v := inject_Z lvl).
  assert (E1 : 12 / 10 - 10 / 1000 * v == (12 # 10) - (1 # 100) * v) by (field).
  assert (E2 : 18 / 10 - 15 / 1000 * v == (18 # 10) - (15 # 1000) * v) by (field).
  assert (E3 : 5 / 10 == 1 # 2) by reflexivity.
  assert (E4 : 18 / 10 == 18 # 10) by reflexivity.
  assert (E5 : 1 / 2 == 1 # 2) by reflexivity.
  destruct (Math_max_spec (12 / 10 - 10 / 1000 * v) (5 / 10)) as (A1 & A2 & A3).
  destruct (Math_max_spec (18 / 10 - 15 / 1000 * v) (5 / 10)) as (B1 & B2 & B3).
  set (lo := Math_max (12 / 10 - 10 / 1000 * v) (5 / 10)) in *.
  set (hi := Math_max (18 / 10 - 15 / 1000 * v) (5 / 10)) in *.
  split; [|split].
  - destruct A3 as [-> | ->]; [|exact B2].
    destruct (Qlt_le_dec v 120) as [Lt|Ge].
    + eapply Qle_trans; [|exact B1]. rewrite E1, E2. lra.
    + eapply Qle_trans; [|exact B2]. rewrite E1, E3. lra.
  - rewrite E5, <- E3. exact A2.
  - intros P. assert (0 <= v).
    { unfold v. change 0 with (inject_Z 0). now rewrite <- Zle_Qle. }
    destruct B3 as [-> | ->]; rewrite ?E2, ?E3, E4; lra.
Qed.

(** X16: with a generator that keeps its ranges, a level starts with
    the next spawn due in 0.05 to 0.1 seconds of the game's time.  The
    range from which [update] draws the later countdowns is well formed at
    every level (its lower end is not above its upper end); and whenever
    the spawn part of a frame brings in a bot (bots are left to spawn and
    the countdown has run out), the countdown to the next one is at least
    half a second and, on levels from 0 up, at most 1.8 seconds. *)
Theorem spawns_are_paced :
  forall `{!RandomRanges R} (r : R) (stored lvl : Z) (muts : Mutators) (guns : Guns)
         (e : Q) (g : @Game R),
    (5 / 100 <= _next_botTime (start r stored lvl muts guns)
     /\ _next_botTime (start r stored lvl muts guns) <= 10 / 100)
    /\ (forall l : Z,
          Math_max (12 / 10 - 10 / 1000 * inject_Z l) (5 / 10)
          <= Math_max (18 / 10 - 15 / 1000 * inject_Z l) (5 / 10))
    /\ ((0 < _counts_bots g)%Z -> _next_botTime g - e <= 0 ->
        1 / 2 <= _next_botTime (update_spawn e g)
        /\ ((0 <= level g)%Z -> _next_botTime (update_spawn e g) <= 18 / 10)
        /\ _counts_bots (update_spawn e g) = (_counts_bots g - 1)%Z
        /\ countLiving (_groups_bots (update_spawn e g))
           = S (countLiving (_groups_bots g))).
Proof.
  intros RR r stored lvl muts guns e g. split; [|split].
  - unfold start. set (g0 := init lvl muts (new_Game r stored)).
    remember (create guns g0) as c' eqn:E. unfold create in E. cbv zeta in E.
    destruct (draws sign _) as [sx g2] eqn:D1 in E. apply draws_inv in D1.
    destruct (draws _ g2) as [bx g3] eqn:D2 in E. apply draws_inv in D2.
    destruct (draws sign g3) as [sy g4] eqn:D3 in E. apply draws_inv in D3.
    destruct (draws _ g4) as [by_ g5] eqn:D4 in E. apply draws_inv in D4.
    match type of E with context [_spawnBot true ?a] =>
      destruct (_spawnBot_spec true a) as (r' & L & S & _);
      rewrite S in E end.
    destruct (draws _ _) as [t g7] eqn:D5 in E.
    pose proof (draws_value _ _ _ _ D5) as V5.
    assert (T : _next_botTime c' = t) by (rewrite E; reflexivity).
    rewrite T, V5. apply realInRange_range. vm_compute. discriminate.
  - intros l. apply (spawn_range l).
  - intros Left Due.
    destruct (update_spawn_spec e g) as (_ & _ & _ & _ & D).
    assert (Lb : (0 <? _counts_bots g)%Z = true) by now apply Z.ltb_lt.
    assert (Db : Qleb (_next_botTime g - e) 0 = true) by now apply Qleb_spec.
    rewrite Lb, Db in D. cbn [andb] in D. destruct D as [C CL].
    assert (T : exists r0,
               _next_botTime (update_spawn e g)
               = fst (realInRange
                        (Math_max (12 / 10 - 10 / 1000 * inject_Z (level g)) (5 / 10))
                        (Math_max (18 / 10 - 15 / 1000 * inject_Z (level g)) (5 / 10))
                        r0)).
    { unfold update_spawn. rewrite Lb. cbn [_next_botTime set__next_botTime].
      rewrite Db.
      destruct (_spawnBot_spec false (set__next_botTime (_next_botTime g - e) g))
        as (r0 & L & -> & _).
      cbn [draws draw fst snd level set__groups_bots set_arena set__counts_bots
           set__next_botTime _next_botTime arena rnd set_rnd].
      eexists. reflexivity. }
    destruct T as [r0 ->].
    destruct (spawn_range (level g)) as (Wf & Lo & Hi).
    destruct (realInRange_range _ _ r0 Wf) as [R1 R2].
    split; [eapply Qle_trans; [exact Lo|exact R1]|].
    split; [intros P; eapply Qle_trans; [exact R2|exact (Hi P)]|].
    split; [exact C|exact CL].
Qed.

End Further.

(** * The helpers of the states and the menu *)

(** ** Even sizes *)

Lemma rem_2_cases (c : Z) :
  (Z.rem c 2 = 0 /\ Z.even c = true)%Z
  \/ (Z.rem c 2 = 1 /\ 0 <= c /\ Z.odd c = true)%Z
  \/ (Z.rem c 2 = -1 /\ c <= 0 /\ Z.odd c = true)%Z.
Proof.
  assert (T : (2 <> 0)%Z) by lia. assert (T' : (0 < 2)%Z) by lia.
  pose proof (Z.quot_rem c 2%Z T) as E.
  destruct (Z.le_gt_cases 0 c) as [P|N].
  - pose proof (Z.rem_bound_pos c 2%Z P T') as B.
    assert (C : (Z.rem c 2 = 0 \/ Z.rem c 2 = 1)%Z) by lia.
    destruct C as [C|C].
    + left. split; [exact C|]. rewrite E, C, Z.add_0_r, Z.even_mul. reflexivity.
    + right. left. split; [exact C|]. split; [exact P|].
      rewrite E at 1. rewrite C, Z.add_comm, Z.odd_add_mul_2. reflexivity.
  - assert (N' : (0 <= - c)%Z) by lia.
    pose proof (Z.rem_bound_pos (- c) 2%Z N' T') as B.
    rewrite (Z.rem_opp_l c 2%Z T) in B.
    assert (C : (Z.rem c 2 = 0 \/ Z.rem c 2 = -1)%Z) by lia.
    destruct C as [C|C].
    + left. split; [exact C|]. rewrite E, C, Z.add_0_r, Z.even_mul. reflexivity.
    + right. right. split; [exact C|]. split; [lia|].
      rewrite E at 1. rewrite C, Z.add_comm, Z.odd_add_mul_2. reflexivity.
Qed.

Lemma inject_Z_pred (c : Z) : inject_Z (c - 1) == inject_Z c - 1.
Proof.
  unfold Z.sub. rewrite inject_Z_plus. reflexivity.
Qed.

Lemma Qceiling_least (n : Q) (m : Z) : n <= inject_Z m -> (Qceiling n <= m)%Z.
Proof.
  intros L. rewrite <- (Qceiling_Z m). now apply Qceiling_resp_le.
Qed.

(** X17: [even] always returns an even integer.  For a number above -1
    it is the smallest even integer greater than or equal to the number,
    as the comment says; when the number rounds up to a negative odd
    integer, the result is that integer less one, which is below the
    number. *)
Theorem even_rounds_up_to_even :
  forall n : Q,
    let r := even n in
    Z.even r = true
    /\ (-1 < n ->
        n <= inject_Z r /\ inject_Z r < n + 2
        /\ forall m : Z, Z.even m = true -> n <= inject_Z m -> (r <= m)%Z)
    /\ (n <= -1 -> Z.odd (Qceiling n) = true ->
        r = (Qceiling n - 1)%Z /\ inject_Z r < n).
Proof.
  intros n r. subst r. unfold even. cbv zeta.
  set (c := Qceiling n).
  pose proof (Qle_ceiling n) as Up. pose proof (Qceiling_lt n) as Lo.
  fold c in Up, Lo.
  assert (Lo' : inject_Z c - 1 < n).
  { rewrite inject_Z_pred in Lo. exact Lo. }
  destruct (rem_2_cases c) as [[E Ev]|[(E & P & Od)|(E & N & Od)]]; rewrite E.
  - rewrite Z.add_0_r. split; [exact Ev|]. split.
    + intros _. split; [exact Up|]. split; [lra|].
      intros m _ Le. now apply Qceiling_least.
    + intros _ O. rewrite <- Z.negb_even, Ev in O. discriminate.
  - assert (Ev : Z.even (c + 1) = true).
    { rewrite Z.even_add, <- Z.negb_odd, Od. reflexivity. }
    split; [exact Ev|]. split.
    + intros _. rewrite inject_Z_plus. change (inject_Z 1) with 1.
      split; [lra|]. split; [lra|].
      intros m Em Le. pose proof (Qceiling_least n m Le) as Lc. fold c in Lc.
      assert (m <> c); [|lia].
      intros ->. rewrite <- Z.negb_odd, Od in Em. discriminate.
    + intros Le _. exfalso.
      assert (inject_Z 0 <= inject_Z c) by now rewrite <- Zle_Qle.
      change (inject_Z 0) with 0 in *. lra.
  - assert (Ev : Z.even (c + -1) = true).
    { rewrite Z.even_add, <- Z.negb_odd, Od. reflexivity. }
    split; [exact Ev|]. split.
    + intros Gt. exfalso.
      assert (inject_Z c <= inject_Z 0) by now rewrite <- Zle_Qle.
      assert (c <> 0%Z) by (intros Z0; rewrite Z0 in Od; discriminate).
      assert (Lt : (c <= -1)%Z) by lia.
      rewrite Zle_Qle in Lt. change (inject_Z (-1)) with (- (1)) in Lt. lra.
    + intros _ _. split; [lia|].
      change (c + -1)%Z with (c - 1)%Z. rewrite inject_Z_pred. exact Lo'.
Qed.

(** ** The world scale *)

Lemma Qdiv_le_mult a b c : 0 < b -> (a / b <= c <-> a <= c * b).
Proof.
  intros P. split; intros L.
  - apply Qmult_le_r with (z := / b); [now apply Qinv_lt_0_compat|].
    rewrite <- Qmult_assoc, Qmult_inv_r, Qmult_1_r by lra. exact L.
  - apply Qmult_le_r with (z := / b) in L; [|now apply Qinv_lt_0_compat].
    rewrite <- Qmult_assoc, Qmult_inv_r, Qmult_1_r in L by lra. exact L.
Qed.

Lemma Qdiv_ge_mult a b c : 0 < b -> (c <= a / b <-> c * b <= a).
Proof.
  intros P. split; intros L.
  - apply Qmult_le_r with (z := / b); [now apply Qinv_lt_0_compat|].
    rewrite <- Qmult_assoc, Qmult_inv_r, Qmult_1_r by lra. exact L.
  - apply Qmult_le_r with (z := / b) in L; [|now apply Qinv_lt_0_compat].
    rewrite <- Qmult_assoc, Qmult_inv_r, Qmult_1_r in L by lra. exact L.
Qed.

Lemma or_default_positive v d : 0 < d -> (forall q, v = Some q -> 0 <= q) ->
  0 < or_default v d.
Proof.
  intros D V. unfold or_default. destruct v as [q|]; [|exact D].
  destruct (Qeqb q 0) eqn:E; [exact D|].
  specialize (V q eq_refl).
  apply Qle_lteq in V. destruct V as [V|V]; [exact V|].
  unfold Qeqb in E. symmetry in V. apply Qeq_bool_iff in V. congruence.
Qed.

(** X18: whatever native size is given (a missing or zero one is
    replaced by the game's), as long as it is not negative: the scale set
    by [scaleToFill] is the same on both axes and the native area scaled
    by it covers the target on both axes, exactly on one of them; the
    scale set by [scaleToFit] makes it fit inside the target on both axes,
    exactly on one of them; and the second is never more than the first.
    The world scale that [_setWorldScale] sets covers the target with the
    game's native size. *)
Theorem scale_fills_and_fits :
  forall (width height : Q) (nativeWidth nativeHeight : option Q),
    (forall q, nativeWidth = Some q -> 0 <= q) ->
    (forall q, nativeHeight = Some q -> 0 <= q) ->
    let nw := or_default nativeWidth NATIVE_WIDTH in
    let nh := or_default nativeHeight NATIVE_HEIGHT in
    let fill := scaleToFill width height nativeWidth nativeHeight in
    let fit := scaleToFit width height nativeWidth nativeHeight in
    0 < nw /\ 0 < nh
    /\ point_y fill = point_x fill /\ point_y fit = point_x fit
    /\ width <= point_x fill * nw /\ height <= point_x fill * nh
    /\ (point_x fill * nw == width \/ point_x fill * nh == height)
    /\ point_x fit * nw <= width /\ point_x fit * nh <= height
    /\ (point_x fit * nw == width \/ point_x fit * nh == height)
    /\ point_x fit <= point_x fill
    /\ width <= point_x (_setWorldScale width height) * NATIVE_WIDTH
    /\ height <= point_x (_setWorldScale width height) * NATIVE_HEIGHT.
Proof.
  intros width height nativeWidth nativeHeight Pw Ph nw nh fill fit.
  assert (W : 0 < nw) by (apply or_default_positive; [reflexivity|exact Pw]).
  assert (Hh : 0 < nh) by (apply or_default_positive; [reflexivity|exact Ph]).
  subst fill fit. unfold scaleToFill, scaleToFit, Point_setTo. cbv zeta.
  fold nw nh. cbn [point_x point_y].
  destruct (Math_max_spec (width / nw) (height / nh)) as (M1 & M2 & M3).
  destruct (Math_min_spec (width / nw) (height / nh)) as (N1 & N2 & N3).
  assert (Ew : width / nw * nw == width) by (field; lra).
  assert (Eh : height / nh * nh == height) by (field; lra).
  split; [exact W|]. split; [exact Hh|].
  split; [reflexivity|]. split; [reflexivity|].
  split; [now apply Qdiv_le_mult|]. split; [now apply Qdiv_le_mult|].
  split; [destruct M3 as [-> | ->]; [now left|now right]|].
  split; [now apply Qdiv_ge_mult|]. split; [now apply Qdiv_ge_mult|].
  split; [destruct N3 as [-> | ->]; [now left|now right]|].
  split; [lra|].
  unfold _setWorldScale, scaleToFill, Point_setTo, or_default. cbn [point_x].
  destruct (Math_max_spec (width / NATIVE_WIDTH) (height / NATIVE_HEIGHT))
    as (K1 & K2 & _).
  split; apply Qdiv_le_mult; first [reflexivity | assumption].
Qed.

(** ** The scrolling background *)

Lemma Math_min_floor (a b : Z) :
  Math_min (inject_Z a - 1) (inject_Z b) = inject_Z a - 1 /\ (a - 1 <= b)%Z
  \/ Math_min (inject_Z a - 1) (inject_Z b) = inject_Z b /\ (b < a - 1)%Z.
Proof.
  unfold Math_min. destruct (Qltb (inject_Z b) (inject_Z a - 1)) eqn:L.
  - right. split; [reflexivity|]. apply Qltb_spec in L.
    rewrite <- inject_Z_pred in L. now rewrite <- Zlt_Qlt in L.
  - left. split; [reflexivity|]. apply Qltb_false in L.
    rewrite <- inject_Z_pred in L. now rewrite <- Zle_Qle in L.
Qed.

(** [bgOffset] for a distance that is not negative, when the background
    may travel over at least one cell. *)
Lemma bgOffset_spec (d M : Q) :
  0 <= d -> (1 <= Qfloor (M / CELLDIM))%Z ->
  exists k : Z,
    bgOffset d M == CELLDIM * inject_Z k
    /\ (0 <= k)%Z /\ (k <= Qfloor (M / CELLDIM) - 1)%Z
    /\ CELLDIM * inject_Z k <= d
    /\ (d < CELLDIM * inject_Z (Qfloor (M / CELLDIM)) -> d < CELLDIM * inject_Z k + CELLDIM).
Proof.
  intros D One. unfold bgOffset, Math_floor.
  set (a := Qfloor (M / CELLDIM)) in *. set (b := Qfloor (d / CELLDIM)).
  pose proof (Qfloor_le (d / CELLDIM)) as Fl.
  pose proof (Qlt_floor (d / CELLDIM)) as Fu. fold b in Fl, Fu.
  rewrite inject_Z_plus in Fu. change (inject_Z 1) with 1 in Fu.
  unfold CELLDIM in Fl, Fu. change 40 with (inject_Z 40) in Fl, Fu.
  rewrite div_const in Fl, Fu.
  assert (B0 : (0 <= b)%Z).
  { apply Qfloor_nonneg. unfold CELLDIM. change 40 with (inject_Z 40).
    rewrite div_const. lra. }
  unfold CELLDIM.
  destruct (Math_min_floor a b) as [[-> Le]|[-> Lt]].
  - exists (a - 1)%Z. rewrite inject_Z_pred.
    split; [reflexivity|]. split; [lia|]. split; [lia|].
    rewrite Zle_Qle, inject_Z_pred in Le. split; [lra|]. intros Lim. lra.
  - exists b. split; [reflexivity|]. split; [exact B0|]. split; [lia|].
    split; [lra|]. intros _. lra.
Qed.

(** X19: the background is put on a corner of the grid of cells (a
    multiple of the cell size on both axes), at most 9 cells from the
    centre across and 10 down, on the player's side of the centre and no
    further from it than the player.  While the player is less than 400
    across (440 down) from the centre, the background is less than one
    cell from the player on that axis. *)
Theorem background_follows_by_cells :
  forall player : LiveSprite,
    let bg := _scrollBackground player in
    exists i j : Z,
      fst bg == CELLDIM * inject_Z i /\ snd bg == CELLDIM * inject_Z j
      /\ (-9 <= i <= 9)%Z /\ (-10 <= j <= 10)%Z
      /\ (0 <= x player -> 0 <= fst bg /\ fst bg <= x player)
      /\ (x player <= 0 -> x player <= fst bg /\ fst bg <= 0)
      /\ (0 <= y player -> 0 <= snd bg /\ snd bg <= y player)
      /\ (y player <= 0 -> y player <= snd bg /\ snd bg <= 0)
      /\ (-400 < x player -> x player < 400 ->
          x player - CELLDIM < fst bg /\ fst bg < x player + CELLDIM)
      /\ (-440 < y player -> y player < 440 ->
          y player - CELLDIM < snd bg /\ snd bg < y player + CELLDIM).
Proof.
  intros player bg. subst bg. unfold _scrollBackground. cbn [fst snd].
  assert (Fx : Qfloor ((world_width / 2 - PADDING_width) / CELLDIM) = 10%Z)
    by (vm_compute; reflexivity).
  assert (Fy : Qfloor ((world_height / 2 - PADDING_height) / CELLDIM) = 11%Z)
    by (vm_compute; reflexivity).
  assert (AX : exists i : Z,
             (if Qltb 0 (x player)
              then bgOffset (x player) (world_width / 2 - PADDING_width)
              else - bgOffset (- x player) (world_width / 2 - PADDING_width))
             == CELLDIM * inject_Z i
             /\ (-9 <= i <= 9)%Z
             /\ (0 <= x player -> 0 <= CELLDIM * inject_Z i
                                  /\ CELLDIM * inject_Z i <= x player)
             /\ (x player <= 0 -> x player <= CELLDIM * inject_Z i
                                  /\ CELLDIM * inject_Z i <= 0)
             /\ (-400 < x player -> x player < 400 ->
                 x player - CELLDIM < CELLDIM * inject_Z i
                 /\ CELLDIM * inject_Z i < x player + CELLDIM)).
  { destruct (Qltb 0 (x player)) eqn:S.
    - apply Qltb_spec in S.
      destruct (bgOffset_spec (x player) (world_width / 2 - PADDING_width))
        as (k & E & K0 & K1 & Lo & Up); [lra|rewrite Fx; lia|].
      rewrite Fx in K1, Up. change (inject_Z 10) with 10 in Up.
      exists k. split; [exact E|]. split; [lia|].
      assert (P : 0 <= inject_Z k) by (change 0 with (inject_Z 0); now rewrite <- Zle_Qle).
      unfold CELLDIM in *. repeat split; try lra.
    - apply Qltb_false in S.
      destruct (bgOffset_spec (- x player) (world_width / 2 - PADDING_width))
        as (k & E & K0 & K1 & Lo & Up); [lra|rewrite Fx; lia|].
      rewrite Fx in K1, Up. change (inject_Z 10) with 10 in Up.
      exists (- k)%Z. rewrite E, inject_Z_opp. split; [ring|]. split; [lia|].
      assert (P : 0 <= inject_Z k) by (change 0 with (inject_Z 0); now rewrite <- Zle_Qle).
      unfold CELLDIM in *. repeat split; try lra. }
  assert (AY : exists j : Z,
             (if Qltb 0 (y player)
              then bgOffset (y player) (world_height / 2 - PADDING_height)
              else - bgOffset (- y player) (world_height / 2 - PADDING_height))
             == CELLDIM * inject_Z j
             /\ (-10 <= j <= 10)%Z
             /\ (0 <= y player -> 0 <= CELLDIM * inject_Z j
                                  /\ CELLDIM * inject_Z j <= y player)
             /\ (y player <= 0 -> y player <= CELLDIM * inject_Z j
                                  /\ CELLDIM * inject_Z j <= 0)
             /\ (-440 < y player -> y player < 440 ->
                 y player - CELLDIM < CELLDIM * inject_Z j
                 /\ CELLDIM * inject_Z j < y player + CELLDIM)).
  { destruct (Qltb 0 (y player)) eqn:S.
    - apply Qltb_spec in S.
      destruct (bgOffset_spec (y player) (world_height / 2 - PADDING_height))
        as (k & E & K0 & K1 & Lo & Up); [lra|rewrite Fy; lia|].
      rewrite Fy in K1, Up. change (inject_Z 11) with 11 in Up.
      exists k. split; [exact E|]. split; [lia|].
      assert (P : 0 <= inject_Z k) by (change 0 with (inject_Z 0); now rewrite <- Zle_Qle).
      unfold CELLDIM in *. repeat split; try lra.
    - apply Qltb_false in S.
      destruct (bgOffset_spec (- y player) (world_height / 2 - PADDING_height))
        as (k & E & K0 & K1 & Lo & Up); [lra|rewrite Fy; lia|].
      rewrite Fy in K1, Up. change (inject_Z 11) with 11 in Up.
      exists (- k)%Z. rewrite E, inject_Z_opp. split; [ring|]. split; [lia|].
      assert (P : 0 <= inject_Z k) by (change 0 with (inject_Z 0); now rewrite <- Zle_Qle).
      unfold CELLDIM in *. repeat split; try lra. }
  destruct AX as (i & Ei & Bi & Xp & Xn & Xc).
  destruct AY as (j & Ej & Bj & Yp & Yn & Yc).
  exists i, j. rewrite Ei, Ej.
  repeat split; first [assumption | lia | apply Xp | apply Xn | apply Yp | apply Yn
                       | apply Xc | apply Yc]; assumption.
Qed.

(** ** What the menu unlocks *)

Lemma filter_above (q : Q) (l : list Q) :
  Forall (fun v => q < v) l -> List.filter (fun u => Qleb u q) l = [].
Proof.
  induction 1 as [|v l V _ IH]; [reflexivity|].
  cbn. apply Qleb_false in V. now rewrite V.
Qed.

Lemma sorted_above (q u : Q) (l : list Q) :
  q < u -> Forall (Qle u) l -> Forall (fun v => q < v) l.
Proof.
  intros L F. eapply Forall_impl; [exact F|]. intros v Le. cbn in Le. lra.
Qed.

Lemma showUnlocked_loop_sorted (q : Q) (l : list Q) :
  StronglySorted Qle l ->
  forall i,
    showUnlocked_loop l (Num q) i
    = (List.filter (fun u => Qleb u q) l,
       (i + length (List.filter (fun u => Qleb u q) l))%nat).
Proof.
  induction 1 as [|u l _ IH Le]; intros i; [cbn; f_equal; lia|].
  cbn [showUnlocked_loop num_leb List.filter].
  destruct (Qleb u q) eqn:E.
  - rewrite IH. cbn [length]. f_equal. lia.
  - apply Qleb_false in E.
    rewrite (filter_above q l (sorted_above q u l E Le)). cbn. f_equal. lia.
Qed.

(** A sorted list splits into the levels reached and the levels above. *)
Lemma sorted_partition (q : Q) (l : list Q) :
  StronglySorted Qle l ->
  exists above,
    l = List.filter (fun u => Qleb u q) l ++ above
    /\ Forall (fun v => q < v) above
    /\ StronglySorted Qle above.
Proof.
  induction 1 as [|u l S IH Le]; [exists []; repeat split; constructor|].
  cbn [List.filter]. destruct (Qleb u q) eqn:E.
  - destruct IH as (above & E1 & A & S'). exists above.
    split; [cbn; now rewrite <- E1|]. now split.
  - apply Qleb_false in E. pose proof (sorted_above q u l E Le) as A.
    rewrite (filter_above q l A). exists (u :: l).
    split; [reflexivity|]. split; [now constructor|now constructor].
Qed.

Lemma filter_reached (q : Q) (l : list Q) :
  Forall (fun u => u <= q) (List.filter (fun u => Qleb u q) l).
Proof.
  induction l as [|u l IH]; [constructor|].
  cbn. destruct (Qleb u q) eqn:E; [|exact IH].
  constructor; [now apply Qleb_spec|exact IH].
Qed.

Lemma last_reached (q : Q) (reached above : list Q) :
  Forall (fun u => u <= q) reached -> Forall (fun v => q < v) above ->
  match last (reached ++ above) with
  | Some u => num_leb (Num u) (Num q)
  | None => false
  end = true
  <-> reached ++ above <> [] /\ above = [].
Proof.
  intros Re A. destruct above as [|v above' _] using rev_ind.
  - rewrite app_nil_r. destruct reached as [|u reached' _] using rev_ind.
    + cbn. split; [discriminate|now intros [? _]].
    + rewrite last_snoc. cbn [num_leb]. split.
      * intros _. split; [now destruct reached'|reflexivity].
      * intros _. apply Qleb_spec.
        apply Forall_app in Re. destruct Re as [_ Re]. now inversion Re.
  - rewrite app_assoc, last_snoc. cbn [num_leb]. split.
    + intros Le. apply Qleb_spec in Le.
      apply Forall_app in A. destruct A as [_ A]. inversion A; subst. lra.
    + intros [_ N]. now destruct above'.
Qed.

(** X20: for thresholds in ascending order and a highest level that is
    a number, [showUnlocked] unlocks exactly the thresholds the level has
    reached; it hides the hint exactly when there are thresholds and all
    are reached, and otherwise shows in it the lowest threshold not yet
    reached.  When the highest level is not a number nothing is unlocked
    and the hint shows the first threshold. *)
Theorem unlocked_up_to_the_highest_level :
  forall (unlockLevels : list Q) (q : Q),
    StronglySorted Qle unlockLevels ->
    let r := showUnlocked unlockLevels (Num q) in
    fst r = List.filter (fun u => Qleb u q) unlockLevels
    /\ (snd r = HintHidden
        <-> unlockLevels <> [] /\ Forall (fun u => u <= q) unlockLevels)
    /\ (unlockLevels <> [] -> snd r <> HintHidden ->
        exists u, snd r = HintLevel (Some u) /\ In u unlockLevels /\ q < u
                  /\ forall v, In v unlockLevels -> q < v -> u <= v)
    /\ showUnlocked unlockLevels NaN = ([], HintLevel (head unlockLevels)).
Proof.
  intros l q S r. subst r.
  assert (N : showUnlocked l NaN = ([], HintLevel (head l))).
  { unfold showUnlocked. destruct l as [|u l']; [reflexivity|].
    cbn [showUnlocked_loop num_leb]. destruct (last (u :: l')); reflexivity. }
  unfold showUnlocked.
  rewrite (showUnlocked_loop_sorted q l S 0). cbn [fst snd Nat.add].
  destruct (sorted_partition q l S) as (above & E & A & SA).
  pose proof (filter_reached q l) as Re.
  set (reached := List.filter (fun u => Qleb u q) l) in *.
  clearbody reached. clear S. subst l.
  pose proof (last_reached q reached above Re A) as Hid.
  split; [reflexivity|]. split; [|split; [|exact N]].
  - split.
    + intros Hd. destruct (match last _ with Some _ => _ | None => _ end) eqn:M;
        [|discriminate].
      destruct (proj1 Hid eq_refl) as [Ne Ab]. split; [exact Ne|].
      rewrite Ab, app_nil_r. exact Re.
    + intros [Ne All]. assert (Ab : above = []).
      { destruct above as [|v above']; [reflexivity|]. exfalso.
        apply Forall_app in All. destruct All as [_ All].
        inversion All; subst. inversion A; subst. lra. }
      rewrite (proj2 Hid (conj Ne Ab)). reflexivity.
  - intros Ne NH.
    destruct (match last _ with Some _ => _ | None => _ end) eqn:M;
      [contradiction|].
    destruct above as [|u above'].
    { pose proof (proj2 Hid (conj Ne eq_refl)) as F. discriminate F. }
    exists u. split.
    { f_equal. now apply list_lookup_middle. }
    inversion A as [|? ? Qu A']; subst.
    inversion SA as [|? ? _ Le]; subst.
    split; [apply in_or_app; right; now left|]. split; [exact Qu|].
    intros v Iv Qv. apply in_app_or in Iv.
    destruct Iv as [Iv|[->|Iv]].
    + exfalso. rewrite List.Forall_forall in Re.
      assert (v <= q); [|lra]. now apply Re.
    + lra.
    + rewrite List.Forall_forall in Le. now apply Le.
Qed.

(** ** The gun that is chosen *)

Section Guns.

Context {R : Type} `{RandomDataGenerator R} `{Trigonometry}.

Lemma guns_ext (a b : Guns) : (forall k, get_gun k a = get_gun k b) -> a = b.
Proof.
  intros E. destruct a, b.
  pose proof (E Pistol). pose proof (E Burst). pose proof (E Burst3).
  pose proof (E Blunderbuss). pose proof (E Shotgun). pose proof (E DbShotgun).
  pose proof (E Rifle). cbn in *. congruence.
Qed.

Lemma one_gun (guns : Guns) (previous : WeaponKind) :
  (forall k, get_gun k guns = true <-> k = previous) ->
  guns = set_gun previous true
           (set_gun Pistol false (set_gun Burst false (set_gun Burst3 false
              (set_gun Blunderbuss false (set_gun Shotgun false
                 (set_gun DbShotgun false (set_gun Rifle false guns))))))).
Proof.
  intros One. apply guns_ext. intros k.
  destruct (get_gun k guns) eqn:G.
  - apply One in G. subst k. destruct previous; reflexivity.
  - destruct previous, k; try reflexivity;
      exfalso; rewrite (proj2 (One _) eq_refl) in G; discriminate.
Qed.

Lemma gun_change_one (id : WeaponKind) (guns : Guns) (previous : WeaponKind) :
  (forall k, get_gun k guns = true <-> k = previous) ->
  forall k, get_gun k (fst (gun_change id true (guns, previous))) = true <-> k = id.
Proof.
  intros One k. rewrite (one_gun guns previous One). cbn [gun_change fst].
  destruct previous, id, k; cbn; split; congruence.
Qed.

(** X21: when exactly one gun is set in the stored guns and [previous]
    names it, then after the player has chosen any guns in the menu, one
    after the other, exactly one gun is set again: the one chosen last
    (the one set before when none was chosen); [previous] names it, and
    it is the gun the player is given when a level is created, with the
    fire factor of the fast-gun mutator. *)
Theorem chosen_gun_is_played :
  forall (ids : list WeaponKind) (guns : Guns) (previous : WeaponKind) (g : @Game R),
    (forall k, get_gun k guns = true <-> k = previous) ->
    let st := choose_guns ids (guns, previous) in
    snd st = default previous (last ids)
    /\ (forall k, get_gun k (fst st) = true <-> k = snd st)
    /\ kind (_createPlayerWeapon (fst st) g) = snd st
    /\ fireFactor (_createPlayerWeapon (fst st) g)
       = (if fastgun (_mutators g) then fastFireFactor else 1).
Proof.
  intros ids guns previous g One st.
  assert (I : snd st = default previous (last ids)
              /\ (forall k, get_gun k (fst st) = true <-> k = snd st)).
  { subst st. revert guns previous One.
    induction ids as [|id ids IH]; intros guns previous One.
    - split; [reflexivity|exact One].
    - change (choose_guns (id :: ids) (guns, previous))
        with (choose_guns ids (gun_change id true (guns, previous))).
      pose proof (gun_change_one id guns previous One) as One'.
      destruct (gun_change id true (guns, previous)) as [guns' previous'] eqn:Ch.
      assert (previous' = id) by (unfold gun_change in Ch; congruence). subst previous'.
      destruct (IH guns' id One') as [L O]. split; [|exact O].
      rewrite L. destruct ids as [|id' ids']; [reflexivity|].
      rewrite last_cons_cons.
      destruct (last (id' :: ids')) eqn:La; [reflexivity|].
      apply last_None in La. discriminate La. }
  destruct I as [L O]. split; [exact L|]. split; [exact O|].
  pose proof (one_gun (fst st) (snd st) O) as E.
  split.
  - rewrite E. unfold _createPlayerWeapon.
    destruct (snd st); cbn; reflexivity.
  - unfold _createPlayerWeapon.
    repeat match goal with |- context [if ?c then new_Weapon _ _ else _] =>
      destruct c end; reflexivity.
Qed.

End Guns.

(** ** The storage manager *)

Section StorageProperties.

Context `{NumberStrings}.

Lemma get_set_storage this s st : get_storage this (set_storage this s st) = s.
Proof. destruct this; reflexivity. Qed.

Lemma get_set_storage_ne this other s st :
  other <> this -> get_storage other (set_storage this s st) = get_storage other st.
Proof. destruct this, other; intros N; try reflexivity; contradiction. Qed.

Lemma load_save this key key' v st :
  GameStorageManager_load this key' (GameStorageManager_save this key v st)
  = if decide (key = key') then VStr (ToString v)
    else GameStorageManager_load this key' st.
Proof.
  unfold GameStorageManager_load, GameStorageManager_save, getItem, setItem.
  rewrite get_set_storage. destruct (decide (key = key')) as [->|N].
  - now rewrite lookup_insert_eq.
  - now rewrite lookup_insert_ne.
Qed.

Lemma save_other this other key v st :
  other <> this ->
  get_storage other (GameStorageManager_save this key v st) = get_storage other st.
Proof. intros N. unfold GameStorageManager_save. now apply get_set_storage_ne. Qed.

Lemma foldl_removeItem (keys : list string) : forall (s : Storage) (key : string),
  foldl (fun s key => removeItem key s) s keys !! key
  = if bool_decide (key ∈ keys) then None else s !! key.
Proof.
  induction keys as [|k keys IH]; intros s key; [reflexivity|].
  cbn [foldl]. rewrite IH. unfold removeItem.
  destruct (decide (key = k)) as [->|N].
  - rewrite lookup_delete_eq, (bool_decide_eq_true_2 (k ∈ k :: keys)) by left.
    now destruct (bool_decide _).
  - rewrite lookup_delete_ne by congruence.
    destruct (bool_decide (key ∈ keys)) eqn:B.
    + apply bool_decide_eq_true in B.
      rewrite bool_decide_eq_true_2; [reflexivity|now right].
    + apply bool_decide_eq_false in B.
      rewrite bool_decide_eq_false_2; [reflexivity|].
      intros [E|E]%elem_of_cons; [contradiction|contradiction].
Qed.

(** [clear] removes from [window.localStorage] exactly the keys with the
    prefix, and leaves the other storage alone. *)
Lemma GameStorageManager_clear_spec (st : Stores) :
  (forall key,
     window_localStorage (GameStorageManager_clear st) !! key
     = if String.prefix PREFIX key then None else window_localStorage st !! key)
  /\ given_localStorage (GameStorageManager_clear st) = given_localStorage st.
Proof.
  split; [|reflexivity]. intros key.
  unfold GameStorageManager_clear. cbn [set_storage window_localStorage].
  rewrite foldl_removeItem.
  destruct (String.prefix PREFIX key) eqn:P.
  - destruct (bool_decide _) eqn:B; [reflexivity|].
    apply bool_decide_eq_false in B.
    destruct (window_localStorage st !! key) as [v|] eqn:L; [|reflexivity].
    exfalso. apply B. apply list_elem_of_In, filter_In. split; [|exact P].
    apply list_elem_of_In, list_elem_of_fmap. exists (key, v).
    split; [reflexivity|]. now apply elem_of_map_to_list.
  - rewrite bool_decide_eq_false_2; [reflexivity|].
    intros E. apply list_elem_of_In, filter_In in E. destruct E as [_ E]. congruence.
Qed.

Lemma keys_distinct :
  Keys_VERSION <> Keys_LEVEL /\ Keys_VERSION <> Keys_HIGHEST_LEVEL
  /\ Keys_VERSION <> Keys_TIMES /\ Keys_LEVEL <> Keys_HIGHEST_LEVEL
  /\ Keys_LEVEL <> Keys_TIMES /\ Keys_HIGHEST_LEVEL <> Keys_TIMES.
Proof. repeat split; intros E; vm_compute in E; discriminate E. Qed.

Lemma keys_prefixed :
  String.prefix PREFIX Keys_VERSION = true /\ String.prefix PREFIX Keys_LEVEL = true
  /\ String.prefix PREFIX Keys_HIGHEST_LEVEL = true
  /\ String.prefix PREFIX Keys_TIMES = true.
Proof. repeat split; vm_compute; reflexivity. Qed.

(** [saveLevel] on a level that is an integer and not negative. *)
Lemma saveLevel_integer this level (z : Z) st :
  Number level = Num (inject_Z z) -> (0 <= z)%Z ->
  let st1 := GameStorageManager_save this Keys_LEVEL (VNum (Num (inject_Z z))) st in
  saveLevel this level st
  = (None,
     if num_ltb (loadHighestLevel this st) (Num (inject_Z z))
     then GameStorageManager_save this Keys_HIGHEST_LEVEL (VNum (Num (inject_Z z))) st1
     else st1).
Proof.
  intros N P st1. unfold saveLevel. rewrite N.
  assert (Q0 : Qltb (inject_Z z) 0 = false).
  { apply Qltb_false. change 0 with (inject_Z 0). now rewrite <- Zle_Qle. }
  rewrite Q0. fold st1. unfold loadHighestLevel.
  assert (L : GameStorageManager_load this Keys_HIGHEST_LEVEL st1
              = GameStorageManager_load this Keys_HIGHEST_LEVEL st).
  { unfold st1. rewrite load_save. destruct (decide _) as [E|_]; [|reflexivity].
    exfalso. now apply keys_distinct in E. }
  rewrite L. now destruct (num_ltb _ _).
Qed.

(** X22: saving a level that is a whole number, not negative, throws
    nothing; the level then reads back as saved, and the highest level,
    when it was a number, reads back as the larger of what it was and the
    level saved (so it never goes down); when it was not a number, it is
    left as it was.  No other key and no other storage is touched. *)
Theorem saved_level_reads_back :
  forall (this : StorageRef) (level : JSVal) (z : Z) (st : Stores),
    Number level = Num (inject_Z z) -> (0 <= z)%Z ->
    let r := saveLevel this level st in
    fst r = None
    /\ loadLevel this (snd r) = Num (inject_Z z)
    /\ (forall h, loadHighestLevel this st = Num h ->
        exists h', loadHighestLevel this (snd r) = Num h'
                   /\ h <= h' /\ inject_Z z <= h' /\ (h' = h \/ h' = inject_Z z))
    /\ (loadHighestLevel this st = NaN ->
        GameStorageManager_load this Keys_HIGHEST_LEVEL (snd r)
        = GameStorageManager_load this Keys_HIGHEST_LEVEL st)
    /\ (forall key, key <> Keys_LEVEL -> key <> Keys_HIGHEST_LEVEL ->
        GameStorageManager_load this key (snd r) = GameStorageManager_load this key st)
    /\ (forall other, other <> this ->
        get_storage other (snd r) = get_storage other st).
Proof.
  intros this level z st N P r. subst r.
  rewrite (saveLevel_integer this level z st N P). cbn [fst snd].
  destruct keys_distinct as (_ & _ & _ & LH & _).
  split; [reflexivity|].
  destruct (num_ltb (loadHighestLevel this st) (Num (inject_Z z))) eqn:Lt.
  - split.
    { unfold loadLevel. rewrite !load_save.
      destruct (decide (Keys_HIGHEST_LEVEL = Keys_LEVEL)) as [E|_]; [congruence|].
      destruct (decide (Keys_LEVEL = Keys_LEVEL)) as [_|E]; [|contradiction].
      cbn [Number ToString]. apply Number_String. }
    split.
    { intros h Eh. rewrite Eh in Lt. cbn [num_ltb] in Lt. apply Qltb_spec in Lt.
      exists (inject_Z z). unfold loadHighestLevel. rewrite load_save.
      destruct (decide (Keys_HIGHEST_LEVEL = Keys_HIGHEST_LEVEL)) as [_|E];
        [|contradiction].
      cbn [Number ToString]. rewrite Number_String.
      split; [reflexivity|]. split; [lra|]. split; [lra|now right]. }
    split.
    { intros Eh. rewrite Eh in Lt. discriminate Lt. }
    split.
    { intros key N1 N2. rewrite !load_save.
      destruct (decide (Keys_HIGHEST_LEVEL = key)) as [E|_]; [congruence|].
      destruct (decide (Keys_LEVEL = key)) as [E|_]; [congruence|]. reflexivity. }
    intros other No. now rewrite !save_other.
  - split.
    { unfold loadLevel. rewrite load_save.
      destruct (decide (Keys_LEVEL = Keys_LEVEL)) as [_|E]; [|contradiction].
      cbn [Number ToString]. apply Number_String. }
    assert (Hh : GameStorageManager_load this Keys_HIGHEST_LEVEL
                   (GameStorageManager_save this Keys_LEVEL (VNum (Num (inject_Z z))) st)
                 = GameStorageManager_load this Keys_HIGHEST_LEVEL st).
    { rewrite load_save.
      destruct (decide (Keys_LEVEL = Keys_HIGHEST_LEVEL)) as [E|_]; [congruence|].
      reflexivity. }
    split.
    { intros h Eh. rewrite Eh in Lt. cbn [num_ltb] in Lt. apply Qltb_false in Lt.
      exists h. unfold loadHighestLevel. rewrite Hh. fold (loadHighestLevel this st).
      split; [exact Eh|]. split; [lra|]. split; [exact Lt|now left]. }
    split; [intros _; exact Hh|].
    split.
    { intros key N1 N2. rewrite load_save.
      destruct (decide (Keys_LEVEL = key)) as [E|_]; [congruence|]. reflexivity. }
    intros other No. now rewrite save_other.
Qed.

(** The storage of the manager once the constructor has found an
    outdated version, cleared and stored the new one: [s] is what the
    manager's storage holds then. *)
Lemma fresh_levels this (st1 : Stores) :
  GameStorageManager_load this Keys_LEVEL st1 = VNull ->
  GameStorageManager_load this Keys_HIGHEST_LEVEL st1 = VNull ->
  saveLevel this (or_else (GameStorageManager_load this Keys_LEVEL st1) (VNum (Num 1))) st1
  = (None,
     GameStorageManager_save this Keys_HIGHEST_LEVEL (VNum (Num 1))
       (GameStorageManager_save this Keys_LEVEL (VNum (Num 1)) st1)).
Proof.
  intros L Hh. rewrite L. cbn [or_else truthy].
  rewrite (saveLevel_integer this (VNum (Num 1)) 1 st1 eq_refl) by lia.
  unfold loadHighestLevel. rewrite Hh. reflexivity.
Qed.

(** X23: when [window.localStorage] holds no version or another one,
    the manager made for it starts afresh and throws nothing: the version
    is the current one, the level and the highest level read back as 1
    and the times as 0; every other key with the game's prefix is gone,
    the keys without the prefix are as they were, and the other storage
    is not touched. *)
Theorem outdated_storage_starts_afresh :
  forall st : Stores,
    window_localStorage st !! Keys_VERSION <> Some STORAGE_VERSION ->
    let r := GameStorageManager TheWindow st in
    fst r = None
    /\ GameStorageManager_load TheWindow Keys_VERSION (snd r) = VStr STORAGE_VERSION
    /\ loadLevel TheWindow (snd r) = Num 1
    /\ loadHighestLevel TheWindow (snd r) = Num 1
    /\ loadTimes TheWindow (snd r) = Num 0
    /\ (forall key,
          String.prefix PREFIX key = true ->
          key <> Keys_VERSION -> key <> Keys_LEVEL -> key <> Keys_HIGHEST_LEVEL ->
          key <> Keys_TIMES ->
          window_localStorage (snd r) !! key = None)
    /\ (forall key,
          String.prefix PREFIX key = false ->
          window_localStorage (snd r) !! key = window_localStorage st !! key)
    /\ given_localStorage (snd r) = given_localStorage st.
Proof.
  intros st Old r. subst r. unfold GameStorageManager.
  assert (D : differs_from (GameStorageManager_load TheWindow Keys_VERSION st)
                STORAGE_VERSION = true).
  { unfold GameStorageManager_load, getItem. cbn [get_storage].
    destruct (window_localStorage st !! Keys_VERSION) as [v|]; [|reflexivity].
    cbn [differs_from]. apply negb_true_iff, String.eqb_neq. congruence. }
  rewrite D.
  destruct (GameStorageManager_clear_spec st) as [Cl Gi].
  destruct keys_distinct as (VL & VH & VT & LH & LT & HT).
  destruct keys_prefixed as (PV & PL & PH & PT).
  set (st1 := GameStorageManager_save TheWindow Keys_VERSION (VStr STORAGE_VERSION)
                (GameStorageManager_clear st)).
  assert (G1 : forall key, key <> Keys_VERSION ->
                 window_localStorage st1 !! key
                 = if String.prefix PREFIX key then None
                   else window_localStorage st !! key).
  { intros key N. unfold st1, GameStorageManager_save, setItem.
    cbn [set_storage get_storage window_localStorage].
    rewrite lookup_insert_ne by congruence. apply Cl. }
  assert (L1 : GameStorageManager_load TheWindow Keys_LEVEL st1 = VNull).
  { unfold GameStorageManager_load, getItem. cbn [get_storage].
    rewrite G1 by congruence. now rewrite PL. }
  assert (H1 : GameStorageManager_load TheWindow Keys_HIGHEST_LEVEL st1 = VNull).
  { unfold GameStorageManager_load, getItem. cbn [get_storage].
    rewrite G1 by congruence. now rewrite PH. }
  rewrite (fresh_levels TheWindow st1 L1 H1).
  set (st2 := GameStorageManager_save TheWindow Keys_HIGHEST_LEVEL (VNum (Num 1))
                (GameStorageManager_save TheWindow Keys_LEVEL (VNum (Num 1)) st1)).
  assert (T2 : GameStorageManager_load TheWindow Keys_TIMES st2 = VNull).
  { unfold st2. rewrite !load_save.
    destruct (decide (Keys_HIGHEST_LEVEL = Keys_TIMES)) as [E|_]; [congruence|].
    destruct (decide (Keys_LEVEL = Keys_TIMES)) as [E|_]; [congruence|].
    unfold GameStorageManager_load, getItem. cbn [get_storage].
    rewrite G1 by congruence. now rewrite PT. }
  rewrite T2. cbn [or_else truthy]. unfold saveTimes.
  set (st3 := GameStorageManager_save TheWindow Keys_TIMES (VNum (Num 0)) st2).
  assert (H3 : GameStorageManager_load TheWindow Keys_HIGHEST_LEVEL st3
               = VStr (String_of_number 1)).
  { unfold st3, st2. rewrite !load_save.
    destruct (decide (Keys_TIMES = Keys_HIGHEST_LEVEL)) as [E|_]; [congruence|].
    destruct (decide (Keys_HIGHEST_LEVEL = Keys_HIGHEST_LEVEL)) as [_|E];
      [reflexivity|contradiction]. }
  assert (L3 : GameStorageManager_load TheWindow Keys_LEVEL st3
               = VStr (String_of_number 1)).
  { unfold st3, st2. rewrite !load_save.
    destruct (decide (Keys_TIMES = Keys_LEVEL)) as [E|_]; [congruence|].
    destruct (decide (Keys_HIGHEST_LEVEL = Keys_LEVEL)) as [E|_]; [congruence|].
    destruct (decide (Keys_LEVEL = Keys_LEVEL)) as [_|E]; [reflexivity|contradiction]. }
  assert (O3 : ToString (or_else (GameStorageManager_load TheWindow Keys_HIGHEST_LEVEL st3)
                           (GameStorageManager_load TheWindow Keys_LEVEL st3))
               = String_of_number 1).
  { rewrite H3, L3. unfold or_else. now destruct (truthy _). }
  set (v := or_else _ _) in *. cbn [fst snd].
  set (st4 := GameStorageManager_save TheWindow Keys_HIGHEST_LEVEL v st3).
  assert (W4 : window_localStorage st4
               = <[Keys_HIGHEST_LEVEL := String_of_number 1]>
                   (<[Keys_TIMES := String_of_number 0]>
                      (<[Keys_HIGHEST_LEVEL := String_of_number 1]>
                         (<[Keys_LEVEL := String_of_number 1]>
                            (window_localStorage st1))))).
  { unfold st4, st3, st2, GameStorageManager_save, setItem.
    cbn [set_storage get_storage window_localStorage]. now rewrite O3. }
  assert (One : Number_of_string (String_of_number 1) = Num 1)
    by apply (Number_String 1).
  assert (Zero : Number_of_string (String_of_number 0) = Num 0)
    by apply (Number_String 0).
  split; [reflexivity|].
  split.
  { unfold GameStorageManager_load, getItem. cbn [get_storage]. rewrite W4.
    rewrite !lookup_insert_ne by congruence.
    unfold st1, GameStorageManager_save, setItem.
    cbn [set_storage get_storage window_localStorage].
    now rewrite lookup_insert_eq. }
  split.
  { unfold loadLevel, GameStorageManager_load, getItem. cbn [get_storage].
    rewrite W4. rewrite !(lookup_insert_ne _ _ Keys_LEVEL) by congruence.
    rewrite lookup_insert_eq. exact One. }
  split.
  { unfold loadHighestLevel, GameStorageManager_load, getItem. cbn [get_storage].
    rewrite W4, lookup_insert_eq. exact One. }
  split.
  { unfold loadTimes, GameStorageManager_load, getItem. cbn [get_storage].
    rewrite W4. rewrite lookup_insert_ne by congruence.
    rewrite lookup_insert_eq. exact Zero. }
  split.
  { intros key P NV NL NH NT. rewrite W4.
    rewrite !lookup_insert_ne by congruence.
    rewrite G1 by congruence. now rewrite P. }
  split.
  { intros key P. rewrite W4.
    assert (key <> Keys_VERSION /\ key <> Keys_LEVEL /\ key <> Keys_HIGHEST_LEVEL
            /\ key <> Keys_TIMES) as (NV & NL & NH & NT).
    { repeat split; intros ->; congruence. }
    rewrite !lookup_insert_ne by congruence.
    rewrite G1 by congruence. now rewrite P. }
  unfold st4, st3, st2, st1, GameStorageManager_save.
  cbn [set_storage given_localStorage]. exact Gi.
Qed.

(** X24: when the storage of the manager holds the current version and
    a level that is not empty and does not read as a number, the
    constructor throws a [TypeError]; when the level reads as a negative
    number, it throws a [RangeError].  In both cases it leaves the two
    storages as they were. *)
Theorem corrupted_level_stops_the_manager :
  forall (this : StorageRef) (st : Stores) (s : string),
    get_storage this st !! Keys_VERSION = Some STORAGE_VERSION ->
    get_storage this st !! Keys_LEVEL = Some s ->
    s <> EmptyString ->
    (Number_of_string s = NaN
     -> GameStorageManager this st = (Some (TypeError MSGS_NAN), st))
    /\ (forall q, Number_of_string s = Num q -> q < 0 ->
          GameStorageManager this st = (Some (RangeError MSGS_NEG), st)).
Proof.
  intros this st s V L Ne. unfold GameStorageManager.
  assert (D : differs_from (GameStorageManager_load this Keys_VERSION st)
                STORAGE_VERSION = false).
  { unfold GameStorageManager_load, getItem. rewrite V. cbn [differs_from].
    now rewrite String.eqb_refl. }
  rewrite D.
  assert (O : or_else (GameStorageManager_load this Keys_LEVEL st) (VNum (Num 1))
              = VStr s).
  { unfold GameStorageManager_load, getItem. rewrite L.
    unfold or_else. cbn [truthy].
    destruct (String.eqb s EmptyString) eqn:E; [|reflexivity].
    apply String.eqb_eq in E. contradiction. }
  rewrite O. unfold saveLevel. cbn [Number]. split.
  - intros ->. reflexivity.
  - intros q -> Neg. apply Qltb_spec in Neg. now rewrite Neg.
Qed.

(** X25: [clear] always works on [window.localStorage], whichever
    storage the manager has: it removes from it exactly the keys with the
    game's prefix.  So a manager that is given a storage of its own and
    finds an outdated version in it erases the game's keys of
    [window.localStorage] and none of its own: whether the constructor
    throws or not, every key of the given storage other than the version,
    the level, the highest level and the times is as it was. *)
Theorem clear_spares_the_given_storage :
  forall st : Stores,
    let r := GameStorageManager Given st in
    (forall key,
       window_localStorage (GameStorageManager_clear st) !! key
       = if String.prefix PREFIX key then None else window_localStorage st !! key)
    /\ given_localStorage (GameStorageManager_clear st) = given_localStorage st
    /\ (forall key,
          key <> Keys_VERSION -> key <> Keys_LEVEL -> key <> Keys_HIGHEST_LEVEL ->
          key <> Keys_TIMES ->
          given_localStorage (snd r) !! key = given_localStorage st !! key)
    /\ (given_localStorage st !! Keys_VERSION <> Some STORAGE_VERSION ->
        forall key,
          window_localStorage (snd r) !! key
          = if String.prefix PREFIX key then None else window_localStorage st !! key).
Proof.
  intros st r. destruct (GameStorageManager_clear_spec st) as [Cl Gi].
  split; [exact Cl|]. split; [exact Gi|].
  assert (Sv : forall key k v st0,
             key <> k ->
             given_localStorage (GameStorageManager_save Given k v st0) !! key
             = given_localStorage st0 !! key).
  { intros key k v st0 N. unfold GameStorageManager_save, setItem.
    cbn [set_storage get_storage given_localStorage].
    now rewrite lookup_insert_ne by congruence. }
  assert (Sw : forall k v st0,
             window_localStorage (GameStorageManager_save Given k v st0)
             = window_localStorage st0) by reflexivity.
  assert (SL : forall level st0,
             (forall key, key <> Keys_LEVEL -> key <> Keys_HIGHEST_LEVEL ->
                given_localStorage (snd (saveLevel Given level st0)) !! key
                = given_localStorage st0 !! key)
             /\ window_localStorage (snd (saveLevel Given level st0))
                = window_localStorage st0).
  { intros level st0. unfold saveLevel.
    destruct (Number level) as [|q]; [now split|].
    destruct (Qltb q 0); [now split|].
    destruct (num_ltb _ _); cbn [snd]; split; try reflexivity;
      intros key NL NH; rewrite ?Sv by congruence; reflexivity. }
  subst r. unfold GameStorageManager.
  set (st1 := if differs_from _ _ then _ else st).
  assert (G1 : (forall key, key <> Keys_VERSION ->
                  given_localStorage st1 !! key = given_localStorage st !! key)
               /\ (given_localStorage st !! Keys_VERSION <> Some STORAGE_VERSION ->
                   window_localStorage st1 = window_localStorage (GameStorageManager_clear st))).
  { subst st1.
    destruct (differs_from (GameStorageManager_load Given Keys_VERSION st)
                STORAGE_VERSION) eqn:D.
    - split; [|reflexivity]. intros key N. rewrite Sv by congruence. now rewrite Gi.
    - split; [reflexivity|]. intros Old. exfalso. apply Old.
      unfold GameStorageManager_load, getItem in D. cbn [get_storage] in D.
      destruct (given_localStorage st !! Keys_VERSION) as [v|]; [|discriminate D].
      cbn [differs_from] in D. apply negb_false_iff, String.eqb_eq in D. now subst v. }
  destruct G1 as [G1 W1].
  destruct (SL (or_else (GameStorageManager_load Given Keys_LEVEL st1) (VNum (Num 1))) st1)
    as [G2 W2].
  destruct (saveLevel Given _ st1) as [thrown st2]. cbn [snd] in G2, W2.
  destruct thrown as [e|]; cbn [snd].
  - split.
    + intros key NV NL NH NT. rewrite G2 by congruence. now apply G1.
    + intros Old key. rewrite W2, (W1 Old). apply Cl.
  - unfold saveTimes. split.
    + intros key NV NL NH NT. rewrite !Sv by congruence.
      rewrite G2 by congruence. now apply G1.
    + intros Old key. rewrite !Sw, W2, (W1 Old). apply Cl.
Qed.

End StorageProperties.

(** * Examples on the scripted engine *)

Lemma scripted_frac_range n : 0 <= scripted_frac n /\ scripted_frac n < 1.
Proof.
  unfold scripted_frac, Qle, Qlt. cbn [Qnum Qden].
  pose proof (Nat.mod_upper_bound n 10 ltac:(discriminate)). lia.
Qed.

(** The scripted generator keeps the promises about its ranges. *)
Lemma scripted_ranges : @RandomRanges nat scripted_rnd.
Proof.
  constructor.
  - intros r. apply scripted_frac_range.
  - intros lo hi r L. cbn [realInRange scripted_rnd fst].
    destruct (scripted_frac_range r) as [F0 F1]. split; nra.
  - intros lo hi r L. cbn [between scripted_rnd fst].
    destruct (Nat.even r); split; lra.
Qed.

(** The scripted generator draws its signs as promised. *)
Lemma scripted_signs : @RandomSigns nat scripted_rnd.
Proof.
  constructor. intros r. cbn [sign scripted_rnd fst].
  destruct (Nat.even r); [now left|now right].
Qed.

Lemma decimal_round_trip (z : Z) :
  decimal_Number (decimal_String (inject_Z z)) = Num (inject_Z z).
Proof.
  unfold decimal_Number, decimal_String. rewrite Qfloor_Z.
  rewrite NilZero.isi.
  - now rewrite DecimalZ.of_to.
  - destruct z; cbn; try discriminate.
    intros E. injection E as E. now apply Unsigned.to_uint_nonnil in E.
  - destruct z; cbn; try discriminate.
    intros E. injection E as E. now apply Unsigned.to_uint_nonnil in E.
Qed.

(** The decimal conversions keep the promise about whole numbers. *)
Lemma decimal_strings : NumberStrings.
Proof.
  exact {| Number_of_string := decimal_Number;
           String_of_number := decimal_String;
           Number_String := decimal_round_trip |}.
Defined.

Section Examples.

#[local] Existing Instances scripted_rnd flat_trig.

Lemma rifle_cadence_cycle_witness :
  let a := arena level1 in
  let w := BotWeapon Rifle in
  let w10 :=
    get_weapon w (snd (fire_times 10 w (BotRef 0) (bot_sprite (new_Bot 0 0 1)) a)) in
  kind (get_weapon w a) = Rifle
  /\ _bulletCount (get_weapon w a) = 10%Z
  /\ fireRate w10 = Rifle_FIRE_RATE * fireFactor (get_weapon w a) * (35 / 10)
  /\ _bulletCount w10 = 10%Z.
Proof.
  assert (K : kind (get_weapon (BotWeapon Rifle) (arena level1)) = Rifle)
    by (vm_compute; reflexivity).
  assert (C : _bulletCount (get_weapon (BotWeapon Rifle) (arena level1)) = 10%Z)
    by (vm_compute; reflexivity).
  exact (conj K (conj C
           (proj2 (@rifle_cadence_cycle nat scripted_rnd flat_trig scripted_ranges
                     (BotWeapon Rifle) (BotRef 0) (bot_sprite (new_Bot 0 0 1))
                     (arena level1) K C)))).
Defined.


(** C2 as stated fails: level 1 has been won and a frame of a sixtieth
    of a second passes with the player standing still.  [update] returns
    the state as it is: the stored elapsed time is still the 2 seconds of
    the last played frame, not the product the claim gives for this frame,
    and no timer has moved although that product is not zero. *)
Lemma won_level_stops_the_clock :
  let g := level1_won in
  let g' := step g (Tick stand_still) in
  let e := physicsElapsed stand_still
           * (bulletSpeed_of stand_still g / normal speeds_bullet) in
  superhot g = true
  /\ g' = g
  /\ _elapsedTime g' == 2
  /\ e == 8 # 90000
  /\ ~ _elapsedTime g' == e
  /\ _next_hotSwitch g' = _next_hotSwitch g
  /\ ~ _next_hotSwitch g' == _next_hotSwitch g - e.
Proof.
  assert (W : superhot level1_won = true) by (vm_compute; reflexivity).
  cbn zeta. split; [exact W|]. split; [apply update_won, W|].
  cbn [step]. rewrite (update_won stand_still level1_won W).
  repeat split; try (vm_compute; reflexivity); vm_compute; discriminate.
Qed.

Lemma dilated_time_drives_timers_witness :
  superhot level1 = false
  /\ _elapsedTime (update run_and_fire level1)
     = physicsElapsed run_and_fire
       * (bulletSpeed_of run_and_fire level1 / normal speeds_bullet).
Proof.
  assert (NW : superhot level1 = false) by (vm_compute; reflexivity).
  exact (conj NW (proj1 (dilated_time_drives_timers (R := nat) run_and_fire level1 NW))).
Defined.

Lemma win_sequence_exactly_once_witness :
  (1 <= 1)%Z
  /\ superhot_calls (calls (run level1_played (start 0%nat 1 1 mutators_off only_pistol)))
     = (if superhot (run level1_played (start 0%nat 1 1 mutators_off only_pistol))
        then 1 else 0)%nat.
Proof.
  assert (L : (1 <= 1)%Z) by lia.
  exact (conj L (proj1 (win_sequence_exactly_once (R := nat) 0%nat 1 1 mutators_off
                          only_pistol level1_played L))).
Defined.

Lemma bullet_budget_witness :
  (1 <= 1)%Z
  /\ _counts_bullets (init 1 mutators_off (new_Game 0%nat 1))
     = (if lmtdbull mutators_off then 3 * level_bots 1 else -1)%Z.
Proof.
  assert (L : (1 <= 1)%Z) by lia.
  exact (conj L (proj1 (bullet_budget (R := nat) 0%nat 1 1 mutators_off only_pistol
                          level1_played L))).
Defined.


Lemma hotswitch_one_swap_exact_witness :
  onChildInputDown level1_midway = true
  /\ _groups_bots level1_midway !! 1%nat = Some level1_midway_bot
  /\ asks_hotswitch right_click = true
  /\ _next_hotSwitch level1_midway <= 0
  /\ _hotswitching level1_midway = false
  /\ forallb quiet [Tick stand_still; InputDown 1%nat right_click] = true
  /\ forallb quiet [InputDown 2%nat right_click] = true
  /\ switching
       (step
          (run [InputDown 2%nat right_click]
             (step
                (run (InputDown 1%nat right_click
                      :: [Tick stand_still; InputDown 1%nat right_click])
                   level1_midway)
                TweenComplete))
          TweenComplete)
     = (false, None, S (swap_calls (calls level1_midway))).
Proof.
  assert (On : onChildInputDown level1_midway = true) by (vm_compute; reflexivity).
  assert (Eb : _groups_bots level1_midway !! 1%nat = Some level1_midway_bot)
    by (vm_compute; reflexivity).
  assert (Asks : asks_hotswitch right_click = true) by reflexivity.
  assert (Cool : _next_hotSwitch level1_midway <= 0) by (vm_compute; discriminate).
  assert (Idle : _hotswitching level1_midway = false) by (vm_compute; reflexivity).
  assert (Q1 : forallb quiet [Tick stand_still; InputDown 1%nat right_click] = true)
    by reflexivity.
  assert (Q2 : forallb quiet [InputDown 2%nat right_click] = true) by reflexivity.
  exact (conj On (conj Eb (conj Asks (conj Cool (conj Idle (conj Q1 (conj Q2
           (proj1 (hotswitch_one_swap_exact (R := nat) level1_midway 1%nat right_click
                     level1_midway_bot
                     [Tick stand_still; InputDown 1%nat right_click]
                     [InputDown 2%nat right_click]
                     On Eb Asks Cool Idle Q1 Q2))))))))).
Defined.




(** ** Examples for the further properties *)

Lemma dilated_time_within_physics_time_witness :
  0 <= physicsElapsed stand_still /\ 0 <= elapsedTime_of stand_still level1.
Proof.
  assert (P : 0 <= physicsElapsed stand_still) by (vm_compute; discriminate).
  exact (conj P (proj1 (dilated_time_within_physics_time (R := nat) stand_still
                          level1 P))).
Defined.

Lemma bot_not_ready_holds_fire_witness :
  ((NATIVE_WIDTH + NATIVE_HEIGHT) / 2
   <= distanceBetween (bot_sprite (new_Bot 0 0 1)) (player_sprite (new_Player 0 0))
   \/ 0 < remainingTime (bot_sprite (new_Bot 0 0 1)) - 0)
  /\ munitions (snd (Bot_advance 0%nat stand_still 0 300 1
                       (player_sprite (new_Player 0 0)) false (new_Bot 0 0 1)
                       (arena level1)))
     = munitions (arena level1).
Proof.
  assert (F : (NATIVE_WIDTH + NATIVE_HEIGHT) / 2
              <= distanceBetween (bot_sprite (new_Bot 0 0 1))
                   (player_sprite (new_Player 0 0))
              \/ 0 < remainingTime (bot_sprite (new_Bot 0 0 1)) - 0)
    by (right; vm_compute; reflexivity).
  exact (conj F (proj1 (bot_not_ready_holds_fire (R := nat) 0%nat stand_still 0 300 1
                          (player_sprite (new_Player 0 0)) false (new_Bot 0 0 1)
                          (arena level1) F))).
Defined.

Lemma fire_puts_the_entity_back_witness :
  kind (get_weapon (BotWeapon Pistol) (arena level1)) <> Rifle
  /\ fst (Weapon_fire (BotWeapon Pistol) (BotRef 0) (bot_sprite (new_Bot 0 0 1))
            (arena level1))
     = bot_sprite (new_Bot 0 0 1).
Proof.
  assert (K : kind (get_weapon (BotWeapon Pistol) (arena level1)) <> Rifle)
    by (vm_compute; discriminate).
  exact (conj K (proj1 (fire_puts_the_entity_back (R := nat) (BotWeapon Pistol)
                          (BotRef 0) (bot_sprite (new_Bot 0 0 1)) (arena level1) K))).
Defined.

Lemma bots_guns_by_level_witness :
  level (start 0%nat 1 9 mutators_off only_pistol) = 9%Z
  /\ fst (_assignBotWeapon (start 0%nat 1 9 mutators_off only_pistol)) = Burst.
Proof.
  assert (L : level (start 0%nat 1 9 mutators_off only_pistol) = 9%Z)
    by (vm_compute; reflexivity).
  exact (conj L (proj1 (@bots_guns_by_level nat scripted_rnd scripted_ranges
                          (start 0%nat 1 9 mutators_off only_pistol)) L)).
Defined.

Lemma bots_movers_by_level_witness :
  match fst (_setBotMovement level1) with
  | ForwardMover => True
  | DistantMover d =>
      300 <= d /\ d <= (if (20 <=? level level1)%Z then 400 else 450)
  | StrafingMover d dir =>
      (20 <= level level1)%Z /\ 300 <= d /\ d <= 400
      /\ (dir = 1 * Math_PI / 2 \/ dir = - (1) * Math_PI / 2)
  | StrafingDistantMover d dir =>
      300 <= d /\ d <= (if (20 <=? level level1)%Z then 400 else 450)
      /\ (dir = 1 * Math_PI / 2 \/ dir = - (1) * Math_PI / 2)
  end.
Proof.
  exact (@bots_movers_by_level nat scripted_rnd scripted_ranges
           scripted_signs level1).
Defined.


Lemma dead_player_stays_dead_witness :
  alive (player_sprite (_sprites_player
           (run (take 6 level1_played
                 ++ [Impact PlayerBody (BulletBody (BotBullets, 0%nat))])
              (start 0%nat 1 1 mutators_off only_pistol)))) = false
  /\ alive (player_sprite (_sprites_player
              (run [Tick run_and_fire; InputDown 1%nat right_click]
                 (run (take 6 level1_played
                       ++ [Impact PlayerBody (BulletBody (BotBullets, 0%nat))])
                    (start 0%nat 1 1 mutators_off only_pistol))))) = false.
Proof.
  assert (D : alive (player_sprite (_sprites_player
                       (run (take 6 level1_played
                             ++ [Impact PlayerBody (BulletBody (BotBullets, 0%nat))])
                          (start 0%nat 1 1 mutators_off only_pistol)))) = false)
    by (vm_compute; reflexivity).
  exact (conj D (proj1 (dead_player_stays_dead (R := nat) 0%nat 1 1 mutators_off
                          only_pistol
                          (take 6 level1_played
                           ++ [Impact PlayerBody (BulletBody (BotBullets, 0%nat))])
                          [Tick run_and_fire; InputDown 1%nat right_click] D))).
Defined.

Lemma bots_within_the_level_witness :
  (1 <= 1)%Z /\ (5 <= level_bots 1)%Z.
Proof.
  assert (L : (1 <= 1)%Z) by lia.
  exact (conj L (proj1 (bots_within_the_level (R := nat) 0%nat 1 1 mutators_off
                          only_pistol level1_played L))).
Defined.

Lemma player_fire_rate_witness :
  kind (player_weapon (arena (run [] (start 0%nat 1 1 mutators_off only_pistol))))
  <> Rifle
  /\ playerFired_of run_and_fire (run [] (start 0%nat 1 1 mutators_off only_pistol))
     = true
  /\ remainingTime (player_sprite (_sprites_player
                      (run [] (start 0%nat 1 1 mutators_off only_pistol)))) <= 0.
Proof.
  assert (K : kind (player_weapon
                      (arena (run [] (start 0%nat 1 1 mutators_off only_pistol))))
              <> Rifle) by (vm_compute; discriminate).
  assert (F : playerFired_of run_and_fire
                (run [] (start 0%nat 1 1 mutators_off only_pistol)) = true)
    by (vm_compute; reflexivity).
  exact (conj K (conj F
           (proj1 (player_fire_rate (R := nat) 0%nat 1 1 mutators_off only_pistol []
                     run_and_fire stand_still K F)))).
Defined.

Lemma chosen_gun_is_played_witness :
  (forall k, get_gun k default_guns = true <-> k = Pistol)
  /\ snd (choose_guns [Shotgun; Rifle] (default_guns, Pistol))
     = default Pistol (last [Shotgun; Rifle]).
Proof.
  assert (One : forall k, get_gun k default_guns = true <-> k = Pistol)
    by (intros k; destruct k; cbn; split; congruence).
  exact (conj One (proj1 (chosen_gun_is_played (R := nat) [Shotgun; Rifle]
                            default_guns Pistol level1 One))).
Defined.

Lemma bullets_fly_at_the_frame_speed_witness :
  superhot level1 = false
  /\ get_bullets PlayerBullets (arena (update run_and_fire level1)) !! 0%nat
     = Some level1_first_bullet
  /\ bullet_alive level1_first_bullet = true
  /\ bullet_vx level1_first_bullet
     = bulletSpeed_of run_and_fire level1
       * Math_cos (bullet_rotation level1_first_bullet).
Proof.
  assert (NW : superhot level1 = false) by (vm_compute; reflexivity).
  assert (E : get_bullets PlayerBullets (arena (update run_and_fire level1)) !! 0%nat
              = Some level1_first_bullet) by (vm_compute; reflexivity).
  assert (A : bullet_alive level1_first_bullet = true) by reflexivity.
  exact (conj NW (conj E (conj A
           (proj1 (bullets_fly_at_the_frame_speed (R := nat) run_and_fire level1
                     PlayerBullets 0%nat level1_first_bullet NW E A))))).
Defined.

Lemma spawns_are_paced_witness :
  5 / 100 <= _next_botTime (start 0%nat 1 1 mutators_off only_pistol)
  /\ _next_botTime (start 0%nat 1 1 mutators_off only_pistol) <= 10 / 100.
Proof.
  exact (proj1 (@spawns_are_paced nat scripted_rnd flat_trig scripted_ranges
                  0%nat 1 1 mutators_off only_pistol 0 level1)).
Defined.

(** ** Examples for the helpers and the menu *)

Lemma scale_fills_and_fits_witness :
  (forall q, Some 1920 = Some q -> 0 <= q)
  /\ (forall q, @None Q = Some q -> 0 <= q)
  /\ 0 < or_default (Some 1920) NATIVE_WIDTH.
Proof.
  assert (W : forall q, Some 1920 = Some q -> 0 <= q)
    by (intros q E; injection E as <-; vm_compute; discriminate).
  assert (N : forall q, @None Q = Some q -> 0 <= q)
    by (intros q E; discriminate E).
  exact (conj W (conj N (proj1 (scale_fills_and_fits 800 600 (Some 1920) None W N)))).
Defined.

Lemma unlocked_up_to_the_highest_level_witness :
  StronglySorted Qle [10; 20; 30; 40; 50; 75]
  /\ fst (showUnlocked [10; 20; 30; 40; 50; 75] (Num 35))
     = List.filter (fun u => Qleb u 35) [10; 20; 30; 40; 50; 75].
Proof.
  assert (S : StronglySorted Qle [10; 20; 30; 40; 50; 75])
    by (repeat constructor; vm_compute; discriminate).
  exact (conj S (proj1 (unlocked_up_to_the_highest_level [10; 20; 30; 40; 50; 75]
                          35 S))).
Defined.

Lemma saved_level_reads_back_witness :
  @Number decimal_strings (VNum (Num 3)) = Num (inject_Z 3)
  /\ (0 <= 3)%Z
  /\ fst (@saveLevel decimal_strings TheWindow (VNum (Num 3)) no_stores) = None.
Proof.
  assert (N : @Number decimal_strings (VNum (Num 3)) = Num (inject_Z 3))
    by reflexivity.
  assert (P : (0 <= 3)%Z) by lia.
  exact (conj N (conj P
           (proj1 (@saved_level_reads_back decimal_strings TheWindow (VNum (Num 3)) 3
                     no_stores N P)))).
Defined.

Lemma outdated_storage_starts_afresh_witness :
  window_localStorage old_stores !! Keys_VERSION <> Some STORAGE_VERSION
  /\ fst (@GameStorageManager decimal_strings TheWindow old_stores) = None.
Proof.
  assert (O : window_localStorage old_stores !! Keys_VERSION <> Some STORAGE_VERSION)
    by (vm_compute; discriminate).
  exact (conj O (proj1 (@outdated_storage_starts_afresh decimal_strings old_stores O))).
Defined.

Lemma corrupted_level_stops_the_manager_witness :
  get_storage TheWindow bad_stores !! Keys_VERSION = Some STORAGE_VERSION
  /\ get_storage TheWindow bad_stores !! Keys_LEVEL = Some "seven"
  /\ "seven" <> EmptyString
  /\ @Number_of_string decimal_strings "seven" = NaN
  /\ @GameStorageManager decimal_strings TheWindow bad_stores
     = (Some (TypeError MSGS_NAN), bad_stores).
Proof.
  assert (V : get_storage TheWindow bad_stores !! Keys_VERSION = Some STORAGE_VERSION)
    by (vm_compute; reflexivity).
  assert (L : get_storage TheWindow bad_stores !! Keys_LEVEL = Some "seven")
    by (vm_compute; reflexivity).
  assert (N : "seven" <> EmptyString) by discriminate.
  assert (B : @Number_of_string decimal_strings "seven" = NaN)
    by (vm_compute; reflexivity).
  exact (conj V (conj L (conj N (conj B
           (proj1 (@corrupted_level_stops_the_manager decimal_strings TheWindow
                     bad_stores "seven" V L N) B))))).
Defined.

End Examples.
